(** * The comprehensive scoring system of the digest pipeline

    A shallow embedding of [summarizer/scoring_system.py]
    ([ComprehensiveScorer]) and of the fallback bundle built by
    [summarizer/gpt_summarizer.py], together with the properties of the
    scoring engine.  The pure helpers of the summarizer (the keyword
    classifier, the relevance estimate and the cleaning of a model reply)
    are embedded as well.

    Conventions of the embedding.
    - A Python [float] is an IEEE-754 binary64 number: the type
      [spec_float] of the Standard Library with precision 53 and maximal
      exponent 1024.  Every arithmetic operation is the correctly rounded
      (round-to-nearest, ties-to-even) one of [SpecFloat].
    - A Python object that can occur in an item or in a score bundle (both
      come from decoded JSON) is a [pyval].
    - A Python [dict] with string keys that is only read through [get] is a
      [gmap string pyval].
    - A Python [str] is the [string] of the bytes of its UTF-8 encoding.
      Searching for an ASCII fragment, [find], [rfind] and the slice between
      two ASCII characters are the same on the bytes as on the characters;
      [len] and iteration go character by character ([str_chars]).
      [str_lower] folds the letters A-Z only, where [str.lower] also lowers
      the letters outside ASCII.  Of those only U+212A (the Kelvin sign, to
      [k]) and U+0130 (the dotted capital I, to [i] and U+0307) become text
      with an ASCII letter in it, so on a text with neither of the two
      ([plain_case]) an ASCII fragment occurs in [str_lower s] exactly when
      it occurs in [s.lower()]; the properties that state which fragments
      are found assume such text.
    - A computation that may raise is a value of [result]. *)

From Stdlib Require Import ZArith List Bool Lia Ascii String.
From Stdlib Require Import Floats.SpecFloat.
From stdpp Require Import base option strings gmap.

Local Open Scope string_scope.
Local Open Scope Z_scope.

(** ** Binary64 floating-point numbers *)

Module F64.

Definition prec : Z := 53.
Definition emax : Z := 1024.

Definition add : spec_float -> spec_float -> spec_float := SFadd prec emax.
Definition sub : spec_float -> spec_float -> spec_float := SFsub prec emax.
Definition mul : spec_float -> spec_float -> spec_float := SFmul prec emax.
Definition div : spec_float -> spec_float -> spec_float := SFdiv prec emax.
Definition abs : spec_float -> spec_float := SFabs.
Definition leb : spec_float -> spec_float -> bool := SFleb.
Definition ltb : spec_float -> spec_float -> bool := SFltb.
Definition valid : spec_float -> bool := valid_binary prec emax.

(** [float(z)] for an integer [z]: the nearest binary64 number (the
    infinity when [z] is out of range). *)
Definition of_Z (z : Z) : spec_float := binary_normalize prec emax z 0 false.

(** The binary64 number nearest to the fraction [n / d]; this is the value
    of a decimal literal such as [0.15] (= [of_ratio false 15 100]) and of
    a decimal string converted back to a float. *)
Definition of_ratio (neg : bool) (n d : positive) : spec_float :=
  div (S754_finite neg n 0) (S754_finite false d 0).

Definition is_finite (x : spec_float) : bool :=
  match x with
  | S754_zero _ | S754_finite _ _ _ => true
  | _ => false
  end.

Definition is_zero (x : spec_float) : bool :=
  match x with
  | S754_zero _ => true
  | _ => false
  end.

(** Division of [n] by [d > 0] rounded to the nearest integer, ties to the
    even one. *)
Definition div_half_even (n d : Z) : Z :=
  let q := n / d in
  let r := n mod d in
  match 2 * r ?= d with
  | Lt => q
  | Gt => q + 1
  | Eq => if Z.even q then q else q + 1
  end.

(** [round(x, ndigits)] for a float [x] and [ndigits >= 0].  CPython
    converts the exact value of [x] to the correctly rounded decimal with
    [ndigits] places (ties of the exact value go to the even digit) and
    converts that decimal back to the nearest float; infinities and NaN
    round to themselves.  A float with a non-negative exponent is an
    integer and is its own rounding. *)
Definition round_ndigits (x : spec_float) (ndigits : nat) : spec_float :=
  match x with
  | S754_finite s m e =>
      if 0 <=? e then x
      else
        let scale := 10 ^ Z.of_nat ndigits in
        let k := div_half_even (Z.pos m * scale) (2 ^ (- e)) in
        match k with
        | Z.pos p => of_ratio s p (Z.to_pos scale)
        | _ => S754_zero s
        end
  | _ => x
  end.

End F64.

(** The float literals of the source. *)
Definition f0_0 : spec_float := S754_zero false.
Definition f0_5 : spec_float := F64.of_ratio false 5 10.
Definition f1_0 : spec_float := F64.of_Z 1.
Definition f2_0 : spec_float := F64.of_Z 2.
Definition f3_0 : spec_float := F64.of_Z 3.
Definition f4_0 : spec_float := F64.of_Z 4.
Definition f5_0 : spec_float := F64.of_Z 5.
Definition f6_0 : spec_float := F64.of_Z 6.
Definition f7_0 : spec_float := F64.of_Z 7.
Definition f8_0 : spec_float := F64.of_Z 8.
Definition f9_0 : spec_float := F64.of_Z 9.
Definition f10_0 : spec_float := F64.of_Z 10.
Definition f0_25 : spec_float := F64.of_ratio false 25 100.
Definition f0_20 : spec_float := F64.of_ratio false 20 100.
Definition f0_10 : spec_float := F64.of_ratio false 10 100.
Definition f0_15 : spec_float := F64.of_ratio false 15 100.

(** ** Python values, exceptions and the operations the scorer uses *)

(** The objects of decoded JSON. A [dict] value keeps its keys in insertion
    order. *)
#[warnings="-register-all"]
Inductive pyval : Type :=
  | VNone
  | VBool (b : bool)
  | VInt (z : Z)
  | VFloat (f : spec_float)
  | VStr (s : string)
  | VList (l : list pyval)
  | VDict (d : list (string * pyval)).

Inductive pyexc : Type := TypeError | AttributeError | OverflowError | KeyError.

Inductive result (A : Type) : Type :=
  | Ok (a : A)
  | Raise (e : pyexc).
Arguments Ok {A} a.
Arguments Raise {A} e.

Definition bind {A B : Type} (c : result A) (k : A -> result B) : result B :=
  match c with
  | Ok a => k a
  | Raise e => Raise e
  end.

Notation "'let*' x ':=' c 'in' k" := (bind c (fun x => k))
  (at level 10, x name, c at level 100, k at level 200).

(** *** Strings *)

Definition lower_char (c : ascii) : ascii :=
  let n := N_of_ascii c in
  if ((65 <=? n) && (n <=? 90))%N then ascii_of_N (n + 32) else c.

(** [s.lower()], as far as the letters A-Z go. *)
Fixpoint str_lower (s : string) : string :=
  match s with
  | EmptyString => EmptyString
  | String c s' => String (lower_char c) (str_lower s')
  end.

(** [sub in s] for two strings. *)
Fixpoint str_contains (sub s : string) : bool :=
  String.prefix sub s ||
  match s with
  | EmptyString => false
  | String _ s' => str_contains sub s'
  end.

(** A continuation byte of a character encoded on several bytes. *)
Definition is_continuation (c : ascii) : bool :=
  let n := N_of_ascii c in
  ((128 <=? n) && (n <? 192))%N.

(** The characters of a string, each a one-character string (what iterating
    a [str] yields): a byte with the continuation bytes that follow it. *)
Fixpoint str_chars (s : string) : list string :=
  match s with
  | EmptyString => []
  | String c s' =>
      let rest := str_chars s' in
      match s' with
      | String d _ =>
          if is_continuation d
          then match rest with
               | g :: gs => String c g :: gs
               | [] => [String c EmptyString]
               end
          else String c EmptyString :: rest
      | EmptyString => [String c EmptyString]
      end
  end.

(** [sep.join(parts)] *)
Fixpoint str_join (sep : string) (parts : list string) : string :=
  match parts with
  | [] => EmptyString
  | [p] => p
  | p :: rest => p ++ sep ++ str_join sep rest
  end.




(** *** Dynamic operations *)

(** [bool(v)] *)
Definition py_truthy (v : pyval) : bool :=
  match v with
  | VNone => false
  | VBool b => b
  | VInt z => negb (z =? 0)
  | VFloat f => negb (F64.is_zero f)
  | VStr s => negb (String.eqb s EmptyString)
  | VList l => match l with [] => false | _ => true end
  | VDict d => match d with [] => false | _ => true end
  end.

(** [v == s] for a string literal [s]. *)
Definition py_eq_str (v : pyval) (s : string) : bool :=
  match v with
  | VStr t => String.eqb t s
  | _ => false
  end.

(** [v >= c] for an integer literal [c] (exactly representable as a float).
    Integers and booleans compare as integers, floats by value (a NaN
    compares false), anything else is a [TypeError]. *)
Definition py_ge_int (v : pyval) (c : Z) : result bool :=
  match v with
  | VInt z => Ok (c <=? z)
  | VBool b => Ok (c <=? (if b then 1 else 0))
  | VFloat f => Ok (F64.leb (F64.of_Z c) f)
  | _ => Raise TypeError
  end.

(** [v.lower()]: only a [str] has the method. *)
Definition py_lower (v : pyval) : result string :=
  match v with
  | VStr s => Ok (str_lower s)
  | _ => Raise AttributeError
  end.

(** [iter(v)]: the elements a [for] loop, [any] or [join] sees. *)
Definition py_iter (v : pyval) : result (list pyval) :=
  match v with
  | VList l => Ok l
  | VStr s => Ok (map VStr (str_chars s))
  | VDict d => Ok (map (fun kv => VStr (fst kv)) d)
  | _ => Raise TypeError
  end.

(** [len(v)] *)
Definition py_len (v : pyval) : result Z :=
  match v with
  | VList l => Ok (Z.of_nat (List.length l))
  | VStr s => Ok (Z.of_nat (List.length (str_chars s)))
  | VDict d => Ok (Z.of_nat (List.length d))
  | _ => Raise TypeError
  end.

(** [sub in v] for a string literal [sub]: substring test on a [str],
    membership on a [list], key membership on a [dict]. *)
Definition py_contains_str (sub : string) (v : pyval) : result bool :=
  match v with
  | VStr s => Ok (str_contains sub s)
  | VList l => Ok (existsb (fun x => py_eq_str x sub) l)
  | VDict d => Ok (existsb (fun kv => String.eqb (fst kv) sub) d)
  | _ => Raise TypeError
  end.

Fixpoint all_strs (l : list pyval) : result (list string) :=
  match l with
  | [] => Ok []
  | VStr s :: l' => let* r := all_strs l' in Ok (s :: r)
  | _ :: _ => Raise TypeError
  end.

(** [sep.join(v)]: [v] must be an iterable of [str]. *)
Definition py_join (sep : string) (v : pyval) : result string :=
  let* l := py_iter v in
  let* ss := all_strs l in
  Ok (str_join sep ss).

(** [any(p(x) for x in l)]: stops at the first true element, so a later
    element that would raise is never looked at. *)
Fixpoint py_any (p : pyval -> result bool) (l : list pyval) : result bool :=
  match l with
  | [] => Ok false
  | x :: l' => let* b := p x in if b then Ok true else py_any p l'
  end.

(** [float(v)] as done implicitly by [v * w] for a float [w]. *)
Definition py_to_float (v : pyval) : result spec_float :=
  match v with
  | VFloat f => Ok f
  | VInt z =>
      match F64.of_Z z with
      | S754_infinity _ => Raise OverflowError
      | f => Ok f
      end
  | VBool b => Ok (F64.of_Z (if b then 1 else 0))
  | _ => Raise TypeError
  end.

(** [v * w] for a float [w]. *)
Definition py_mul_float (v : pyval) (w : spec_float) : result spec_float :=
  let* f := py_to_float v in Ok (F64.mul f w).

(** [min(a, b)] on floats: [b] only when [b < a]. *)
Definition py_min (a b : spec_float) : spec_float :=
  if F64.ltb b a then b else a.

(** [d.get(key, dflt)] *)
Definition py_get (d : gmap string pyval) (key : string) (dflt : pyval) : pyval :=
  default dflt (d !! key).

(** [d[key]] *)
Definition py_getitem {A : Type} (d : gmap string A) (key : string) : result A :=
  match d !! key with
  | Some v => Ok v
  | None => Raise KeyError
  end.

(** [sum] over a non-empty sequence of floats (the weight table is never
    empty; the sum of no items is the integer 0, rendered here as 0.0). The
    running total starts at the integer [0], so the first addition is
    [0.0 + x].  CPython up to 3.11 then adds from left to
    right; from 3.12 on it carries a Neumaier compensation term that is added
    at the end when it is non-zero and finite. *)
Inductive sum_impl : Type := LeftToRight | Compensated.

Fixpoint compensated_loop (items : list spec_float) (f_result c : spec_float)
  : spec_float :=
  match items with
  | [] =>
      if negb (F64.is_zero c) && F64.is_finite c then F64.add f_result c
      else f_result
  | x :: rest =>
      let t := F64.add f_result x in
      let c' :=
        if F64.leb (F64.abs x) (F64.abs f_result)
        then F64.add c (F64.add (F64.sub f_result t) x)
        else F64.add c (F64.add (F64.sub x t) f_result) in
      compensated_loop rest t c'
  end.

Definition py_sum (impl : sum_impl) (items : list spec_float) : spec_float :=
  match items with
  | [] => f0_0
  | x :: rest =>
      let first := F64.add (F64.of_Z 0) x in
      match impl with
      | LeftToRight => fold_left F64.add rest first
      | Compensated => compensated_loop rest first f0_0
      end
  end.

(** ** The scorer ([ComprehensiveScorer]) *)

(** [self.weights], in the insertion order of the dict literal (the order in
    which [weights.keys()] is iterated). *)
Definition weights : list (string * spec_float) :=
  [ ("popularity", f0_25);
    ("technical_innovation", f0_20);
    ("application_value", f0_10);
    ("readability", f0_15);
    ("experimental_thoroughness", f0_15);
    ("author_influence", f0_15) ].

(** [self.influential_orgs] and [self.top_conferences]. The source holds
    them in sets, whose iteration order is unspecified; they are listed here
    in the order of the set literals, and [org_loop_any] and
    [conference_loop_any] show that the loops over them do not depend on the
    order. *)
Definition influential_orgs : list string :=
  [ "google"; "microsoft"; "meta"; "openai"; "anthropic"; "deepmind";
    "stanford"; "mit"; "berkeley"; "cmu"; "harvard"; "oxford"; "cambridge";
    "nvidia"; "huggingface"; "salesforce"; "adobe"; "ibm"; "amazon";
    "tsinghua"; "peking"; "tencent"; "baidu"; "alibaba" ].

Definition top_conferences : list string :=
  [ "icml"; "neurips"; "iclr"; "aaai"; "ijcai"; "acl"; "emnlp"; "naacl";
    "cvpr"; "iccv"; "eccv"; "kdd"; "www"; "sigir"; "wsdm"; "icse"; "fse" ].

(** The loop [for conf in ...: if conf in abstract or conf in title:
    conference_score = 2; break], started with [conference_score = 0]. *)
Fixpoint conference_loop (confs : list string) (abstract title : string) : Z :=
  match confs with
  | [] => 0
  | conf :: rest =>
      if str_contains conf abstract || str_contains conf title then 2
      else conference_loop rest abstract title
  end.

(** The category test [any('cs.AI' in cat or 'cs.LG' in cat for cat in ...)]. *)
Definition prestigious_category (cat : pyval) : result bool :=
  let* a := py_contains_str "cs.AI" cat in
  if a then Ok true else py_contains_str "cs.LG" cat.

Definition _calculate_popularity_score (item : gmap string pyval)
  : result spec_float :=
  let source := py_get item "source" (VStr "unknown") in
  if py_eq_str source "github" then
    let stars := py_get item "stars" (VInt 0) in
    let* c := py_ge_int stars 10000 in
    if c then Ok f10_0 else
    let* c := py_ge_int stars 5000 in
    if c then Ok f9_0 else
    let* c := py_ge_int stars 1000 in
    if c then Ok f8_0 else
    let* c := py_ge_int stars 500 in
    if c then Ok f7_0 else
    let* c := py_ge_int stars 100 in
    if c then Ok f6_0 else
    let* c := py_ge_int stars 50 in
    if c then Ok f5_0 else
    let* c := py_ge_int stars 10 in
    if c then Ok f4_0 else Ok f3_0
  else if py_eq_str source "arxiv" then
    let* abstract := py_lower (py_get item "abstract" (VStr "")) in
    let* title := py_lower (py_get item "title" (VStr "")) in
    let conference_score := conference_loop top_conferences abstract title in
    let base_score := F64.add f5_0 (F64.of_Z conference_score) in
    let categories := py_get item "categories" (VList []) in
    let* cats := py_iter categories in
    let* prestigious := py_any prestigious_category cats in
    let base_score :=
      if prestigious then F64.add base_score (F64.of_Z 1) else base_score in
    Ok (py_min base_score f10_0)
  else Ok f5_0.

(** The loop [for org in ...: if org in author_text: score += 2; break]. *)
Fixpoint org_loop_text (orgs : list string) (author_text : string)
    (score : spec_float) : spec_float :=
  match orgs with
  | [] => score
  | org :: rest =>
      if str_contains org author_text then F64.add score (F64.of_Z 2)
      else org_loop_text rest author_text score
  end.

(** The loop [for org in ...: if org in url or org in description:
    score += 2; break]. *)
Fixpoint org_loop_repo (orgs : list string) (url description : string)
    (score : spec_float) : spec_float :=
  match orgs with
  | [] => score
  | org :: rest =>
      if str_contains org url || str_contains org description
      then F64.add score (F64.of_Z 2)
      else org_loop_repo rest url description score
  end.

Definition _calculate_author_influence_score (item : gmap string pyval)
  : result spec_float :=
  let source := py_get item "source" (VStr "unknown") in
  let score := f5_0 in
  if py_eq_str source "arxiv" then
    let authors := py_get item "authors" (VList []) in
    let* author_text :=
      (if py_truthy authors
       then let* joined := py_join " " authors in Ok (str_lower joined)
       else Ok "") in
    let score := org_loop_text influential_orgs author_text score in
    let* n := py_len authors in
    let score :=
      if 5 <=? n then F64.add score (F64.of_Z 1)
      else if 3 <=? n then F64.add score f0_5
      else score in
    Ok (py_min score f10_0)
  else if py_eq_str source "github" then
    let* url := py_lower (py_get item "url" (VStr "")) in
    let* description := py_lower (py_get item "description" (VStr "")) in
    let score := org_loop_repo influential_orgs url description score in
    let stars := py_get item "stars" (VInt 0) in
    let* c := py_ge_int stars 1000 in
    let score := if c then F64.add score (F64.of_Z 1) else score in
    Ok (py_min score f10_0)
  else Ok (py_min score f10_0).

(** The result dictionary of [calculate_comprehensive_score]. *)
Record ScoreResult : Type := {
  individual_scores : gmap string pyval;
  final_score : spec_float;
  score_breakdown : gmap string spec_float
}.

(** The terms [scores[key] * self.weights[key] for key in self.weights.keys()],
    evaluated in order. *)
Fixpoint weighted_terms (scores : gmap string pyval)
    (ws : list (string * spec_float)) : result (list (string * spec_float)) :=
  match ws with
  | [] => Ok []
  | (key, w) :: rest =>
      let* v := py_getitem scores key in
      let* t := py_mul_float v w in
      let* ts := weighted_terms scores rest in
      Ok ((key, t) :: ts)
  end.

Definition calculate_comprehensive_score (impl : sum_impl)
    (item : gmap string pyval) (llm_scores : gmap string pyval)
  : result ScoreResult :=
  let* popularity := _calculate_popularity_score item in
  let scores : gmap string pyval := <["popularity" := VFloat popularity]> ∅ in
  let scores :=
    <["technical_innovation" :=
        py_get llm_scores "technical_innovation" (VFloat f5_0)]> scores in
  let scores :=
    <["application_value" :=
        py_get llm_scores "application_value" (VFloat f5_0)]> scores in
  let scores :=
    <["readability" := py_get llm_scores "readability" (VFloat f5_0)]> scores in
  let scores :=
    <["experimental_thoroughness" :=
        py_get llm_scores "experimental_thoroughness" (VFloat f5_0)]> scores in
  let* author_influence := _calculate_author_influence_score item in
  let scores := <["author_influence" := VFloat author_influence]> scores in
  let* terms := weighted_terms scores weights in
  let final := py_sum impl (map snd terms) in
  Ok {| individual_scores := scores;
        final_score := F64.round_ndigits final 2;
        score_breakdown :=
          list_to_map (map (fun kt => (fst kt, F64.round_ndigits (snd kt) 2)) terms) |}.

(** ** The fallback bundle of the summarizer ([_create_fallback_summary]) *)

Definition fallback_scoring : gmap string pyval :=
  <["experimental_thoroughness" := VFloat f5_0]>
  (<["readability" := VFloat f5_0]>
  (<["application_value" := VFloat f5_0]>
  (<["technical_innovation" := VFloat f5_0]> ∅))).

(** [comprehensive_scores] of [_create_fallback_summary]. *)
Definition fallback_comprehensive_scores (impl : sum_impl)
    (item : gmap string pyval) : result ScoreResult :=
  calculate_comprehensive_score impl item fallback_scoring.

(** ** Items and bundles that respect the data model

    The data model gives a repository a numeric star count, gives every item
    textual title, abstract, description and URL, and gives a paper a list of
    author names and a list of category tags.  Each field may be absent. *)

Definition is_number (v : pyval) : bool :=
  match v with
  | VInt _ | VFloat _ | VBool _ => true
  | _ => false
  end.

Definition is_str (v : pyval) : bool :=
  match v with
  | VStr _ => true
  | _ => false
  end.

Definition is_str_list (v : pyval) : bool :=
  match v with
  | VList l => forallb is_str l
  | _ => false
  end.

Definition field_ok (p : pyval -> bool) (item : gmap string pyval)
    (key : string) : bool :=
  match item !! key with
  | Some v => p v
  | None => true
  end.

Definition well_typed_item (item : gmap string pyval) : bool :=
  field_ok is_number item "stars" &&
  field_ok is_str item "abstract" &&
  field_ok is_str item "title" &&
  field_ok is_str item "url" &&
  field_ok is_str item "description" &&
  field_ok is_str_list item "categories" &&
  field_ok is_str_list item "authors".

(** A bundle value the weighted sum can use: a float, a boolean, or an
    integer within the range of [float]. *)
Definition is_score_number (v : pyval) : bool :=
  match v with
  | VFloat _ | VBool _ => true
  | VInt z => F64.is_finite (F64.of_Z z)
  | _ => false
  end.

Definition subjective_keys : list string :=
  [ "technical_innovation"; "application_value"; "readability";
    "experimental_thoroughness" ].

Definition well_typed_bundle (llm_scores : gmap string pyval) : bool :=
  forallb (field_ok is_score_number llm_scores) subjective_keys.

(** ** Scores between 0 and 10 *)

(** [0.0 <= f <= 10.0] *)
Definition in_range (f : spec_float) : bool :=
  F64.leb f0_0 f && F64.leb f f10_0.

(** A dimension value in [0, 10]: a float (in canonical form, as every
    float object is), an integer or a boolean. *)
Definition score_in_range (v : pyval) : bool :=
  match v with
  | VFloat f => F64.valid f && in_range f
  | VInt z => (0 <=? z) && (z <=? 10)
  | VBool _ => true
  | _ => false
  end.

(** ** The tables of the specification *)

(** Repository popularity tiers, first matching threshold wins. *)
Definition popularity_tier (stars : Z) : spec_float :=
  if 10000 <=? stars then f10_0
  else if 5000 <=? stars then f9_0
  else if 1000 <=? stars then f8_0
  else if 500 <=? stars then f7_0
  else if 100 <=? stars then f6_0
  else if 50 <=? stars then f5_0
  else if 10 <=? stars then f4_0
  else f3_0.

Definition f5_5 : spec_float := F64.of_ratio false 55 10.
Definition f7_5 : spec_float := F64.of_ratio false 75 10.




(** Some fragment of [fragments] occurs in one of the [texts]. *)
Definition any_fragment (fragments texts : list string) : bool :=
  existsb (fun frag => existsb (str_contains frag) texts) fragments.



Definition popularity_values : list spec_float :=
  [f3_0; f4_0; f5_0; f6_0; f7_0; f8_0; f9_0; f10_0].

Definition influence_values : list spec_float :=
  [f5_0; f5_5; f6_0; f7_0; f7_5; f8_0].

(** ** The shape of a score result *)

(** The [scores] dictionary built by [calculate_comprehensive_score]. *)
Definition scores_dict (popularity : spec_float) (llm_scores : gmap string pyval)
    (author_influence : spec_float) : gmap string pyval :=
  <["author_influence" := VFloat author_influence]>
  (<["experimental_thoroughness" :=
       py_get llm_scores "experimental_thoroughness" (VFloat f5_0)]>
  (<["readability" := py_get llm_scores "readability" (VFloat f5_0)]>
  (<["application_value" := py_get llm_scores "application_value" (VFloat f5_0)]>
  (<["technical_innovation" :=
       py_get llm_scores "technical_innovation" (VFloat f5_0)]>
  (<["popularity" := VFloat popularity]> ∅))))).

(** The result assembled from the six weighted terms. *)
Definition result_of_terms (impl : sum_impl) (scores : gmap string pyval)
    (t_pop t_inn t_app t_read t_exp t_auth : spec_float) : ScoreResult :=
  {| individual_scores := scores;
     final_score :=
       F64.round_ndigits (py_sum impl [t_pop; t_inn; t_app; t_read; t_exp; t_auth]) 2;
     score_breakdown :=
       list_to_map
         [ ("popularity", F64.round_ndigits t_pop 2);
           ("technical_innovation", F64.round_ndigits t_inn 2);
           ("application_value", F64.round_ndigits t_app 2);
           ("readability", F64.round_ndigits t_read 2);
           ("experimental_thoroughness", F64.round_ndigits t_exp 2);
           ("author_influence", F64.round_ndigits t_auth 2) ] |}.

(** ** Example inputs *)

Definition repo_with_stars (stars : Z) : gmap string pyval :=
  <["stars" := VInt stars]> (<["source" := VStr "github"]> ∅).

Definition unknown_item : gmap string pyval :=
  <["title" := VStr "A blog post"]> (<["source" := VStr "blog"]> ∅).

Definition stanford_paper : gmap string pyval :=
  <["categories" := VList [VStr "cs.AI"; VStr "cs.SE"]]>
  (<["authors" := VList [VStr "Ann Lee (Stanford University)"; VStr "Bo Chen";
                        VStr "Cy Diaz"]]>
  (<["abstract" := VStr "We study program repair."]>
  (<["title" := VStr "Repairing Programs"]>
  (<["source" := VStr "arxiv"]> ∅)))).


Definition repo_with_textual_stars : gmap string pyval :=
  <["stars" := VStr "12k"]> (<["source" := VStr "github"]> ∅).

Definition paper_without_category_list : gmap string pyval :=
  <["categories" := VNone]> (<["source" := VStr "arxiv"]> ∅).

Definition paper_with_author_count : gmap string pyval :=
  <["authors" := VInt 3]> (<["source" := VStr "arxiv"]> ∅).


Definition f100_0 : spec_float := F64.of_Z 100.
Definition f20_0 : spec_float := F64.of_Z 20.
Definition f24_0 : spec_float := F64.of_Z 24.

Definition inflated_bundle : gmap string pyval :=
  <["technical_innovation" := VFloat f100_0]> ∅.

Definition vscode_repo : gmap string pyval :=
  <["description" := VStr "Visual Studio Code"]>
  (<["url" := VStr "https://github.com/microsoft/vscode"]>
  (<["stars" := VInt 160000]> (<["source" := VStr "github"]> ∅))).

Definition vscode_bundle : gmap string pyval :=
  <["experimental_thoroughness" := VInt 6]>
  (<["readability" := VFloat (F64.of_ratio false 85 10)]>
  (<["application_value" := VFloat (F64.of_ratio false 95 10)]>
  (<["technical_innovation" := VFloat f7_5]> ∅))).

(** The two items and bundles of [test_scoring_system.py]. *)
Definition test_arxiv_item : gmap string pyval :=
  <["url" := VStr "https://arxiv.org/abs/2024.01.001"]>
  (<["source" := VStr "arxiv"]>
  (<["categories" := VList [VStr "cs.AI"; VStr "cs.SE"]]>
  (<["authors" := VList [VStr "John Doe"; VStr "Jane Smith";
                        VStr "Alice Johnson"]]>
  (<["abstract" := VStr "This paper presents novel techniques for automated code generation using large language models, with applications in software engineering."]>
  (<["title" := VStr "Advanced Code Generation with Large Language Models"]>
  (<["id" := VStr "2024.01.001"]> ∅)))))).

Definition test_arxiv_scores : gmap string pyval :=
  <["experimental_thoroughness" := VFloat f8_0]>
  (<["readability" := VFloat f9_0]>
  (<["application_value" := VFloat f7_0]>
  (<["technical_innovation" := VFloat (F64.of_ratio false 85 10)]> ∅))).

Definition test_github_item : gmap string pyval :=
  <["url" := VStr "https://github.com/microsoft/vscode"]>
  (<["source" := VStr "github"]>
  (<["language" := VStr "TypeScript"]>
  (<["stars" := VInt 160000]>
  (<["description" := VStr "Visual Studio Code is a lightweight but powerful source code editor which runs on your desktop."]>
  (<["title" := VStr "Visual Studio Code"]>
  (<["id" := VStr "microsoft/vscode"]> ∅)))))).

Definition test_github_scores : gmap string pyval :=
  <["experimental_thoroughness" := VFloat f6_0]>
  (<["readability" := VFloat (F64.of_ratio false 85 10)]>
  (<["application_value" := VFloat (F64.of_ratio false 95 10)]>
  (<["technical_innovation" := VFloat f7_5]> ∅))).

(** ** Values of floats as integers

    The definitions used to state the rounding error of the operations of
    [SpecFloat]. *)

(** What a shift record says about the bits shifted out: [rem] out of [2^k]. *)
Definition shr_inv (m : Z) (k : Z) (mrs : shr_record) : Prop :=
  exists rem,
    0 <= shr_m mrs /\ m = shr_m mrs * 2 ^ k + rem /\ 0 <= rem < 2 ^ k /\
    match shr_r mrs, shr_s mrs with
    | false, false => rem = 0
    | false, true => 0 < 2 * rem < 2 ^ k
    | true, false => 2 * rem = 2 ^ k
    | true, true => 2 ^ k < 2 * rem
    end.

Section FloatValues.
Variables prec emax : Z.

(** The last step of [binary_round_aux]: the float with mantissa [M] and
    exponent [E]. *)
Definition mk_float (sx : bool) (M E : Z) : spec_float :=
  match M with
  | Z0 => S754_zero sx
  | Z.pos p => if E <=? emax - prec then S754_finite sx p E else S754_infinity sx
  | Z.neg _ => S754_nan
  end.

(** Every finite float with exponent at least [emin], and every product of
    two of them, is an integer multiple of [2 ^ base]. *)
Definition base : Z := 2 * SpecFloat.emin prec emax.

(** The value of a float counted in units of [2 ^ base]. *)
Definition ival (x : spec_float) : Z :=
  match x with
  | S754_finite s m e => cond_Zopp s (Z.pos m) * 2 ^ (e - base)
  | _ => 0
  end.

(** A zero or a finite float in canonical form. *)
Definition good (x : spec_float) : bool :=
  match x with
  | S754_zero _ => true
  | S754_finite _ m e => bounded prec emax m e
  | _ => false
  end.

End FloatValues.

(** ** Binary64 instances

    Values are counted in units of [2 ^ -2148]; [G64] is the value
    [2 ^ -56] in these units, so that 1.0 is [2 ^ 56 * G64] and the four
    weights are integer multiples of [G64]. *)

Definition G64 : Z := 2 ^ 2092.

Definition I64 : spec_float -> Z := ival F64.prec F64.emax.

Definition good64 : spec_float -> bool := good F64.prec F64.emax.

(** 1.0 in units of [2 ^ -2148]. *)
Definition one64 : Z := 72057594037927936 * G64.

(** The largest rounding error of an operation whose exact result is below
    32: half a unit in the last place, [2 ^ -49]. *)
Definition err64 : Z := 128 * G64.

(** The exact sum of the values of a list of floats. *)
Definition sumI (items : list spec_float) : Z :=
  fold_right (fun x acc => I64 x + acc) 0 items.

(** A canonical finite term of magnitude at most 4. *)
Definition term_ok (x : spec_float) : Prop :=
  good64 x = true /\ - (4 * one64) <= I64 x <= 4 * one64.

(** Every float nearest to [n / 100], for [n] from 1 to 1000, is in range. *)
Definition ratio_table_check : bool :=
  forallb (fun n => in_range (F64.of_ratio false (Pos.of_nat n) 100))
          (seq 1 1000).

(** * The helpers of the summarizer and further notions *)

(** ** The keyword fallbacks of the summarizer ([gpt_summarizer.py]) *)

(** [patterns] of [_classify_by_keywords], in the insertion order of the
    dict literal. *)
Definition patterns : list (string * list string) :=
  [ ("code_generation",
     ["code generation"; "code synthesis"; "program generation";
      "automatic programming"]);
    ("code_evaluation",
     ["code evaluation"; "code assessment"; "code quality"; "code metrics";
      "code analysis"]);
    ("code_verification",
     ["code verification"; "formal verification"; "program verification";
      "correctness"]);
    ("program_synthesis",
     ["program synthesis"; "synthesis"; "automated synthesis"]);
    ("coding_agent",
     ["coding agent"; "programming agent"; "software agent"; "ai agent";
      "autonomous"]);
    ("llm_coding",
     ["llm"; "large language model"; "language model"; "gpt"; "transformer";
      "neural"]);
    ("automated_testing",
     ["test generation"; "automated testing"; "unit test"; "test case"]);
    ("software_reasoning",
     ["reasoning"; "logic"; "inference"; "proof"; "symbolic"]);
    ("code_repair",
     ["code repair"; "bug fix"; "program repair"; "debugging";
      "error correction"]);
    ("neural_search",
     ["code search"; "semantic search"; "code retrieval"; "neural search"]);
    ("benchmark",
     ["benchmark"; "evaluation"; "dataset"; "corpus"; "leaderboard"]);
    ("survey", ["survey"; "review"; "analysis"; "study"; "empirical"]);
    ("tool",
     ["tool"; "framework"; "library"; "system"; "platform"; "implementation"]) ].

(** [f"{title} {description}".lower()] for two strings. *)
Definition keyword_text (title description : string) : string :=
  str_lower (title ++ " " ++ description).

(** [any(keyword in text for keyword in keywords)] *)
Definition any_keyword (keywords : list string) (text : string) : bool :=
  existsb (fun keyword => str_contains keyword text) keywords.

(** The loop [for category, keywords in patterns.items(): if any(...):
    matched_categories.append(category)]. *)
Fixpoint classify_loop (pats : list (string * list string)) (text : string)
    (matched_categories : list string) : list string :=
  match pats with
  | [] => matched_categories
  | (category, keywords) :: rest =>
      classify_loop rest text
        (if any_keyword keywords text
         then matched_categories ++ [category]
         else matched_categories)
  end.

(** [_classify_by_keywords], on a title and a description that are strings
    as its signature says: the first two matching categories in the order of
    the table, or [other]. *)
Definition _classify_by_keywords (title description : string) : list string :=
  let text := keyword_text title description in
  let matched_categories := classify_loop patterns text [] in
  match matched_categories with
  | [] => ["other"]
  | _ => firstn 2 matched_categories
  end.


Definition high_relevance : list string :=
  [ "code generation"; "llm"; "programming"; "software engineering";
    "automated"; "ai coding" ].

Definition medium_relevance : list string :=
  [ "machine learning"; "neural"; "algorithm"; "development";
    "programming language" ].

(** [sum(1 for keyword in keywords if keyword in text)] *)
Fixpoint count_keywords (keywords : list string) (text : string) : Z :=
  match keywords with
  | [] => 0
  | keyword :: rest =>
      (if str_contains keyword text then 1 else 0) + count_keywords rest text
  end.

(** [_estimate_relevance], on a title and a description that are strings. *)
Definition _estimate_relevance (title description : string) : Z :=
  let text := keyword_text title description in
  let high_score := count_keywords high_relevance text in
  let medium_score := count_keywords medium_relevance text in
  if 2 <=? high_score then 8
  else if 1 <=? high_score then 7
  else if 2 <=? medium_score then 6
  else if 1 <=? medium_score then 5
  else 4.

(** ** Cleaning the reply of the language model ([_clean_json_response]) *)

(** The ASCII characters matched by [\s].  The pattern also matches the
    spaces outside ASCII (U+0085, U+00A0, U+1680, U+2000 to U+200A, U+2028,
    U+2029, U+202F, U+205F, U+3000), which are ordinary characters here:
    the properties of the cleaning take their whitespace from ASCII. *)
Definition is_space (c : ascii) : bool :=
  let n := N_of_ascii c in
  (((9 <=? n) && (n <=? 13)) || ((28 <=? n) && (n <=? 32)))%N.

Fixpoint skip_spaces (s : string) : string :=
  match s with
  | String c s' => if is_space c then skip_spaces s' else s
  | EmptyString => s
  end.

Fixpoint all_spaces (s : string) : bool :=
  match s with
  | String c s' => is_space c && all_spaces s'
  | EmptyString => true
  end.

(** [s[n:]] *)
Fixpoint str_drop (n : nat) (s : string) : string :=
  match n, s with
  | S k, String _ s' => str_drop k s'
  | _, _ => s
  end.

(** [s[:n]] *)
Fixpoint str_take (n : nat) (s : string) : string :=
  match n, s with
  | S k, String c s' => String c (str_take k s')
  | _, _ => EmptyString
  end.

Definition json_fence : string := "```json".
Definition fence : string := "```".

(** [re.sub(r'```json\s*', '', s)]: from left to right, every opening fence
    is removed together with the whitespace after it. Each step consumes a
    character, so [fuel] equal to the length of [s] is enough. *)
Fixpoint sub_json_fence (fuel : nat) (s : string) : string :=
  match fuel with
  | O => s
  | S fuel' =>
      if String.prefix json_fence s
      then sub_json_fence fuel' (skip_spaces (str_drop 7 s))
      else match s with
           | EmptyString => EmptyString
           | String c s' => String c (sub_json_fence fuel' s')
           end
  end.

(** [re.sub(r'```\s*$', '', s)]: the leftmost fence that is followed by
    whitespace only, up to the end of the string, is removed with it. *)
Fixpoint sub_closing_fence (s : string) : string :=
  match s with
  | EmptyString => EmptyString
  | String c s' =>
      if String.prefix fence s && all_spaces (str_drop 3 s) then EmptyString
      else String c (sub_closing_fence s')
  end.

(** [s.find(c)]: the first index of [c], or -1. *)
Fixpoint str_find (c : ascii) (s : string) : Z :=
  match s with
  | EmptyString => -1
  | String d s' =>
      if Ascii.eqb d c then 0
      else let i := str_find c s' in if i =? -1 then -1 else i + 1
  end.

(** [s.rfind(c)]: the last index of [c], or -1. *)
Fixpoint str_rfind (c : ascii) (s : string) : Z :=
  match s with
  | EmptyString => -1
  | String d s' =>
      let i := str_rfind c s' in
      if i =? -1 then (if Ascii.eqb d c then 0 else -1) else i + 1
  end.

(** [_clean_json_response]: both substitutions, then the slice from the
    first opening brace to the last closing brace when there is one after
    the other. *)
Definition _clean_json_response (content : string) : string :=
  let content := sub_json_fence (String.length content) content in
  let content := sub_closing_fence content in
  let start := str_find "{" content in
  let end_ := str_rfind "}" content + 1 in
  if negb (start =? -1) && (start <? end_)
  then str_take (Z.to_nat (end_ - start)) (str_drop (Z.to_nat start) content)
  else content.


(** ** Items that agree on some fields *)

Definition agree_on (keys : list string) (d d' : gmap string pyval) : Prop :=
  forall key, In key keys -> d !! key = d' !! key.

(** The exception raised by the first of the subjective values, in the order
    of the weight table, that [float] cannot convert. *)
Fixpoint first_conversion_error (keys : list string)
    (llm_scores : gmap string pyval) : option pyexc :=
  match keys with
  | [] => None
  | key :: rest =>
      match py_to_float (py_get llm_scores key (VFloat f5_0)) with
      | Raise e => Some e
      | Ok _ => first_conversion_error rest llm_scores
      end
  end.

(** ** Bounds on scores *)

Definition f1_5 : spec_float := F64.of_ratio false 15 10.
Definition f9_7 : spec_float := F64.of_ratio false 97 10.
Definition f4_5 : spec_float := F64.of_ratio false 45 10.
Definition f6_7 : spec_float := F64.of_ratio false 67 10.

(** [lo <= f <= hi] *)
Definition between (lo hi f : spec_float) : bool :=
  F64.leb lo f && F64.leb f hi.

(** Every float nearest to [n / 100], for [n] from [first] on and [len]
    values, lies between [lo] and [hi]. *)
Definition ratio_range_check (lo hi : spec_float) (first len : nat) : bool :=
  forallb (fun n => between lo hi (F64.of_ratio false (Pos.of_nat n) 100))
          (seq first len).

(** The final score of the fallback bundle for the popularity [p] and the
    author influence [a]. *)
Definition fallback_final (impl : sum_impl) (p a : spec_float) : spec_float :=
  F64.round_ndigits
    (py_sum impl [F64.mul p f0_25; F64.mul f5_0 f0_20; F64.mul f5_0 f0_10;
                  F64.mul f5_0 f0_15; F64.mul f5_0 f0_15; F64.mul a f0_15]) 2.

Definition fallback_range_check : bool :=
  forallb (fun impl =>
    forallb (fun p =>
      forallb (fun a => between f4_5 f6_7 (fallback_final impl p a))
              influence_values)
            popularity_values)
          [LeftToRight; Compensated].

(** Structural equality of floats. *)
Definition spec_float_beq (x y : spec_float) : bool :=
  match x, y with
  | S754_zero s, S754_zero s' => Bool.eqb s s'
  | S754_infinity s, S754_infinity s' => Bool.eqb s s'
  | S754_nan, S754_nan => true
  | S754_finite s m e, S754_finite s' m' e' =>
      Bool.eqb s s' && Pos.eqb m m' && Z.eqb e e'
  | _, _ => false
  end.

(** Both summation algorithms give the same fallback score. *)
Definition fallback_agree_check : bool :=
  forallb (fun p =>
    forallb (fun a => spec_float_beq (fallback_final LeftToRight p a)
                                     (fallback_final Compensated p a))
            influence_values)
          popularity_values.

(** A paper with the given author names. *)
Definition with_authors (authors : list string) (item : gmap string pyval)
  : gmap string pyval :=
  <["authors" := VList (map VStr authors)]> item.

(** * Properties *)

(** ** The model on known values

    The float literals have the bit patterns of the corresponding Python
    floats, [round] follows the exact binary value ([round(2.675, 2)] is
    [2.67], [round(0.125, 2)] is [0.12]), and the two calls of
    [test_scoring_system.py] give 7.58 and 8.32. *)

Example float_literals :
  f0_25 = S754_finite false 4503599627370496 (-54) /\
  f0_20 = S754_finite false 7205759403792794 (-55) /\
  f0_10 = S754_finite false 7205759403792794 (-56) /\
  f0_15 = S754_finite false 5404319552844595 (-55) /\
  f5_0 = S754_finite false 5629499534213120 (-50) /\
  f10_0 = S754_finite false 5629499534213120 (-49).
Proof. repeat split; reflexivity. Qed.

Example round_follows_binary_value :
  F64.round_ndigits (F64.of_ratio false 2675 1000) 2 = F64.of_ratio false 267 100 /\
  F64.round_ndigits (F64.of_ratio false 125 1000) 2 = F64.of_ratio false 12 100 /\
  F64.round_ndigits (F64.of_ratio false 8325 1000) 2 = F64.of_ratio false 832 100 /\
  F64.round_ndigits (F64.of_ratio true 1 1000) 2 = S754_zero true.
Proof. repeat split; vm_compute; reflexivity. Qed.

Example test_scoring_system_arxiv (impl : sum_impl) :
  exists r,
    calculate_comprehensive_score impl test_arxiv_item test_arxiv_scores = Ok r /\
    individual_scores r !! "popularity" = Some (VFloat f6_0) /\
    individual_scores r !! "author_influence" = Some (VFloat f7_5) /\
    final_score r = F64.of_ratio false 758 100.
Proof.
  assert (Hp : _calculate_popularity_score test_arxiv_item = Ok f6_0)
    by (vm_compute; reflexivity).
  assert (Ha : _calculate_author_influence_score test_arxiv_item = Ok f7_5)
    by (vm_compute; reflexivity).
  unfold calculate_comprehensive_score. rewrite Hp, Ha.
  eexists. split; [reflexivity|].
  split; [reflexivity|]. split; [reflexivity|].
  destruct impl; vm_compute; reflexivity.
Qed.

Example test_scoring_system_github (impl : sum_impl) :
  exists r,
    calculate_comprehensive_score impl test_github_item test_github_scores
      = Ok r /\
    individual_scores r !! "popularity" = Some (VFloat f10_0) /\
    individual_scores r !! "author_influence" = Some (VFloat f8_0) /\
    final_score r = F64.of_ratio false 832 100 /\
    score_breakdown r !! "readability" = Some (F64.of_ratio false 127 100).
Proof.
  assert (Hp : _calculate_popularity_score test_github_item = Ok f10_0)
    by (vm_compute; reflexivity).
  assert (Ha : _calculate_author_influence_score test_github_item = Ok f8_0)
    by (vm_compute; reflexivity).
  unfold calculate_comprehensive_score. rewrite Hp, Ha.
  eexists. split; [reflexivity|].
  split; [reflexivity|]. split; [reflexivity|].
  split; destruct impl; vm_compute; reflexivity.
Qed.

(** ** Basic facts about the loops *)

Lemma conference_loop_any confs abstract title :
  conference_loop confs abstract title =
  if any_fragment confs [abstract; title] then 2 else 0.
Proof.
  induction confs as [|conf rest IH]; simpl; [reflexivity|].
  rewrite orb_false_r.
  destruct (str_contains conf abstract || str_contains conf title); simpl; auto.
Qed.

Lemma org_loop_text_any orgs text score :
  org_loop_text orgs text score =
  if any_fragment orgs [text] then F64.add score (F64.of_Z 2) else score.
Proof.
  induction orgs as [|org rest IH]; simpl; [reflexivity|].
  rewrite orb_false_r.
  destruct (str_contains org text); simpl; auto.
Qed.

Lemma org_loop_repo_any orgs url description score :
  org_loop_repo orgs url description score =
  if any_fragment orgs [url; description]
  then F64.add score (F64.of_Z 2) else score.
Proof.
  induction orgs as [|org rest IH]; simpl; [reflexivity|].
  rewrite orb_false_r.
  destruct (str_contains org url || str_contains org description); simpl; auto.
Qed.

(** The loops break at the first match and only record that there was one,
    so the order in which a set is iterated does not matter. *)
Lemma any_fragment_perm fragments fragments' texts :
  Permutation fragments fragments' ->
  any_fragment fragments texts = any_fragment fragments' texts.
Proof.
  unfold any_fragment.
  induction 1 as [|x l l' _ IH|x y l|l l' l'' _ IH1 _ IH2]; simpl.
  - reflexivity.
  - now rewrite IH.
  - rewrite !orb_assoc. f_equal. apply orb_comm.
  - congruence.
Qed.

Lemma conference_loop_perm confs confs' abstract title :
  Permutation confs confs' ->
  conference_loop confs abstract title = conference_loop confs' abstract title.
Proof.
  intros Hp. rewrite !conference_loop_any.
  now rewrite (any_fragment_perm _ _ _ Hp).
Qed.

Lemma org_loop_text_perm orgs orgs' text score :
  Permutation orgs orgs' ->
  org_loop_text orgs text score = org_loop_text orgs' text score.
Proof.
  intros Hp. rewrite !org_loop_text_any.
  now rewrite (any_fragment_perm _ _ _ Hp).
Qed.

Lemma org_loop_repo_perm orgs orgs' url description score :
  Permutation orgs orgs' ->
  org_loop_repo orgs url description score =
  org_loop_repo orgs' url description score.
Proof.
  intros Hp. rewrite !org_loop_repo_any.
  now rewrite (any_fragment_perm _ _ _ Hp).
Qed.

Lemma all_strs_map (names : list string) :
  all_strs (map VStr names) = Ok names.
Proof.
  induction names as [|n rest IH]; simpl; [reflexivity|].
  now rewrite IH.
Qed.

Lemma py_any_categories (cats : list string) :
  py_any prestigious_category (map VStr cats) =
  Ok (existsb (fun c => str_contains "cs.AI" c || str_contains "cs.LG" c) cats).
Proof.
  induction cats as [|c rest IH]; [reflexivity|].
  cbn [map py_any existsb]. unfold prestigious_category at 1.
  cbn [py_contains_str bind].
  destruct (str_contains "cs.AI" c); cbn [orb]; [reflexivity|].
  cbn [bind]. destruct (str_contains "cs.LG" c); [reflexivity|].
  exact IH.
Qed.

(** ** Popularity of a repository *)

Lemma popularity_github (item : gmap string pyval) (stars : Z) :
  py_get item "source" (VStr "unknown") = VStr "github" ->
  py_get item "stars" (VInt 0) = VInt stars ->
  _calculate_popularity_score item = Ok (popularity_tier stars).
Proof.
  intros Hsrc Hstars.
  unfold _calculate_popularity_score, popularity_tier.
  rewrite Hsrc, Hstars. cbn [py_eq_str py_ge_int bind].
  change (String.eqb "github" "github") with true. cbv iota.
  repeat (match goal with |- context [?c <=? stars] => destruct (c <=? stars) end;
          cbv iota; try reflexivity).
Qed.

(** C2: for an item of repository kind whose star count is the integer
    [stars], the popularity sub-score follows the tier table with inclusive
    lower bounds, the first matching threshold winning; a star count exactly
    at a threshold gets the higher tier. *)
Theorem C2_repository_popularity_tiers (item : gmap string pyval) (stars : Z) :
  py_get item "source" (VStr "unknown") = VStr "github" ->
  py_get item "stars" (VInt 0) = VInt stars ->
  (10000 <= stars -> _calculate_popularity_score item = Ok f10_0) /\
  (5000 <= stars < 10000 -> _calculate_popularity_score item = Ok f9_0) /\
  (1000 <= stars < 5000 -> _calculate_popularity_score item = Ok f8_0) /\
  (500 <= stars < 1000 -> _calculate_popularity_score item = Ok f7_0) /\
  (100 <= stars < 500 -> _calculate_popularity_score item = Ok f6_0) /\
  (50 <= stars < 100 -> _calculate_popularity_score item = Ok f5_0) /\
  (10 <= stars < 50 -> _calculate_popularity_score item = Ok f4_0) /\
  (stars < 10 -> _calculate_popularity_score item = Ok f3_0) /\
  (In stars [10; 50; 100; 500; 1000; 5000; 10000] ->
   _calculate_popularity_score item = Ok (popularity_tier stars) /\
   _calculate_popularity_score item <> Ok (popularity_tier (stars - 1))).
Proof.
  intros Hsrc Hstars.
  rewrite (popularity_github item stars Hsrc Hstars).
  unfold popularity_tier.
  repeat split; try (intros H;
    repeat match goal with
           | |- context [?c <=? stars] =>
               destruct (Z.leb_spec c stars); try lia
           end; reflexivity).
  simpl in H.
  intros Heq.
  repeat (destruct H as [H|H]; [subst stars; vm_compute in Heq; discriminate Heq|]).
  destruct H.
Qed.

Lemma C2_repository_popularity_tiers_witness :
  _calculate_popularity_score (repo_with_stars 1000) = Ok f8_0.
Proof.
  destruct (C2_repository_popularity_tiers (repo_with_stars 1000) 1000
              eq_refl eq_refl) as (_ & _ & H & _).
  apply H. lia.
Defined.

(** ** The shape of a score result *)

Lemma scores_dict_popularity p llm_scores a :
  scores_dict p llm_scores a !! "popularity" = Some (VFloat p).
Proof. reflexivity. Qed.

Lemma scores_dict_author_influence p llm_scores a :
  scores_dict p llm_scores a !! "author_influence" = Some (VFloat a).
Proof. reflexivity. Qed.

Lemma scores_dict_subjective p llm_scores a key :
  In key subjective_keys ->
  scores_dict p llm_scores a !! key = Some (py_get llm_scores key (VFloat f5_0)).
Proof.
  intros Hin. simpl in Hin.
  repeat (destruct Hin as [<-|Hin]; [reflexivity|]).
  destruct Hin.
Qed.

(** [calculate_comprehensive_score] with its dictionary look-ups resolved:
    the two metadata sub-scores are computed first, then the four bundle
    values are multiplied by their weights in the order of the weight table. *)
Lemma calculate_comprehensive_score_unfold impl item llm_scores :
  calculate_comprehensive_score impl item llm_scores =
  let* p := _calculate_popularity_score item in
  let* a := _calculate_author_influence_score item in
  let* t_inn :=
    py_mul_float (py_get llm_scores "technical_innovation" (VFloat f5_0)) f0_20 in
  let* t_app :=
    py_mul_float (py_get llm_scores "application_value" (VFloat f5_0)) f0_10 in
  let* t_read :=
    py_mul_float (py_get llm_scores "readability" (VFloat f5_0)) f0_15 in
  let* t_exp :=
    py_mul_float (py_get llm_scores "experimental_thoroughness" (VFloat f5_0))
      f0_15 in
  Ok (result_of_terms impl (scores_dict p llm_scores a)
        (F64.mul p f0_25) t_inn t_app t_read t_exp (F64.mul a f0_15)).
Proof.
  unfold calculate_comprehensive_score.
  destruct (_calculate_popularity_score item) as [p|e]; [|reflexivity].
  cbn [bind].
  destruct (_calculate_author_influence_score item) as [a|e]; [|reflexivity].
  cbn [bind]. unfold weights. cbn [weighted_terms].
  fold (scores_dict p llm_scores a).
  unfold py_getitem.
  rewrite scores_dict_popularity, scores_dict_author_influence.
  rewrite !scores_dict_subjective by (simpl; tauto).
  cbn [bind py_mul_float py_to_float].
  destruct (py_mul_float (py_get llm_scores "technical_innovation" (VFloat f5_0))
              f0_20) as [t1|e]; [|reflexivity].
  cbn [bind].
  destruct (py_mul_float (py_get llm_scores "application_value" (VFloat f5_0))
              f0_10) as [t2|e]; [|reflexivity].
  cbn [bind].
  destruct (py_mul_float (py_get llm_scores "readability" (VFloat f5_0))
              f0_15) as [t3|e]; [|reflexivity].
  cbn [bind].
  destruct (py_mul_float
              (py_get llm_scores "experimental_thoroughness" (VFloat f5_0))
              f0_15) as [t4|e]; [|reflexivity].
  reflexivity.
Qed.

(** Inversion: a returned result has this shape. *)
Lemma calculate_comprehensive_score_inv impl item llm_scores r :
  calculate_comprehensive_score impl item llm_scores = Ok r ->
  exists p a t_inn t_app t_read t_exp,
    _calculate_popularity_score item = Ok p /\
    _calculate_author_influence_score item = Ok a /\
    py_mul_float (py_get llm_scores "technical_innovation" (VFloat f5_0)) f0_20
      = Ok t_inn /\
    py_mul_float (py_get llm_scores "application_value" (VFloat f5_0)) f0_10
      = Ok t_app /\
    py_mul_float (py_get llm_scores "readability" (VFloat f5_0)) f0_15
      = Ok t_read /\
    py_mul_float (py_get llm_scores "experimental_thoroughness" (VFloat f5_0))
      f0_15 = Ok t_exp /\
    r = result_of_terms impl (scores_dict p llm_scores a)
          (F64.mul p f0_25) t_inn t_app t_read t_exp (F64.mul a f0_15).
Proof.
  rewrite calculate_comprehensive_score_unfold.
  destruct (_calculate_popularity_score item) as [p|e]; [|discriminate].
  destruct (_calculate_author_influence_score item) as [a|e]; [|discriminate].
  cbn [bind].
  destruct (py_mul_float _ f0_20) as [t1|e]; [|discriminate].
  destruct (py_mul_float _ f0_10) as [t2|e]; [|discriminate].
  cbn [bind].
  destruct (py_mul_float (py_get llm_scores "readability" _) _) as [t3|e];
    [|discriminate].
  destruct (py_mul_float (py_get llm_scores "experimental_thoroughness" _) _)
    as [t4|e]; [|discriminate].
  cbn [bind]. intros [= <-].
  exists p, a, t1, t2, t3, t4. repeat split; reflexivity.
Qed.

(** ** The sub-scorers return on items that respect the data model *)

Lemma py_get_field_ok (p : pyval -> bool) item key dflt :
  field_ok p item key = true -> p dflt = true ->
  p (py_get item key dflt) = true.
Proof.
  unfold field_ok, py_get. destruct (item !! key); simpl; auto.
Qed.

Lemma well_typed_item_fields item :
  well_typed_item item = true ->
  is_number (py_get item "stars" (VInt 0)) = true /\
  is_str (py_get item "abstract" (VStr "")) = true /\
  is_str (py_get item "title" (VStr "")) = true /\
  is_str (py_get item "url" (VStr "")) = true /\
  is_str (py_get item "description" (VStr "")) = true /\
  is_str_list (py_get item "categories" (VList [])) = true /\
  is_str_list (py_get item "authors" (VList [])) = true.
Proof.
  unfold well_typed_item. rewrite !andb_true_iff.
  intros [[[[[[H1 H2] H3] H4] H5] H6] H7].
  repeat split; apply py_get_field_ok; auto.
Qed.

Lemma is_str_list_inv v :
  is_str_list v = true -> exists names, v = VList (map VStr names).
Proof.
  destruct v as [| | | | |l|]; try discriminate. simpl.
  induction l as [|x l IH]; intros H.
  - now exists [].
  - simpl in H. apply andb_true_iff in H as [Hx Hl].
    destruct (IH Hl) as [names Hn]. destruct x; try discriminate.
    exists (s :: names). simpl. congruence.
Qed.

Lemma is_str_inv v : is_str v = true -> exists s, v = VStr s.
Proof. destruct v; try discriminate. eauto. Qed.

Ltac split_ifs :=
  repeat match goal with
         | |- context [if ?c then _ else _] => destruct c
         end.

Lemma popularity_well_typed item :
  well_typed_item item = true ->
  exists p, _calculate_popularity_score item = Ok p /\ In p popularity_values.
Proof.
  intros Hwt.
  destruct (well_typed_item_fields item Hwt) as (Hst & Hab & Hti & _ & _ & Hca & _).
  unfold _calculate_popularity_score.
  destruct (py_eq_str (py_get item "source" (VStr "unknown")) "github").
  - destruct (py_get item "stars" (VInt 0)); try discriminate Hst;
      cbn [py_ge_int bind]; split_ifs;
      (eexists; split; [reflexivity | simpl; tauto]).
  - destruct (py_eq_str (py_get item "source" (VStr "unknown")) "arxiv").
    + destruct (is_str_inv _ Hab) as [ab ->].
      destruct (is_str_inv _ Hti) as [ti ->].
      destruct (is_str_list_inv _ Hca) as [cats ->].
      cbn [py_lower bind py_iter]. rewrite py_any_categories. cbn [bind].
      rewrite conference_loop_any.
      split_ifs; (eexists; split; [reflexivity | vm_compute; tauto]).
    + eexists; split; [reflexivity | simpl; tauto].
Qed.

Lemma influence_well_typed item :
  well_typed_item item = true ->
  exists a, _calculate_author_influence_score item = Ok a /\
            In a influence_values.
Proof.
  intros Hwt.
  destruct (well_typed_item_fields item Hwt) as (Hst & _ & _ & Hur & Hde & _ & Hau).
  unfold _calculate_author_influence_score.
  destruct (py_eq_str (py_get item "source" (VStr "unknown")) "arxiv").
  - destruct (is_str_list_inv _ Hau) as [names ->].
    assert (Htext : exists text,
      (if py_truthy (VList (map VStr names))
       then let* joined := py_join " " (VList (map VStr names)) in
            Ok (str_lower joined)
       else Ok "") = Ok text).
    { destruct (py_truthy _); [|eauto].
      unfold py_join. cbn [py_iter bind]. rewrite all_strs_map. cbn [bind]. eauto. }
    destruct Htext as [text ->]. cbn [bind py_len].
    rewrite org_loop_text_any.
    split_ifs; (eexists; split; [reflexivity | vm_compute; tauto]).
  - destruct (py_eq_str (py_get item "source" (VStr "unknown")) "github").
    + destruct (is_str_inv _ Hur) as [url ->].
      destruct (is_str_inv _ Hde) as [de ->].
      cbn [py_lower bind]. rewrite org_loop_repo_any.
      destruct (py_get item "stars" (VInt 0)); try discriminate Hst;
        cbn [py_ge_int bind]; split_ifs;
        (eexists; split; [reflexivity | vm_compute; tauto]).
    + eexists; split; [reflexivity | vm_compute; tauto].
Qed.

Lemma py_to_float_score_number v :
  is_score_number v = true -> exists f, py_to_float v = Ok f.
Proof.
  destruct v; try discriminate; simpl; eauto.
  destruct (F64.of_Z z); try discriminate; eauto.
Qed.

Lemma py_mul_float_score_number v w :
  is_score_number v = true -> exists t, py_mul_float v w = Ok t.
Proof.
  intros H. destruct (py_to_float_score_number v H) as [f Hf].
  unfold py_mul_float. rewrite Hf. simpl. eauto.
Qed.

Lemma well_typed_bundle_fields llm_scores key :
  well_typed_bundle llm_scores = true -> In key subjective_keys ->
  is_score_number (py_get llm_scores key (VFloat f5_0)) = true.
Proof.
  unfold well_typed_bundle. rewrite forallb_forall. intros H Hin.
  apply py_get_field_ok; auto.
Qed.

(** On an item and a bundle that respect the data model the scorer returns. *)
Lemma calculate_comprehensive_score_returns impl item llm_scores :
  well_typed_item item = true -> well_typed_bundle llm_scores = true ->
  exists p a t_inn t_app t_read t_exp,
    In p popularity_values /\ In a influence_values /\
    _calculate_popularity_score item = Ok p /\
    _calculate_author_influence_score item = Ok a /\
    calculate_comprehensive_score impl item llm_scores =
      Ok (result_of_terms impl (scores_dict p llm_scores a)
            (F64.mul p f0_25) t_inn t_app t_read t_exp (F64.mul a f0_15)).
Proof.
  intros Hi Hb.
  destruct (popularity_well_typed item Hi) as (p & Hp & Hpin).
  destruct (influence_well_typed item Hi) as (a & Ha & Hain).
  rewrite calculate_comprehensive_score_unfold, Hp, Ha. cbn [bind].
  destruct (py_mul_float_score_number _ f0_20
    (well_typed_bundle_fields llm_scores "technical_innovation" Hb
       ltac:(simpl; tauto))) as [t1 ->].
  destruct (py_mul_float_score_number _ f0_10
    (well_typed_bundle_fields llm_scores "application_value" Hb
       ltac:(simpl; tauto))) as [t2 ->].
  destruct (py_mul_float_score_number _ f0_15
    (well_typed_bundle_fields llm_scores "readability" Hb
       ltac:(simpl; tauto))) as [t3 ->].
  destruct (py_mul_float_score_number _ f0_15
    (well_typed_bundle_fields llm_scores "experimental_thoroughness" Hb
       ltac:(simpl; tauto))) as [t4 ->].
  cbn [bind]. exists p, a, t1, t2, t3, t4. auto.
Qed.

(** ** Defaults for missing bundle keys *)

Lemma well_typed_bundle_empty : well_typed_bundle ∅ = true.
Proof. reflexivity. Qed.

(** C3: on every item of the data model, scoring with the empty bundle
    returns a result whose four subjective individual scores are 5.0; and
    whenever a result is returned, each subjective key that is absent from
    the bundle is scored 5.0 while each key that is present keeps the
    supplied value. *)
Theorem C3_missing_keys_default_to_five :
  (forall impl item, well_typed_item item = true ->
     exists r, calculate_comprehensive_score impl item ∅ = Ok r /\
       forall key, In key subjective_keys ->
         individual_scores r !! key = Some (VFloat f5_0)) /\
  (forall impl item (llm_scores : gmap string pyval) r key,
     calculate_comprehensive_score impl item llm_scores = Ok r ->
     In key subjective_keys ->
     (llm_scores !! key = None ->
        individual_scores r !! key = Some (VFloat f5_0)) /\
     (forall v, llm_scores !! key = Some v ->
        individual_scores r !! key = Some v)).
Proof.
  split.
  - intros impl item Hi.
    destruct (calculate_comprehensive_score_returns impl item ∅ Hi
                well_typed_bundle_empty)
      as (p & a & t1 & t2 & t3 & t4 & _ & _ & _ & _ & Hr).
    eexists. split; [exact Hr|].
    intros key Hin. cbn [individual_scores result_of_terms].
    now rewrite scores_dict_subjective.
  - intros impl item llm_scores r key Hr Hin.
    destruct (calculate_comprehensive_score_inv _ _ _ _ Hr)
      as (p & a & t1 & t2 & t3 & t4 & _ & _ & _ & _ & _ & _ & ->).
    cbn [individual_scores result_of_terms].
    rewrite scores_dict_subjective by assumption.
    unfold py_get. split.
    + now intros ->.
    + now intros v ->.
Qed.

(** ** Unknown source kinds *)

(** C7: for an item whose source is neither of the two recognised kinds,
    the popularity and the author-influence sub-scores are both 5.0; with the
    empty bundle the scorer returns, all six individual scores are 5.0 and the
    final score is exactly 5.0. *)
Theorem C7_unknown_source_is_flat_five (impl : sum_impl)
    (item : gmap string pyval) :
  py_get item "source" (VStr "unknown") <> VStr "github" ->
  py_get item "source" (VStr "unknown") <> VStr "arxiv" ->
  _calculate_popularity_score item = Ok f5_0 /\
  _calculate_author_influence_score item = Ok f5_0 /\
  exists r, calculate_comprehensive_score impl item ∅ = Ok r /\
    (forall key, In key (map fst weights) ->
       individual_scores r !! key = Some (VFloat f5_0)) /\
    final_score r = f5_0.
Proof.
  intros Hg Ha.
  assert (Eg : py_eq_str (py_get item "source" (VStr "unknown")) "github" = false).
  { destruct (py_get item "source" (VStr "unknown")); try reflexivity.
    simpl. destruct (String.eqb_spec s "github"); congruence. }
  assert (Ea : py_eq_str (py_get item "source" (VStr "unknown")) "arxiv" = false).
  { destruct (py_get item "source" (VStr "unknown")); try reflexivity.
    simpl. destruct (String.eqb_spec s "arxiv"); congruence. }
  assert (Hp : _calculate_popularity_score item = Ok f5_0).
  { unfold _calculate_popularity_score. now rewrite Eg, Ea. }
  assert (Hi : _calculate_author_influence_score item = Ok f5_0).
  { unfold _calculate_author_influence_score. now rewrite Eg, Ea. }
  split; [exact Hp|]. split; [exact Hi|].
  rewrite calculate_comprehensive_score_unfold, Hp, Hi.
  eexists. split; [reflexivity|]. split.
  - intros key Hin. simpl in Hin.
    repeat (destruct Hin as [<-|Hin]; [reflexivity|]). destruct Hin.
  - destruct impl; vm_compute; reflexivity.
Qed.

Lemma C7_unknown_source_is_flat_five_witness :
  _calculate_popularity_score unknown_item = Ok f5_0 /\
  _calculate_author_influence_score unknown_item = Ok f5_0 /\
  exists r, calculate_comprehensive_score LeftToRight unknown_item ∅ = Ok r /\
    (forall key, In key (map fst weights) ->
       individual_scores r !! key = Some (VFloat f5_0)) /\
    final_score r = f5_0.
Proof.
  apply (C7_unknown_source_is_flat_five LeftToRight unknown_item);
    vm_compute; discriminate.
Defined.

(** ** The fallback bundle *)

(** C9: scoring an item with the fallback bundle of the summarizer (the four
    subjective keys all 5.0) gives the same outcome as scoring it with the
    empty bundle. *)
Theorem C9_fallback_bundle_equals_empty_bundle (impl : sum_impl)
    (item : gmap string pyval) :
  fallback_comprehensive_scores impl item =
  calculate_comprehensive_score impl item ∅.
Proof.
  unfold fallback_comprehensive_scores.
  rewrite !calculate_comprehensive_score_unfold.
  reflexivity.
Qed.

Lemma C3_missing_keys_default_to_five_witness :
  exists r,
    calculate_comprehensive_score LeftToRight (repo_with_stars 1000) ∅ = Ok r /\
    forall key, In key subjective_keys ->
      individual_scores r !! key = Some (VFloat f5_0).
Proof.
  apply (proj1 C3_missing_keys_default_to_five LeftToRight (repo_with_stars 1000)).
  reflexivity.
Defined.

(** ** Author influence *)




(** ** Popularity of a paper *)



(** ** Monotonicity of the repository tiers *)

Lemma popularity_tier_mono (n m : Z) :
  n <= m -> F64.leb (popularity_tier n) (popularity_tier m) = true.
Proof.
  intros Hle. unfold popularity_tier.
  repeat match goal with
         | |- context [?c <=? ?x] => destruct (Z.leb_spec c x); try lia
         end; reflexivity.
Qed.

Lemma py_get_insert_eq (item : gmap string pyval) key v dflt :
  py_get (<[key := v]> item) key dflt = v.
Proof. unfold py_get. now rewrite lookup_insert_eq. Qed.

Lemma py_get_insert_ne (item : gmap string pyval) key key' v dflt :
  key <> key' -> py_get (<[key := v]> item) key' dflt = py_get item key' dflt.
Proof. intros H. unfold py_get. now rewrite lookup_insert_ne. Qed.

(** C6: the popularity of a repository does not decrease when its star
    count grows: two repository items that differ only in their integer star
    counts [n <= m] get popularity scores in the same order. *)
Theorem C6_popularity_monotone_in_stars (item : gmap string pyval) (n m : Z) :
  py_get item "source" (VStr "unknown") = VStr "github" ->
  n <= m ->
  exists a b,
    _calculate_popularity_score (<["stars" := VInt n]> item) = Ok a /\
    _calculate_popularity_score (<["stars" := VInt m]> item) = Ok b /\
    F64.leb a b = true.
Proof.
  intros Hsrc Hle.
  exists (popularity_tier n), (popularity_tier m).
  split; [|split].
  - apply popularity_github; [|apply py_get_insert_eq].
    now rewrite py_get_insert_ne.
  - apply popularity_github; [|apply py_get_insert_eq].
    now rewrite py_get_insert_ne.
  - now apply popularity_tier_mono.
Qed.

Lemma C6_popularity_monotone_in_stars_witness :
  exists a b,
    _calculate_popularity_score (<["stars" := VInt 99]> (repo_with_stars 0))
      = Ok a /\
    _calculate_popularity_score (<["stars" := VInt 100]> (repo_with_stars 0))
      = Ok b /\
    F64.leb a b = true.
Proof.
  apply (C6_popularity_monotone_in_stars (repo_with_stars 0) 99 100);
    [reflexivity | lia].
Defined.

(** ** Malformed input *)

(** C8 (as stated) fails: the scorer does raise on malformed input.  A
    repository whose star count
    is a string, a paper whose category field is [None] and a paper whose
    author field is a number all end in a [TypeError]. *)
Lemma C8_scoring_raises_on_malformed_input :
  calculate_comprehensive_score LeftToRight repo_with_textual_stars ∅
    = Raise TypeError /\
  calculate_comprehensive_score LeftToRight paper_without_category_list ∅
    = Raise TypeError /\
  calculate_comprehensive_score LeftToRight paper_with_author_count ∅
    = Raise TypeError /\
  ~ (forall impl item llm_scores,
       exists r, calculate_comprehensive_score impl item llm_scores = Ok r).
Proof.
  repeat split; try reflexivity.
  intros H.
  destruct (H LeftToRight repo_with_textual_stars ∅) as [r Hr].
  discriminate Hr.
Qed.

Lemma absent_stars_is_zero_stars (item : gmap string pyval) :
  item !! "stars" = None ->
  _calculate_popularity_score (<["stars" := VInt 0]> item)
    = _calculate_popularity_score item /\
  _calculate_author_influence_score (<["stars" := VInt 0]> item)
    = _calculate_author_influence_score item.
Proof.
  intros Hnone.
  assert (Hstars : py_get item "stars" (VInt 0) = VInt 0)
    by (unfold py_get; now rewrite Hnone).
  unfold _calculate_popularity_score, _calculate_author_influence_score.
  rewrite !py_get_insert_eq, Hstars.
  rewrite !py_get_insert_ne by discriminate.
  split; reflexivity.
Qed.

(** C8 (amended): on every item whose present fields have the types of the
    data model and every bundle whose present subjective values are numbers
    in the range of [float], the scorer returns a result; an absent star
    count is scored like a star count of zero. *)
Theorem C8_scoring_returns_on_well_typed_input :
  (forall impl (item llm_scores : gmap string pyval),
     well_typed_item item = true ->
     well_typed_bundle llm_scores = true ->
     exists r, calculate_comprehensive_score impl item llm_scores = Ok r) /\
  (forall impl (item llm_scores : gmap string pyval),
     item !! "stars" = None ->
     calculate_comprehensive_score impl (<["stars" := VInt 0]> item) llm_scores
     = calculate_comprehensive_score impl item llm_scores).
Proof.
  split.
  - intros impl item llm_scores Hi Hb.
    destruct (calculate_comprehensive_score_returns impl item llm_scores Hi Hb)
      as (p & a & t1 & t2 & t3 & t4 & _ & _ & _ & _ & Hr).
    eauto.
  - intros impl item llm_scores Hnone.
    destruct (absent_stars_is_zero_stars item Hnone) as [Hp Ha].
    rewrite !calculate_comprehensive_score_unfold, Hp, Ha. reflexivity.
Qed.

Lemma C8_scoring_returns_on_well_typed_input_witness :
  exists r,
    calculate_comprehensive_score Compensated stanford_paper fallback_scoring
      = Ok r.
Proof.
  apply (proj1 C8_scoring_returns_on_well_typed_input Compensated
           stanford_paper fallback_scoring); reflexivity.
Defined.

(** ** Bundle values are not validated *)

(** C10: a value supplied in the bundle is neither clamped nor validated.
    Whenever a result is returned, the individual score of each subjective
    key present in the bundle is the supplied value itself; each breakdown
    entry is the rounded product of the individual score and its weight and
    the final score is the rounded sum of these products, with no clamp; so
    a bundle value of 100.0 gives a breakdown entry of 20.0 and a final score
    of 24.0, above 10. *)
Theorem C10_bundle_values_used_verbatim :
  (forall impl item (llm_scores : gmap string pyval) r key v,
     calculate_comprehensive_score impl item llm_scores = Ok r ->
     In key subjective_keys -> llm_scores !! key = Some v ->
     individual_scores r !! key = Some v) /\
  (forall impl item llm_scores r,
     calculate_comprehensive_score impl item llm_scores = Ok r ->
     exists terms,
       Forall2 (fun kw t => exists v,
                  individual_scores r !! fst kw = Some v /\
                  py_mul_float v (snd kw) = Ok t /\
                  score_breakdown r !! fst kw = Some (F64.round_ndigits t 2))
               weights terms /\
       final_score r = F64.round_ndigits (py_sum impl terms) 2) /\
  (forall impl, exists r,
     calculate_comprehensive_score impl unknown_item inflated_bundle = Ok r /\
     individual_scores r !! "technical_innovation" = Some (VFloat f100_0) /\
     score_breakdown r !! "technical_innovation" = Some f20_0 /\
     final_score r = f24_0 /\
     F64.ltb f10_0 (final_score r) = true).
Proof.
  split; [|split].
  - intros impl item llm_scores r key v Hr Hin Hv.
    destruct (calculate_comprehensive_score_inv _ _ _ _ Hr)
      as (p & a & t1 & t2 & t3 & t4 & _ & _ & _ & _ & _ & _ & ->).
    cbn [individual_scores result_of_terms].
    rewrite scores_dict_subjective by assumption.
    unfold py_get. now rewrite Hv.
  - intros impl item llm_scores r Hr.
    destruct (calculate_comprehensive_score_inv _ _ _ _ Hr)
      as (p & a & t1 & t2 & t3 & t4 & _ & _ & H1 & H2 & H3 & H4 & ->).
    exists [F64.mul p f0_25; t1; t2; t3; t4; F64.mul a f0_15].
    split; [|reflexivity].
    unfold weights. cbn [individual_scores score_breakdown result_of_terms].
    repeat (constructor; [eexists; cbn [fst snd];
      first [ rewrite scores_dict_popularity
            | rewrite scores_dict_author_influence
            | rewrite scores_dict_subjective by (simpl; tauto) ];
      split; [reflexivity | split; [eassumption || reflexivity | reflexivity]] |]).
    constructor.
  - intros impl. eexists. split; [|split; [|split; [|split]]].
    + rewrite calculate_comprehensive_score_unfold. reflexivity.
    + reflexivity.
    + vm_compute. reflexivity.
    + destruct impl; vm_compute; reflexivity.
    + destruct impl; vm_compute; reflexivity.
Qed.

Lemma C10_bundle_values_used_verbatim_witness :
  exists r,
    calculate_comprehensive_score LeftToRight unknown_item inflated_bundle
      = Ok r /\
    individual_scores r !! "technical_innovation" = Some (VFloat f100_0).
Proof.
  eexists. split.
  - vm_compute. reflexivity.
  - apply (proj1 C10_bundle_values_used_verbatim LeftToRight unknown_item
             inflated_bundle _ "technical_innovation" (VFloat f100_0));
      [vm_compute; reflexivity | simpl; tauto | reflexivity].
Defined.

(** ** Correctly rounded arithmetic: error bounds

    The operations of [SpecFloat] on canonical finite floats return the exact
    result rounded to the nearest float; the lemmas below bound the rounding
    error. *)

Lemma digits2_pos_bounds (p : positive) :
  2 ^ (Z.pos (digits2_pos p) - 1) <= Z.pos p < 2 ^ Z.pos (digits2_pos p).
Proof.
  induction p as [p IH|p IH|]; cbn [digits2_pos].
  - rewrite Pos2Z.inj_succ.
    replace (Z.succ (Z.pos (digits2_pos p)) - 1) with (Z.succ (Z.pos (digits2_pos p) - 1)) by lia.
    rewrite !Z.pow_succ_r by lia. lia.
  - rewrite Pos2Z.inj_succ.
    replace (Z.succ (Z.pos (digits2_pos p)) - 1) with (Z.succ (Z.pos (digits2_pos p) - 1)) by lia.
    rewrite !Z.pow_succ_r by lia. lia.
  - simpl. lia.
Qed.

Section Iter.
Context {A : Type} (f : A -> A) (P : Z -> A -> Prop).
Hypothesis step : forall k x, 0 <= k -> P k x -> P (k + 1) (f x).

Lemma iter_pos_invariant (p : positive) :
  forall k x, 0 <= k -> P k x -> P (k + Z.pos p) (SpecFloat.iter_pos f p x).
Proof.
  induction p as [p IH|p IH|]; intros k x Hk Hx; cbn [SpecFloat.iter_pos].
  - replace (k + Z.pos p~1) with (k + 1 + Z.pos p + Z.pos p) by lia.
    apply IH; [lia|]. apply IH; [lia|]. now apply step.
  - replace (k + Z.pos p~0) with (k + Z.pos p + Z.pos p) by lia.
    apply IH; [lia|]. now apply IH.
  - now apply step.
Qed.
End Iter.

Lemma shr_1_inv m k mrs :
  0 <= k -> shr_inv m k mrs -> shr_inv m (k + 1) (shr_1 mrs).
Proof.
  intros Hk (rem & Hm & Heq & Hrem & Hloc).
  destruct mrs as [M r s]. cbn [shr_m shr_r shr_s] in *.
  assert (Hp : 0 < 2 ^ k) by (apply Z.pow_pos_nonneg; lia).
  unfold shr_inv. rewrite Z.pow_add_r by lia. change (2 ^ 1) with 2.
  cbn [shr_1].
  destruct M as [|[M|M|]|M]; try lia; cbn [shr_m shr_r shr_s].
  - exists rem. destruct r, s; cbn [orb]; lia.
  - exists (rem + 2 ^ k). destruct r, s; cbn [orb]; lia.
  - exists rem. destruct r, s; cbn [orb]; lia.
  - exists (rem + 2 ^ k). destruct r, s; cbn [orb]; lia.
Qed.

Lemma shr_iter_inv m p :
  0 <= m ->
  shr_inv m (Z.pos p) (SpecFloat.iter_pos shr_1 p (Build_shr_record m false false)).
Proof.
  intros Hm.
  change (Z.pos p) with (0 + Z.pos p).
  apply (iter_pos_invariant shr_1 (shr_inv m)).
  - intros k x Hk Hx. now apply shr_1_inv.
  - lia.
  - exists 0. cbn. lia.
Qed.

Lemma pow2_pos (k : Z) : 0 <= k -> 0 < 2 ^ k.
Proof. intros. apply Z.pow_pos_nonneg; lia. Qed.

Lemma pow2_le (a b : Z) : 0 <= a <= b -> 2 ^ a <= 2 ^ b.
Proof. intros. apply Z.pow_le_mono_r; lia. Qed.

Lemma pow2_lt_inv (a b : Z) : 0 <= b -> 2 ^ a < 2 ^ b -> a < b.
Proof. intros Hb H. apply (Z.pow_lt_mono_r_iff 2); lia. Qed.

Lemma digits2_pos_le (p : positive) (k : Z) :
  0 <= k -> Z.pos p < 2 ^ k -> Z.pos (digits2_pos p) <= k.
Proof.
  intros Hk Hp. pose proof (digits2_pos_bounds p) as [Hlo _].
  assert (Z.pos (digits2_pos p) - 1 < k); [|lia].
  apply pow2_lt_inv; lia.
Qed.

Lemma digits2_pos_ge (p : positive) (k : Z) :
  2 ^ (k - 1) <= Z.pos p -> k <= Z.pos (digits2_pos p).
Proof.
  intros Hp. pose proof (digits2_pos_bounds p) as [_ Hhi].
  assert (k - 1 < Z.pos (digits2_pos p)); [|lia].
  apply pow2_lt_inv; lia.
Qed.

Section Round.
Variables prec emax : Z.
Hypothesis Hprec : 0 < prec.
Hypothesis Hemax : prec < emax.

Abbreviation fexp := (fexp prec emax).
Abbreviation emin := (emin prec emax).
Abbreviation mk_float := (mk_float prec emax).
Abbreviation base := (base prec emax).
Abbreviation ival := (ival prec emax).
Abbreviation good := (good prec emax).

Lemma round_nearest_even_inv m k mrs :
  0 <= k -> shr_inv m k mrs ->
  let m1 := round_nearest_even (shr_m mrs) (loc_of_shr_record mrs) in
  shr_m mrs <= m1 <= shr_m mrs + 1 /\
  - 2 ^ k <= 2 * (m1 * 2 ^ k - m) <= 2 ^ k.
Proof.
  intros Hk (rem & Hm & Heq & Hrem & Hloc).
  destruct mrs as [M r s]. cbn [shr_m shr_r shr_s] in *.
  unfold loc_of_shr_record, round_nearest_even.
  destruct r, s; try destruct (Z.even M); lia.
Qed.

Lemma round_aux_spec (sx : bool) (m : positive) (e : Z) :
  let e1 := fexp (Z.pos (digits2_pos m) + e) in
  e <= e1 ->
  exists M E,
    binary_round_aux prec emax sx (Z.pos m) e loc_Exact = mk_float sx M E /\
    0 <= M /\ e1 <= E <= e1 + 1 /\
    (0 < M -> canonical_mantissa prec emax (Z.to_pos M) E = true) /\
    - 2 ^ (e1 - e) <= 2 * (M * 2 ^ (E - e) - Z.pos m) <= 2 ^ (e1 - e).
Proof.
  intros e1 Hle.
  pose proof (digits2_pos_bounds m) as Hd.
  set (d := Z.pos (digits2_pos m)) in *.
  assert (He1 : e1 = Z.max (d + e - prec) (3 - emax - prec)) by reflexivity.
  unfold binary_round_aux, shr_fexp. cbn [Zdigits2 shr_record_of_loc].
  fold d. fold e1.
  destruct (e1 - e) as [|n|n] eqn:Hn; [|clear Hle|lia].
  - (* no shift *)
    assert (e1 = e) by lia. cbn [shr shr_m loc_of_shr_record round_nearest_even].
    cbn [Zdigits2]. fold d. fold e1. rewrite Hn. cbn [shr shr_m].
    exists (Z.pos m), e. cbn [mk_float]. split; [reflexivity|].
    split; [lia|]. split; [lia|]. split.
    + intros _. unfold canonical_mantissa. cbn [Z.to_pos]. fold d. fold e1.
      apply Z.eqb_eq. lia.
    + rewrite Z.sub_diag. change (2 ^ 0) with 1. lia.
  - cbn [shr].
    pose proof (shr_iter_inv (Z.pos m) n ltac:(lia)) as Hinv.
    set (mrs := SpecFloat.iter_pos shr_1 n _) in *.
    pose proof (round_nearest_even_inv (Z.pos m) (Z.pos n) mrs
                  (Pos2Z.is_nonneg n) Hinv) as [Hm1 Herr].
    cbv zeta in Hm1, Herr.
    set (m1 := round_nearest_even (shr_m mrs) (loc_of_shr_record mrs)) in *.
    destruct Hinv as (rem & HM & Heq & Hrem & _).
    replace (e + Z.pos n) with e1 by lia.
    assert (Hpn : 0 < 2 ^ Z.pos n) by (apply pow2_pos; lia).
    assert (Hpp : 0 < 2 ^ prec) by (apply pow2_pos; lia).
    (* the shifted mantissa has at most [prec] bits *)
    assert (HMlt : shr_m mrs < 2 ^ prec).
    { destruct (Z.lt_ge_cases d (Z.pos n)) as [Hdn|Hdn].
      - assert (2 ^ d <= 2 ^ Z.pos n) by (apply pow2_le; lia). nia.
      - assert (2 ^ d = 2 ^ (d - Z.pos n) * 2 ^ Z.pos n)
          by (rewrite <- Z.pow_add_r by lia; f_equal; lia).
        assert (2 ^ (d - Z.pos n) <= 2 ^ prec) by (apply pow2_le; lia).
        nia. }
    destruct m1 as [|q|q] eqn:Hq; [| |lia].
    + (* rounded to zero *)
      cbn [Zdigits2 shr_record_of_loc].
      assert (Hn2 : fexp (0 + e1) - e1 <= 0) by (unfold SpecFloat.fexp, SpecFloat.emin in *; lia).
      destruct (fexp (0 + e1) - e1) eqn:Hn2'; try lia; cbn [shr shr_m];
        exists 0, e1; cbn [mk_float]; (split; [reflexivity|]);
        (split; [lia|]); (split; [lia|]); (split; [lia|]);
        rewrite Hn; lia.
    + cbn [Zdigits2 shr_record_of_loc].
      pose proof (digits2_pos_bounds q) as Hdq.
      set (dq := Z.pos (digits2_pos q)) in *.
      destruct (Z.lt_ge_cases (Z.pos q) (2 ^ prec)) as [Hlt|Hge].
      * (* no carry *)
        assert (Hdq' : dq <= prec) by (apply digits2_pos_le; lia).
        assert (Hcan : fexp (dq + e1) = e1).
        { unfold SpecFloat.fexp, SpecFloat.emin in *.
          destruct (Z.eq_dec e1 (3 - emax - prec)) as [Hmin|Hmin]; [lia|].
          assert (Hnd : Z.pos n = d - prec) by lia.
          assert (prec <= dq); [|lia].
          apply digits2_pos_ge.
          assert (2 ^ (d - 1) = 2 ^ (prec - 1) * 2 ^ Z.pos n)
            by (rewrite <- Z.pow_add_r by lia; f_equal; lia).
          assert (0 < 2 ^ (prec - 1)) by (apply pow2_pos; lia).
          nia. }
        rewrite Hcan, Z.sub_diag. cbn [shr shr_m].
        exists (Z.pos q), e1. cbn [mk_float]. split; [reflexivity|].
        split; [lia|]. split; [lia|]. split.
        { intros _. unfold canonical_mantissa. cbn [Z.to_pos]. fold dq.
          rewrite Hcan. apply Z.eqb_refl. }
        rewrite Hn. lia.
      * (* carry: the mantissa is [2 ^ prec] *)
        assert (Hq2 : Z.pos q = 2 ^ prec) by lia.
        assert (Hdq' : dq = prec + 1).
        { apply Z.le_antisymm.
          - apply digits2_pos_le; [lia|]. rewrite Hq2.
            rewrite Z.pow_add_r by lia. lia.
          - apply digits2_pos_ge. replace (prec + 1 - 1) with prec by lia. lia. }
        assert (Hn2 : fexp (dq + e1) - e1 = 1)
          by (unfold SpecFloat.fexp, SpecFloat.emin in *; lia).
        rewrite Hn2. cbn [shr SpecFloat.iter_pos].
        pose proof (shr_1_inv (Z.pos q) 0 (Build_shr_record (Z.pos q) false false)
                      ltac:(lia)) as Hs.
        destruct Hs as (rem' & HM' & Heq' & Hrem' & _).
        { exists 0. cbn. lia. }
        change (2 ^ (0 + 1)) with 2 in *.
        assert (Hhalf : 2 ^ prec = 2 * 2 ^ (prec - 1)).
        { replace prec with (Z.succ (prec - 1)) at 1 by lia.
          apply Z.pow_succ_r. lia. }
        assert (HM2 : shr_m (shr_1 (Build_shr_record (Z.pos q) false false))
                      = 2 ^ (prec - 1)) by lia.
        rewrite HM2.
        assert (Hp1 : 0 < 2 ^ (prec - 1)) by (apply pow2_pos; lia).
        exists (2 ^ (prec - 1)), (e1 + 1). split; [reflexivity|].
        split; [lia|]. split; [lia|]. split.
        { intros _. unfold canonical_mantissa.
          assert (Hdd : Z.pos (digits2_pos (Z.to_pos (2 ^ (prec - 1)))) = prec).
          { apply Z.le_antisymm.
            - apply digits2_pos_le; [lia|]. rewrite Z2Pos.id by lia. lia.
            - apply digits2_pos_ge. rewrite Z2Pos.id by lia. lia. }
          rewrite Hdd. apply Z.eqb_eq.
          unfold SpecFloat.fexp, SpecFloat.emin in *. lia. }
        replace (e1 + 1 - e) with (Z.pos n + 1) by lia.
        rewrite Z.pow_add_r by lia. change (2 ^ 1) with 2. nia.
Qed.

(** *** Alignment *)

Lemma pos_iter_xO (m d : positive) :
  Z.pos (Pos.iter xO m d) = Z.pos m * 2 ^ Z.pos d.
Proof.
  induction d as [|d IH] using Pos.peano_ind.
  - simpl. lia.
  - rewrite Pos.iter_succ, Pos2Z.inj_succ, Z.pow_succ_r by lia.
    rewrite Pos2Z.inj_xO, IH. lia.
Qed.

Lemma shl_align_spec (m : positive) (e e' : Z) :
  exists m'', shl_align m e e' = (m'', Z.min e e') /\
              Z.pos m'' = Z.pos m * 2 ^ (e - Z.min e e').
Proof.
  unfold shl_align. destruct (e' - e) as [|d|d] eqn:Hd.
  - exists m. replace (Z.min e e') with e by lia.
    rewrite Z.sub_diag. split; [reflexivity|]. change (2 ^ 0) with 1. lia.
  - exists m. replace (Z.min e e') with e by lia.
    rewrite Z.sub_diag. split; [reflexivity|]. change (2 ^ 0) with 1. lia.
  - exists (Pos.iter xO m d). replace (Z.min e e') with e' by lia.
    split; [reflexivity|]. rewrite pos_iter_xO. f_equal. f_equal. lia.
Qed.

Lemma digits2_pos_shift (m m' : positive) (k : Z) :
  0 <= k -> Z.pos m' = Z.pos m * 2 ^ k ->
  Z.pos (digits2_pos m') = Z.pos (digits2_pos m) + k.
Proof.
  intros Hk Hm. pose proof (digits2_pos_bounds m) as [Hlo Hhi].
  pose proof (pow2_pos k Hk) as Hp.
  apply Z.le_antisymm.
  - apply digits2_pos_le; [lia|]. rewrite Hm, Z.pow_add_r by lia. nia.
  - apply digits2_pos_ge.
    replace (Z.pos (digits2_pos m) + k - 1) with (Z.pos (digits2_pos m) - 1 + k)
      by lia.
    rewrite Hm, Z.pow_add_r by lia. nia.
Qed.

Lemma fexp_ge_emin (x : Z) : emin <= fexp x.
Proof. unfold SpecFloat.fexp. lia. Qed.

Lemma fexp_mono (x y : Z) : x <= y -> fexp x <= fexp y.
Proof. unfold SpecFloat.fexp. lia. Qed.

(** Scaling both sides of an error bound from base [e0] down to base [b]. *)
Lemma rebase (b e0 e E e1 M m : Z) :
  b <= e0 -> e0 <= e -> e0 <= E -> e0 <= e1 ->
  - 2 ^ (e1 - e0) <= 2 * (M * 2 ^ (E - e0) - m * 2 ^ (e - e0)) <= 2 ^ (e1 - e0) ->
  - 2 ^ (e1 - b) <= 2 * (M * 2 ^ (E - b) - m * 2 ^ (e - b)) <= 2 ^ (e1 - b).
Proof.
  intros Hb He HE He1 H.
  pose proof (pow2_pos (e0 - b) ltac:(lia)) as Hp.
  replace (e1 - b) with ((e1 - e0) + (e0 - b)) by lia.
  replace (E - b) with ((E - e0) + (e0 - b)) by lia.
  replace (e - b) with ((e - e0) + (e0 - b)) by lia.
  rewrite !Z.pow_add_r by lia. nia.
Qed.

Lemma binary_round_spec (sx : bool) (m : positive) (e b : Z) :
  let e1 := fexp (Z.pos (digits2_pos m) + e) in
  b <= e -> b <= e1 ->
  exists M E,
    binary_round prec emax sx m e = mk_float sx M E /\
    0 <= M /\ e1 <= E <= e1 + 1 /\
    (0 < M -> canonical_mantissa prec emax (Z.to_pos M) E = true) /\
    - 2 ^ (e1 - b) <= 2 * (M * 2 ^ (E - b) - Z.pos m * 2 ^ (e - b)) <= 2 ^ (e1 - b).
Proof.
  intros e1 Hbe Hbe1. unfold binary_round. fold e1.
  destruct (shl_align_spec m e e1) as (mz & -> & Hmz).
  set (e0 := Z.min e e1) in *.
  assert (Hdz : Z.pos (digits2_pos mz) + e0 = Z.pos (digits2_pos m) + e).
  { rewrite (digits2_pos_shift m mz (e - e0)) by (try exact Hmz; unfold e0; lia).
    lia. }
  destruct (round_aux_spec sx mz e0) as (M & E & Hr & HM & HE & Hcan & Herr).
  { cbv zeta. rewrite Hdz. fold e1. unfold e0. lia. }
  cbv zeta in *. rewrite Hdz in *. fold e1 in HE, Herr.
  exists M, E. split; [exact Hr|]. split; [exact HM|]. split; [exact HE|].
  split; [exact Hcan|].
  apply (rebase b e0); try (unfold e0; lia).
  rewrite <- Hmz. replace (2 ^ (e0 - e0)) with 1 in * by (now rewrite Z.sub_diag).
  lia.
Qed.

(** *** Values as integers *)

Lemma emin_nonpos : emin <= 0.
Proof. unfold SpecFloat.emin. lia. Qed.

Lemma base_le_emin : base <= emin.
Proof. unfold base. pose proof emin_nonpos. lia. Qed.

Lemma good_finite_inv s m e :
  good (S754_finite s m e) = true ->
  e = fexp (Z.pos (digits2_pos m) + e) /\ emin <= e /\ e <= emax - prec.
Proof.
  cbn [good]. unfold bounded, canonical_mantissa.
  rewrite andb_true_iff, Z.eqb_eq, Z.leb_le. intros [Hc Hb].
  pose proof (fexp_ge_emin (Z.pos (digits2_pos m) + e)). lia.
Qed.

Lemma mk_float_good sx M E :
  0 <= M -> E <= emax - prec ->
  (0 < M -> canonical_mantissa prec emax (Z.to_pos M) E = true) ->
  good (mk_float sx M E) = true /\
  ival (mk_float sx M E) = cond_Zopp sx M * 2 ^ (E - base).
Proof.
  intros HM HE Hcan. destruct M as [|p|p]; [| |lia]; cbn [mk_float].
  - split; [reflexivity|]. destruct sx; reflexivity.
  - destruct (Z.leb_spec E (emax - prec)) as [_|]; [|lia].
    cbn [good ival]. split; [|reflexivity].
    unfold bounded. pose proof (Hcan ltac:(lia)) as Hc. cbn [Z.to_pos] in Hc.
    rewrite Hc. cbn [andb]. now apply Z.leb_le.
Qed.

(** A magnitude bound gives a bound on the number of digits. *)
Lemma digits_of_bound (m : positive) (e B : Z) :
  base <= e -> base <= B ->
  Z.pos m * 2 ^ (e - base) < 2 ^ (B - base) ->
  Z.pos (digits2_pos m) + e <= B.
Proof.
  intros He HB Hlt. pose proof (digits2_pos_bounds m) as [Hlo _].
  set (d := Z.pos (digits2_pos m)) in *.
  assert (Hd : 1 <= d) by (unfold d; lia).
  pose proof (pow2_pos (e - base) ltac:(lia)) as Hp.
  assert (H : 2 ^ (d - 1 + (e - base)) < 2 ^ (B - base)).
  { rewrite Z.pow_add_r by lia. nia. }
  apply pow2_lt_inv in H; lia.
Qed.

Lemma fexp_bound_no_overflow (B : Z) : B < emax -> fexp B + 1 <= emax - prec.
Proof. unfold SpecFloat.fexp, SpecFloat.emin. lia. Qed.

Lemma binary_normalize_spec (z e B : Z) :
  emin <= e -> base <= B -> B < emax ->
  Z.abs z * 2 ^ (e - base) < 2 ^ (B - base) ->
  let r := binary_normalize prec emax z e false in
  good r = true /\
  - 2 ^ (fexp B - base) <= 2 * (ival r - z * 2 ^ (e - base)) <= 2 ^ (fexp B - base).
Proof.
  intros He HB HBmax Hmag r. subst r.
  pose proof base_le_emin as Hbase.
  pose proof (fexp_ge_emin B) as HfB.
  pose proof (pow2_pos (fexp B - base) ltac:(lia)) as HpB.
  destruct z as [|m|m]; cbn [binary_normalize].
  - split; [reflexivity|]. cbn [ival]. lia.
  - pose proof (fexp_ge_emin (Z.pos (digits2_pos m) + e)) as Hf.
    destruct (binary_round_spec false m e base ltac:(lia) ltac:(lia))
      as (M & E & -> & HM & HE & Hcan & Herr).
    pose proof (digits_of_bound m e B ltac:(lia) HB Hmag) as Hd.
    pose proof (fexp_mono _ _ Hd) as Hmono.
    pose proof (fexp_bound_no_overflow B HBmax) as Hov.
    destruct (mk_float_good false M E HM ltac:(lia) Hcan) as [Hg Hv].
    split; [exact Hg|]. rewrite Hv. cbn [cond_Zopp].
    pose proof (pow2_le (fexp (Z.pos (digits2_pos m) + e) - base) (fexp B - base)
                  ltac:(lia)).
    lia.
  - pose proof (fexp_ge_emin (Z.pos (digits2_pos m) + e)) as Hf.
    destruct (binary_round_spec true m e base ltac:(lia) ltac:(lia))
      as (M & E & -> & HM & HE & Hcan & Herr).
    pose proof (digits_of_bound m e B ltac:(lia) HB Hmag) as Hd.
    pose proof (fexp_mono _ _ Hd) as Hmono.
    pose proof (fexp_bound_no_overflow B HBmax) as Hov.
    destruct (mk_float_good true M E HM ltac:(lia) Hcan) as [Hg Hv].
    split; [exact Hg|]. rewrite Hv. cbn [cond_Zopp].
    pose proof (pow2_le (fexp (Z.pos (digits2_pos m) + e) - base) (fexp B - base)
                  ltac:(lia)).
    lia.
Qed.

(** The aligned mantissa used by addition and subtraction. *)
Lemma aligned_value (s : bool) (m : positive) (e ez : Z) :
  ez <= e -> base <= ez ->
  cond_Zopp s (Z.pos (fst (shl_align m e ez))) * 2 ^ (ez - base)
  = cond_Zopp s (Z.pos m) * 2 ^ (e - base).
Proof.
  intros Hez Hb. destruct (shl_align_spec m e ez) as (m'' & -> & Hm).
  cbn [fst]. rewrite Hm. replace (Z.min e ez) with ez by lia.
  replace (e - base) with ((e - ez) + (ez - base)) by lia.
  rewrite Z.pow_add_r by lia. destruct s; cbn [cond_Zopp]; lia.
Qed.

Lemma SFadd_spec (x y : spec_float) (B : Z) :
  good x = true -> good y = true -> base <= B -> B < emax ->
  Z.abs (ival x + ival y) < 2 ^ (B - base) ->
  let r := SFadd prec emax x y in
  good r = true /\
  - 2 ^ (fexp B - base) <= 2 * (ival r - (ival x + ival y)) <= 2 ^ (fexp B - base).
Proof.
  intros Hx Hy HB HBmax Hmag r. subst r.
  pose proof base_le_emin as Hbase.
  pose proof (fexp_ge_emin B) as HfB.
  pose proof (pow2_pos (fexp B - base) ltac:(lia)) as HpB.
  destruct x as [sx|sx| |sx mx ex]; try discriminate Hx;
    destruct y as [sy|sy| |sy my ey]; try discriminate Hy.
  - cbn [SFadd]. destruct sx, sy; cbn [good ival]; (split; [reflexivity|lia]).
  - cbn [SFadd]. split; [exact Hy|]. cbn [ival]. lia.
  - cbn [SFadd]. split; [exact Hx|]. cbn [ival]. lia.
  - cbn [SFadd].
    destruct (good_finite_inv _ _ _ Hx) as (_ & Hex & _).
    destruct (good_finite_inv _ _ _ Hy) as (_ & Hey & _).
    set (ez := Z.min ex ey).
    set (z := cond_Zopp sx (Z.pos (fst (shl_align mx ex ez))) +
              cond_Zopp sy (Z.pos (fst (shl_align my ey ez)))).
    assert (Hz : z * 2 ^ (ez - base) = ival (S754_finite sx mx ex)
                                       + ival (S754_finite sy my ey)).
    { unfold z. rewrite Z.mul_add_distr_r.
      rewrite !aligned_value by (unfold ez; lia). reflexivity. }
    pose proof (pow2_pos (ez - base) ltac:(unfold ez; lia)) as Hp.
    destruct (binary_normalize_spec z ez B ltac:(unfold ez; lia) HB HBmax)
      as [Hg Herr].
    { rewrite <- Hz in Hmag. rewrite Z.abs_mul in Hmag.
      rewrite (Z.abs_eq (2 ^ _)) in Hmag by lia. exact Hmag. }
    split; [exact Hg|]. rewrite <- Hz. exact Herr.
Qed.

Lemma SFsub_spec (x y : spec_float) (B : Z) :
  good x = true -> good y = true -> base <= B -> B < emax ->
  Z.abs (ival x - ival y) < 2 ^ (B - base) ->
  let r := SFsub prec emax x y in
  good r = true /\
  - 2 ^ (fexp B - base) <= 2 * (ival r - (ival x - ival y)) <= 2 ^ (fexp B - base).
Proof.
  intros Hx Hy HB HBmax Hmag r. subst r.
  pose proof base_le_emin as Hbase.
  pose proof (fexp_ge_emin B) as HfB.
  pose proof (pow2_pos (fexp B - base) ltac:(lia)) as HpB.
  destruct x as [sx|sx| |sx mx ex]; try discriminate Hx;
    destruct y as [sy|sy| |sy my ey]; try discriminate Hy.
  - cbn [SFsub]. destruct sx, sy; cbn [good ival]; (split; [reflexivity|lia]).
  - cbn [SFsub]. split; [exact Hy|]. cbn [ival].
    destruct sy; cbn [negb cond_Zopp]; lia.
  - cbn [SFsub]. split; [exact Hx|]. cbn [ival]. lia.
  - cbn [SFsub].
    destruct (good_finite_inv _ _ _ Hx) as (_ & Hex & _).
    destruct (good_finite_inv _ _ _ Hy) as (_ & Hey & _).
    set (ez := Z.min ex ey).
    set (z := cond_Zopp sx (Z.pos (fst (shl_align mx ex ez))) -
              cond_Zopp sy (Z.pos (fst (shl_align my ey ez)))).
    assert (Hz : z * 2 ^ (ez - base) = ival (S754_finite sx mx ex)
                                       - ival (S754_finite sy my ey)).
    { unfold z. rewrite Z.mul_sub_distr_r.
      rewrite !aligned_value by (unfold ez; lia). reflexivity. }
    pose proof (pow2_pos (ez - base) ltac:(unfold ez; lia)) as Hp.
    destruct (binary_normalize_spec z ez B ltac:(unfold ez; lia) HB HBmax)
      as [Hg Herr].
    { rewrite <- Hz in Hmag. rewrite Z.abs_mul in Hmag.
      rewrite (Z.abs_eq (2 ^ _)) in Hmag by lia. exact Hmag. }
    split; [exact Hg|]. rewrite <- Hz. exact Herr.
Qed.

Lemma SFmul_spec (x y : spec_float) (B : Z) :
  good x = true -> good y = true -> base <= B -> B < emax ->
  Z.abs (ival x * ival y) < 2 ^ (B - base) * 2 ^ (- base) ->
  let r := SFmul prec emax x y in
  good r = true /\
  - (2 ^ (fexp B - base) * 2 ^ (- base))
    <= 2 * (ival r * 2 ^ (- base) - ival x * ival y)
    <= 2 ^ (fexp B - base) * 2 ^ (- base).
Proof.
  intros Hx Hy HB HBmax Hmag r. subst r.
  pose proof base_le_emin as Hbase. pose proof emin_nonpos as Hemin.
  assert (Hb2 : base = 2 * emin) by reflexivity.
  pose proof (fexp_ge_emin B) as HfB.
  pose proof (pow2_pos (fexp B - base) ltac:(lia)) as HpB.
  pose proof (pow2_pos (- base) ltac:(lia)) as Hpb.
  destruct x as [sx|sx| |sx mx ex]; try discriminate Hx;
    destruct y as [sy|sy| |sy my ey]; try discriminate Hy;
    try (cbn [SFmul good ival]; split; [reflexivity|nia]).
  cbn [SFmul].
  destruct (good_finite_inv _ _ _ Hx) as (Hcx & Hex & _).
  destruct (good_finite_inv _ _ _ Hy) as (Hcy & Hey & _).
  pose proof (digits2_pos_bounds mx) as [Hlox _].
  pose proof (digits2_pos_bounds my) as [Hloy _].
  set (dx := Z.pos (digits2_pos mx)) in *.
  set (dy := Z.pos (digits2_pos my)) in *.
  assert (Hdx : 1 <= dx) by (unfold dx; lia).
  assert (Hdy : 1 <= dy) by (unfold dy; lia).
  assert (HD : dx + dy - 1 <= Z.pos (digits2_pos (mx * my))).
  { apply digits2_pos_ge. rewrite Pos2Z.inj_mul.
    replace (dx + dy - 1 - 1) with ((dx - 1) + (dy - 1)) by lia.
    rewrite Z.pow_add_r by lia.
    pose proof (pow2_pos (dx - 1) ltac:(lia)).
    pose proof (pow2_pos (dy - 1) ltac:(lia)). nia. }
  set (D := Z.pos (digits2_pos (mx * my))) in *.
  pose proof (fexp_ge_emin (D + (ex + ey))) as Hf.
  assert (Hle : ex + ey <= fexp (D + (ex + ey)))
    by (unfold SpecFloat.fexp, SpecFloat.emin in *; lia).
  destruct (round_aux_spec (xorb sx sy) (mx * my) (ex + ey) Hle)
    as (M & E & -> & HM & HE & Hcan & Herr).
  cbv zeta in HE, Herr. fold D in HE, Herr.
  set (e1 := fexp (D + (ex + ey))) in *.
  (* the exact product in units of [2 ^ base] *)
  set (V := Z.pos (mx * my) * 2 ^ (ex + ey - base)).
  assert (HV : ival (S754_finite sx mx ex) * ival (S754_finite sy my ey)
               = cond_Zopp (xorb sx sy) V * 2 ^ (- base)).
  { cbn [ival]. unfold V. rewrite Pos2Z.inj_mul.
    replace (ex + ey - base) with ((ex - base) + (ey - base) - (- base)) by lia.
    assert (Hsplit : 2 ^ (ex - base) * 2 ^ (ey - base)
                     = 2 ^ ((ex - base) + (ey - base) - (- base)) * 2 ^ (- base)).
    { rewrite <- !Z.pow_add_r by lia. f_equal. lia. }
    destruct sx, sy; cbn [cond_Zopp xorb]; nia. }
  assert (HVpos : 0 < V).
  { unfold V. pose proof (pow2_pos (ex + ey - base) ltac:(lia)). nia. }
  assert (HVlt : V < 2 ^ (B - base)).
  { rewrite HV, Z.abs_mul, (Z.abs_eq (2 ^ (- base))) in Hmag by lia.
    assert (Z.abs (cond_Zopp (xorb sx sy) V) = V)
      by (destruct (xorb sx sy); cbn [cond_Zopp]; lia).
    nia. }
  pose proof (digits_of_bound (mx * my) (ex + ey) B ltac:(lia) HB HVlt) as Hd.
  fold D in Hd.
  pose proof (fexp_mono _ _ Hd) as Hmono. fold e1 in Hmono.
  pose proof (fexp_bound_no_overflow B HBmax) as Hov.
  destruct (mk_float_good (xorb sx sy) M E HM ltac:(lia) Hcan) as [Hg Hv].
  split; [exact Hg|]. rewrite Hv, HV.
  assert (Herr' : - 2 ^ (e1 - base) <= 2 * (M * 2 ^ (E - base) - V)
                  <= 2 ^ (e1 - base)).
  { unfold V.
    apply (rebase base (ex + ey) (ex + ey) E e1 M (Z.pos (mx * my)));
      try lia.
    rewrite Z.sub_diag. change (2 ^ 0) with 1. lia. }
  pose proof (pow2_le (e1 - base) (fexp B - base) ltac:(lia)).
  destruct (xorb sx sy); cbn [cond_Zopp]; nia.
Qed.

(** *** Comparison of canonical floats *)

Lemma good_finite_lt_pow (s : bool) (m : positive) (e : Z) :
  good (S754_finite s m e) = true ->
  Z.pos m * 2 ^ (e - base) < 2 ^ (prec + e - base).
Proof.
  intros Hg. destruct (good_finite_inv _ _ _ Hg) as (Hc & He & _).
  pose proof base_le_emin. pose proof (digits2_pos_bounds m) as [_ Hhi].
  assert (Z.pos (digits2_pos m) <= prec)
    by (unfold SpecFloat.fexp in Hc; lia).
  pose proof (pow2_le (Z.pos (digits2_pos m)) prec ltac:(lia)).
  pose proof (pow2_pos (e - base) ltac:(lia)).
  replace (prec + e - base) with (prec + (e - base)) by lia.
  rewrite Z.pow_add_r by lia. nia.
Qed.

Lemma good_finite_ge_pow (s : bool) (m : positive) (e : Z) :
  good (S754_finite s m e) = true -> emin < e ->
  2 ^ (prec - 1 + e - base) <= Z.pos m * 2 ^ (e - base).
Proof.
  intros Hg Hlt. destruct (good_finite_inv _ _ _ Hg) as (Hc & He & _).
  pose proof base_le_emin. pose proof (digits2_pos_bounds m) as [Hlo _].
  assert (Z.pos (digits2_pos m) = prec)
    by (unfold SpecFloat.fexp in Hc; lia).
  pose proof (pow2_pos (e - base) ltac:(lia)).
  replace (prec - 1 + e - base) with ((prec - 1) + (e - base)) by lia.
  rewrite Z.pow_add_r by lia.
  replace (Z.pos (digits2_pos m) - 1) with (prec - 1) in Hlo by lia. nia.
Qed.

(** Comparison of two canonical positive floats is comparison of values. *)
Lemma compare_finite_pos (m1 m2 : positive) (e1 e2 : Z) :
  good (S754_finite false m1 e1) = true ->
  good (S754_finite false m2 e2) = true ->
  SFcompare (S754_finite false m1 e1) (S754_finite false m2 e2)
  = Some (ival (S754_finite false m1 e1) ?= ival (S754_finite false m2 e2)).
Proof.
  intros H1 H2. cbn [SFcompare ival cond_Zopp]. f_equal.
  destruct (good_finite_inv _ _ _ H1) as (_ & He1 & _).
  destruct (good_finite_inv _ _ _ H2) as (_ & He2 & _).
  pose proof base_le_emin.
  pose proof (good_finite_lt_pow _ _ _ H1) as Hhi1.
  pose proof (good_finite_lt_pow _ _ _ H2) as Hhi2.
  destruct (Z.compare_spec e1 e2) as [Heq|Hlt|Hgt].
  - subst e2. rewrite Pos.compare_cont_spec. cbn [Pos.switch_Eq].
    pose proof (pow2_pos (e1 - base) ltac:(lia)) as Hp.
    change (m1 ?= m2)%positive with (Z.pos m1 ?= Z.pos m2).
    symmetry. destruct (Z.compare_spec (Z.pos m1) (Z.pos m2)) as [E|E|E].
    + rewrite E. apply Z.compare_refl.
    + apply Z.compare_lt_iff. nia.
    + apply Z.compare_gt_iff. nia.
  - symmetry. apply Z.compare_lt_iff.
    pose proof (good_finite_ge_pow _ _ _ H2 ltac:(lia)) as Hlo2.
    pose proof (pow2_le (prec + e1 - base) (prec - 1 + e2 - base) ltac:(lia)).
    lia.
  - symmetry. apply Z.compare_gt_iff.
    pose proof (good_finite_ge_pow _ _ _ H1 ltac:(lia)) as Hlo1.
    pose proof (pow2_le (prec + e2 - base) (prec - 1 + e1 - base) ltac:(lia)).
    lia.
Qed.

End Round.

Lemma prec64_pos : 0 < F64.prec.
Proof. reflexivity. Qed.

Lemma emax64_gt : F64.prec < F64.emax.
Proof. reflexivity. Qed.

Lemma G64_pos : 0 < G64.
Proof. reflexivity. Qed.

Lemma pow_bound64 : 2 ^ (5 - base F64.prec F64.emax) = 32 * one64.
Proof. vm_compute. reflexivity. Qed.

Lemma pow_err64 :
  2 ^ (SpecFloat.fexp F64.prec F64.emax 5 - base F64.prec F64.emax) = 2 * err64.
Proof. vm_compute. reflexivity. Qed.

Lemma pow_one64 : 2 ^ (- base F64.prec F64.emax) = one64.
Proof. vm_compute. reflexivity. Qed.

Lemma add64 (x y : spec_float) :
  good64 x = true -> good64 y = true ->
  - (32 * one64) < I64 x + I64 y < 32 * one64 ->
  good64 (F64.add x y) = true /\
  - err64 <= I64 (F64.add x y) - (I64 x + I64 y) <= err64.
Proof.
  intros Hx Hy Hmag.
  destruct (SFadd_spec F64.prec F64.emax prec64_pos emax64_gt x y 5 Hx Hy
              ltac:(vm_compute; discriminate) ltac:(reflexivity)) as [Hg Herr].
  { rewrite pow_bound64. fold (I64 x) (I64 y). lia. }
  rewrite pow_err64 in Herr. fold (I64 x) (I64 y) in Herr.
  split; [exact Hg|]. unfold F64.add, I64 in *. lia.
Qed.

Lemma sub64 (x y : spec_float) :
  good64 x = true -> good64 y = true ->
  - (32 * one64) < I64 x - I64 y < 32 * one64 ->
  good64 (F64.sub x y) = true /\
  - err64 <= I64 (F64.sub x y) - (I64 x - I64 y) <= err64.
Proof.
  intros Hx Hy Hmag.
  destruct (SFsub_spec F64.prec F64.emax prec64_pos emax64_gt x y 5 Hx Hy
              ltac:(vm_compute; discriminate) ltac:(reflexivity)) as [Hg Herr].
  { rewrite pow_bound64. fold (I64 x) (I64 y). lia. }
  rewrite pow_err64 in Herr. fold (I64 x) (I64 y) in Herr.
  split; [exact Hg|]. unfold F64.sub, I64 in *. lia.
Qed.

(** Multiplication by a weight [w] of value [c * 2 ^ -56], at most 1. *)
Lemma mul64 (x w : spec_float) (c : Z) :
  good64 x = true -> good64 w = true ->
  I64 w = c * G64 -> 0 <= c <= 72057594037927936 ->
  - (16 * one64) <= I64 x <= 16 * one64 ->
  good64 (F64.mul x w) = true /\
  - (72057594037927936 * err64)
    <= 72057594037927936 * I64 (F64.mul x w) - c * I64 x
    <= 72057594037927936 * err64.
Proof.
  intros Hx Hw Hc Hcb Hmag.
  pose proof G64_pos as HG.
  assert (Hone : 0 < one64) by (unfold one64; lia).
  assert (HcG : 0 <= c * G64 <= one64) by (unfold one64; nia).
  destruct (SFmul_spec F64.prec F64.emax prec64_pos emax64_gt x w 5 Hx Hw
              ltac:(vm_compute; discriminate) ltac:(reflexivity)) as [Hg Herr].
  { rewrite pow_bound64, pow_one64. fold (I64 x) (I64 w). rewrite Hc.
    rewrite Z.abs_mul, (Z.abs_eq (c * G64)) by lia.
    apply Z.le_lt_trans with (16 * one64 * one64); [|nia].
    apply Z.mul_le_mono_nonneg; lia. }
  rewrite pow_err64, pow_one64 in Herr. fold (I64 x) (I64 w) in Herr.
  fold (F64.mul x w) in Herr, Hg. fold (I64 (F64.mul x w)) in Herr.
  split; [exact Hg|]. rewrite Hc in Herr.
  set (r := I64 (F64.mul x w)) in *. set (X := I64 x) in *.
  assert (Hd : - (72057594037927936 * err64) * G64
               <= (72057594037927936 * r - c * X) * G64
               <= (72057594037927936 * err64) * G64).
  { unfold one64 in Herr. lia. }
  split.
  - apply (Z.mul_le_mono_pos_r _ _ G64 HG). lia.
  - apply (Z.mul_le_mono_pos_r _ _ G64 HG). lia.
Qed.

(** ** Accuracy of [sum] *)

Lemma one64_pos : 0 < one64.
Proof. reflexivity. Qed.

Lemma err64_pos : 0 < err64.
Proof. reflexivity. Qed.

Lemma err64_small : 1000000 * err64 <= one64.
Proof. vm_compute. discriminate. Qed.

Lemma fold_left_add_spec (items : list spec_float) :
  forall (f : spec_float) (B : Z),
    Forall term_ok items -> good64 f = true ->
    - B <= I64 f <= B ->
    B + (4 * one64 + err64) * Z.of_nat (length items) <= 31 * one64 ->
    good64 (fold_left F64.add items f) = true /\
    - (err64 * Z.of_nat (length items))
      <= I64 (fold_left F64.add items f) - (I64 f + sumI items)
      <= err64 * Z.of_nat (length items).
Proof.
  pose proof one64_pos as H1. pose proof err64_pos as He.
  induction items as [|x rest IH]; intros f B Hok Hf HB Hlen.
  - cbn [fold_left sumI fold_right length]. split; [exact Hf|]. lia.
  - apply Forall_cons_1 in Hok as [[Hgx Hx] Hrest].
    cbn [fold_left sumI fold_right length] in *.
    rewrite Nat2Z.inj_succ in *.
    set (k := Z.of_nat (length rest)) in *.
    assert (Hk : 0 <= k) by (unfold k; lia).
    assert (Hk1 : 0 <= (4 * one64 + err64) * k) by nia.
    destruct (add64 f x Hf Hgx ltac:(lia)) as [Hg Herr].
    destruct (IH (F64.add f x) (B + 4 * one64 + err64) Hrest Hg
                ltac:(lia) ltac:(lia)) as [Hg' Herr'].
    split; [exact Hg'|]. fold (sumI rest) in *. lia.
Qed.

Lemma good64_is_finite (c : spec_float) :
  good64 c = true -> F64.is_finite c = true.
Proof. destruct c; try discriminate; reflexivity. Qed.

Lemma is_zero_I64 (c : spec_float) : F64.is_zero c = true -> I64 c = 0.
Proof. destruct c; try discriminate; reflexivity. Qed.

Lemma compensated_loop_spec (items : list spec_float) :
  forall (f c : spec_float) (B Bc : Z),
    Forall term_ok items -> good64 f = true -> good64 c = true ->
    - B <= I64 f <= B -> - Bc <= I64 c <= Bc ->
    B + (4 * one64 + err64) * Z.of_nat (length items) <= 30 * one64 ->
    Bc + 4 * err64 * Z.of_nat (length items) <= one64 ->
    good64 (compensated_loop items f c) = true /\
    - (3 * err64 * Z.of_nat (length items) + err64)
      <= I64 (compensated_loop items f c) - (I64 f + I64 c + sumI items)
      <= 3 * err64 * Z.of_nat (length items) + err64.
Proof.
  pose proof one64_pos as H1. pose proof err64_pos as He.
  pose proof err64_small as Hs.
  induction items as [|x rest IH]; intros f c B Bc Hok Hf Hc HB HBc Hlen Hlenc.
  - cbn [compensated_loop sumI fold_right length] in *.
    destruct (negb (F64.is_zero c) && F64.is_finite c) eqn:Hcond.
    + destruct (add64 f c Hf Hc ltac:(lia)) as [Hg Herr].
      split; [exact Hg|]. lia.
    + rewrite (good64_is_finite c Hc), andb_true_r in Hcond.
      apply negb_false_iff in Hcond. rewrite (is_zero_I64 c Hcond).
      split; [exact Hf|]. lia.
  - apply Forall_cons_1 in Hok as [[Hgx Hx] Hrest].
    cbn [compensated_loop sumI fold_right length] in *.
    rewrite Nat2Z.inj_succ in *.
    set (k := Z.of_nat (length rest)) in *.
    assert (Hk : 0 <= k) by (unfold k; lia).
    assert (Hk1 : 0 <= (4 * one64 + err64) * k) by nia.
    assert (Hk2 : 0 <= 4 * err64 * k) by nia.
    destruct (add64 f x Hf Hgx ltac:(lia)) as [Hgt Ht].
    set (t := F64.add f x) in *.
    assert (Hc' : exists c',
      (if F64.leb (F64.abs x) (F64.abs f)
       then F64.add c (F64.add (F64.sub f t) x)
       else F64.add c (F64.add (F64.sub x t) f)) = c' /\
      good64 c' = true /\
      - (Bc + 4 * err64) <= I64 c' <= Bc + 4 * err64 /\
      - (3 * err64) <= I64 t + I64 c' - (I64 f + I64 c + I64 x) <= 3 * err64).
    { destruct (F64.leb (F64.abs x) (F64.abs f)).
      - destruct (sub64 f t Hf Hgt ltac:(lia)) as [Hg1 He1].
        destruct (add64 _ x Hg1 Hgx ltac:(lia)) as [Hg2 He2].
        destruct (add64 c _ Hc Hg2 ltac:(lia)) as [Hg3 He3].
        eexists. split; [reflexivity|]. split; [exact Hg3|]. lia.
      - destruct (sub64 x t Hgx Hgt ltac:(lia)) as [Hg1 He1].
        destruct (add64 _ f Hg1 Hf ltac:(lia)) as [Hg2 He2].
        destruct (add64 c _ Hc Hg2 ltac:(lia)) as [Hg3 He3].
        eexists. split; [reflexivity|]. split; [exact Hg3|]. lia. }
    destruct Hc' as (c' & -> & Hgc' & HBc' & Hsum).
    destruct (IH t c' (B + 4 * one64 + err64) (Bc + 4 * err64) Hrest Hgt Hgc'
                ltac:(lia) ltac:(lia) ltac:(lia) ltac:(lia)) as [Hg' Herr'].
    split; [exact Hg'|]. fold (sumI rest) in *. lia.
Qed.

Lemma py_sum_spec (impl : sum_impl) (items : list spec_float) :
  Forall term_ok items -> (length items <= 6)%nat ->
  good64 (py_sum impl items) = true /\
  - (20 * err64) <= I64 (py_sum impl items) - sumI items <= 20 * err64.
Proof.
  pose proof one64_pos as H1. pose proof err64_pos as He.
  pose proof err64_small as Hs.
  intros Hok Hlen. destruct items as [|x rest].
  - cbn [py_sum sumI fold_right]. split; [reflexivity|].
    change (I64 f0_0) with 0. lia.
  - apply Forall_cons_1 in Hok as [[Hgx Hx] Hrest].
    cbn [py_sum sumI fold_right length] in *.
    change (F64.of_Z 0) with (S754_zero false).
    destruct (add64 (S754_zero false) x eq_refl Hgx) as [Hg0 He0].
    { change (I64 (S754_zero false)) with 0. lia. }
    change (I64 (S754_zero false)) with 0 in He0.
    set (first := F64.add (S754_zero false) x) in *.
    set (k := Z.of_nat (length rest)).
    assert (Hk : 0 <= k <= 5) by (unfold k; lia).
    assert (Hk1 : (4 * one64 + err64) * k <= (4 * one64 + err64) * 5) by nia.
    assert (Hk2 : 0 <= err64 * k <= err64 * 5) by nia.
    fold (sumI rest).
    destruct impl.
    + destruct (fold_left_add_spec rest first (4 * one64 + err64) Hrest Hg0
                  ltac:(lia) ltac:(fold k; lia)) as [Hg Herr].
      fold k in Herr. split; [exact Hg|]. lia.
    + destruct (compensated_loop_spec rest first f0_0 (4 * one64 + err64) 0
                  Hrest Hg0 eq_refl ltac:(lia)
                  ltac:(change (I64 f0_0) with 0; lia)
                  ltac:(fold k; lia) ltac:(fold k; lia)) as [Hg Herr].
      fold k in Herr. change (I64 f0_0) with 0 in Herr.
      split; [exact Hg|]. lia.
Qed.

(** ** Scores between 0 and 10 *)

Lemma I64_ten : I64 f10_0 = 10 * one64.
Proof. vm_compute. reflexivity. Qed.

Lemma in_range_I64 (x : spec_float) :
  F64.valid x = true -> in_range x = true ->
  good64 x = true /\ 0 <= I64 x <= 10 * one64.
Proof.
  pose proof one64_pos as H1.
  unfold in_range. rewrite andb_true_iff. intros Hv [H0 H10].
  destruct x as [s|s| |s m e].
  - split; [reflexivity|]. change (I64 (S754_zero s)) with 0. lia.
  - destruct s; discriminate.
  - discriminate.
  - destruct s; [discriminate H0|].
    assert (Hg : good64 (S754_finite false m e) = true) by exact Hv.
    split; [exact Hg|].
    unfold F64.leb, SFleb in H10.
    change f10_0 with (S754_finite false 5629499534213120 (-49)) in H10.
    rewrite (compare_finite_pos F64.prec F64.emax prec64_pos emax64_gt)
      in H10 by (exact Hg || reflexivity).
    fold I64 in H10.
    change (I64 (S754_finite false 5629499534213120 (-49))) with (I64 f10_0)
      in H10.
    rewrite I64_ten in H10.
    assert (0 <= I64 (S754_finite false m e)).
    { unfold I64, ival. cbn [cond_Zopp]. apply Z.mul_nonneg_nonneg; [lia|].
      apply Z.pow_nonneg. lia. }
    destruct (Z.compare_spec (I64 (S754_finite false m e)) (10 * one64));
      try discriminate; lia.
Qed.

(** *** Rounding to two decimals *)

Lemma div_half_even_bound (n d K : Z) :
  0 <= n -> 0 < d -> 0 <= K -> Z.even K = true ->
  2 * n <= (2 * K + 1) * d ->
  0 <= F64.div_half_even n d <= K.
Proof.
  intros Hn Hd HK Hev Hle. unfold F64.div_half_even.
  pose proof (Z.div_mod n d ltac:(lia)) as Hdm.
  pose proof (Z.mod_pos_bound n d Hd) as Hr.
  pose proof (Z.div_pos n d Hn Hd) as Hq.
  set (q := n / d) in *. set (r := n mod d) in *.
  assert (HqK : q <= K) by nia.
  destruct (Z.compare_spec (2 * r) d) as [E|E|E].
  - destruct (Z.eq_dec q K) as [->|Hne].
    + rewrite Hev. lia.
    + destruct (Z.even q); lia.
  - lia.
  - assert (q < K) by nia. lia.
Qed.

Lemma ratio_table_checked : ratio_table_check = true.
Proof. vm_compute. reflexivity. Qed.

(** The float nearest to [p / 100] lies in [0, 10] for every [p] up to 1000. *)
Lemma of_ratio_in_range (p : positive) :
  Z.pos p <= 1000 -> in_range (F64.of_ratio false p 100) = true.
Proof.
  intros Hp. pose proof ratio_table_checked as Ht.
  unfold ratio_table_check in Ht. rewrite forallb_forall in Ht.
  specialize (Ht (Pos.to_nat p)). rewrite Pos2Nat.id in Ht.
  apply Ht. apply in_seq. lia.
Qed.

Lemma pow_52_one64 : 2 ^ (F64.prec - 1 - base F64.prec F64.emax)
                     = 4503599627370496 * one64.
Proof. vm_compute. reflexivity. Qed.

Lemma round_ndigits_in_range (s : spec_float) :
  good64 s = true ->
  - (100 * err64) <= I64 s <= 10 * one64 + 100 * err64 ->
  in_range (F64.round_ndigits s 2) = true.
Proof.
  pose proof one64_pos as H1. pose proof err64_pos as He.
  pose proof err64_small as Hs.
  intros Hg Hb. destruct s as [sg|sg| |sg m e]; try discriminate Hg.
  - destruct sg; reflexivity.
  - destruct (good_finite_inv F64.prec F64.emax sg m e Hg) as (_ & Hemin & _).
    change (SpecFloat.emin F64.prec F64.emax) with (-1074) in Hemin.
    assert (Hbase : base F64.prec F64.emax = -2148) by reflexivity.
    unfold F64.round_ndigits.
    destruct (Z.leb_spec 0 e) as [Hpos|Hneg].
    + (* an integer-valued float is at least 2^52 in magnitude *)
      exfalso.
      pose proof (good_finite_ge_pow F64.prec F64.emax prec64_pos emax64_gt
                    sg m e Hg ltac:(change (SpecFloat.emin F64.prec F64.emax)
                                     with (-1074); lia)) as Hlo.
      pose proof (pow2_le (F64.prec - 1 - base F64.prec F64.emax)
                    (F64.prec - 1 + e - base F64.prec F64.emax)
                    ltac:(rewrite Hbase; unfold F64.prec; lia)) as Hmono.
      rewrite pow_52_one64 in Hmono.
      unfold I64, ival in Hb. destruct sg; cbn [cond_Zopp] in Hb; lia.
    + change (10 ^ Z.of_nat 2) with 100.
      set (D := 2 ^ (- e)).
      set (Gs := 2 ^ (e - base F64.prec F64.emax)) in *.
      assert (HD : 0 < D) by (apply pow2_pos; lia).
      assert (HGs : 0 < Gs) by (apply pow2_pos; lia).
      assert (HDG : D * Gs = one64).
      { unfold D, Gs. rewrite <- Z.pow_add_r by lia.
        rewrite <- pow_one64. f_equal. lia. }
      assert (HI : I64 (S754_finite sg m e) = cond_Zopp sg (Z.pos m) * Gs)
        by reflexivity.
      rewrite HI in Hb.
      destruct sg; cbn [cond_Zopp] in Hb.
      * assert (Hk : 0 <= F64.div_half_even (Z.pos m * 100) D <= 0).
        { apply div_half_even_bound; try reflexivity; try lia.
          apply (Z.mul_le_mono_pos_r _ _ Gs HGs).
          replace ((2 * 0 + 1) * D * Gs) with one64 by (rewrite <- HDG; ring).
          lia. }
        replace (F64.div_half_even (Z.pos m * 100) D) with 0 by lia.
        reflexivity.
      * assert (Hk : 0 <= F64.div_half_even (Z.pos m * 100) D <= 1000).
        { apply div_half_even_bound; try reflexivity; try lia.
          apply (Z.mul_le_mono_pos_r _ _ Gs HGs).
          replace ((2 * 1000 + 1) * D * Gs) with (2001 * one64)
            by (rewrite <- HDG; ring).
          lia. }
        destruct (F64.div_half_even (Z.pos m * 100) D) as [|p|p];
          [reflexivity| |lia].
        change (Z.to_pos 100) with 100%positive.
        apply of_ratio_in_range. lia.
Qed.

(** ** The final score stays in range *)

Lemma Ok_inj {A : Type} (a b : A) : Ok a = Ok b -> a = b.
Proof. now intros [=]. Qed.

Lemma popularity_value_only item p :
  _calculate_popularity_score item = Ok p -> In p popularity_values.
Proof.
  unfold _calculate_popularity_score.
  destruct (py_eq_str (py_get item "source" (VStr "unknown")) "github").
  - repeat (destruct (py_ge_int _ _) as [[|]|]; cbn [bind]);
      try discriminate; intros H; apply Ok_inj in H; subst; simpl; tauto.
  - destruct (py_eq_str (py_get item "source" (VStr "unknown")) "arxiv").
    + destruct (py_lower (py_get item "abstract" _)) as [ab|]; [|discriminate].
      cbn [bind].
      destruct (py_lower (py_get item "title" _)) as [ti|]; [|discriminate].
      cbn [bind].
      destruct (py_iter _) as [cats|]; [|discriminate]. cbn [bind].
      destruct (py_any _ _) as [b|]; [|discriminate]. cbn [bind].
      rewrite conference_loop_any.
      destruct (any_fragment _ _), b; intros H; apply Ok_inj in H; subst; lazy; tauto.
    + intros H; apply Ok_inj in H; subst. simpl. tauto.
Qed.

Lemma influence_value_only item a :
  _calculate_author_influence_score item = Ok a -> In a influence_values.
Proof.
  unfold _calculate_author_influence_score.
  destruct (py_eq_str (py_get item "source" (VStr "unknown")) "arxiv").
  - destruct (if py_truthy _ then _ else _) as [text|]; [|discriminate].
    cbn [bind]. destruct (py_len _) as [n|]; [|discriminate]. cbn [bind].
    rewrite org_loop_text_any.
    destruct (any_fragment _ _), (5 <=? n), (3 <=? n); intros H; apply Ok_inj in H; subst;
      lazy; tauto.
  - destruct (py_eq_str (py_get item "source" (VStr "unknown")) "github").
    + destruct (py_lower (py_get item "url" _)) as [url|]; [|discriminate].
      cbn [bind].
      destruct (py_lower (py_get item "description" _)) as [de|]; [|discriminate].
      cbn [bind]. destruct (py_ge_int _ _) as [c|]; [|discriminate].
      cbn [bind]. rewrite org_loop_repo_any.
      destruct (any_fragment _ _), c; intros H; apply Ok_inj in H; subst; lazy; tauto.
    + intros H; apply Ok_inj in H; subst. vm_compute. tauto.
Qed.

Lemma metadata_values_in_range (f : spec_float) :
  In f (popularity_values ++ influence_values) ->
  F64.valid f = true /\ in_range f = true.
Proof.
  intros Hin. simpl in Hin.
  repeat (destruct Hin as [<-|Hin]; [split; reflexivity|]).
  destruct Hin.
Qed.

Lemma small_int_cases (z : Z) :
  (0 <=? z) && (z <=? 10) = true -> In z [0; 1; 2; 3; 4; 5; 6; 7; 8; 9; 10].
Proof.
  rewrite andb_true_iff, !Z.leb_le. intros [H0 H10]. simpl.
  assert (z = 0 \/ z = 1 \/ z = 2 \/ z = 3 \/ z = 4 \/ z = 5 \/ z = 6 \/
          z = 7 \/ z = 8 \/ z = 9 \/ z = 10) by lia.
  intuition auto.
Qed.

(** A dimension value in range is converted to a float in range. *)
Lemma score_in_range_to_float (v : pyval) :
  score_in_range v = true ->
  exists f, py_to_float v = Ok f /\ F64.valid f = true /\ in_range f = true.
Proof.
  destruct v as [|b|z|f| | |]; try discriminate; cbn [score_in_range].
  - intros _. destruct b; eexists; (split; [reflexivity|split; reflexivity]).
  - intros Hz. apply small_int_cases in Hz. simpl in Hz.
    repeat (destruct Hz as [<-|Hz];
            [eexists; (split; [reflexivity|split; reflexivity])|]).
    destruct Hz.
  - rewrite andb_true_iff. intros [Hv Hr]. exists f. auto.
Qed.

Lemma score_in_range_number (v : pyval) :
  score_in_range v = true -> is_score_number v = true.
Proof.
  destruct v as [|b|z|f| | |]; try discriminate; try reflexivity.
  cbn [score_in_range]. intros Hz. apply small_int_cases in Hz. simpl in Hz.
  repeat (destruct Hz as [<-|Hz]; [reflexivity|]).
  destruct Hz.
Qed.

Lemma weights_I64 :
  I64 f0_25 = 18014398509481984 * G64 /\
  I64 f0_20 = 14411518807585588 * G64 /\
  I64 f0_10 = 7205759403792794 * G64 /\
  I64 f0_15 = 10808639105689190 * G64.
Proof. repeat split; vm_compute; reflexivity. Qed.

(** The rounded product of a score in range and a weight. *)
Lemma weighted_term (f w : spec_float) (c : Z) :
  F64.valid f = true -> in_range f = true ->
  good64 w = true -> I64 w = c * G64 -> 0 <= c <= 18014398509481984 ->
  term_ok (F64.mul f w) /\
  0 <= I64 f <= 10 * one64 /\
  - (72057594037927936 * err64)
    <= 72057594037927936 * I64 (F64.mul f w) - c * I64 f
    <= 72057594037927936 * err64.
Proof.
  intros Hv Hr Hw Hc Hcb.
  pose proof one64_pos as H1. pose proof err64_pos as He.
  pose proof err64_small as Hs.
  destruct (in_range_I64 f Hv Hr) as [Hg Hb].
  destruct (mul64 f w c Hg Hw Hc ltac:(lia) ltac:(lia)) as [Hgm Herr].
  split; [|split; [exact Hb|exact Herr]].
  split; [exact Hgm|].
  assert (0 <= c * I64 f <= 18014398509481984 * (10 * one64)).
  { split; [apply Z.mul_nonneg_nonneg; lia|].
    apply Z.mul_le_mono_nonneg; lia. }
  lia.
Qed.

Lemma weights_good :
  good64 f0_25 = true /\ good64 f0_20 = true /\
  good64 f0_10 = true /\ good64 f0_15 = true.
Proof. repeat split; reflexivity. Qed.

(** The binary64 weights add up to exactly 1. *)
Lemma weights_sum_to_one : sumI (map snd weights) = one64.
Proof. vm_compute. reflexivity. Qed.

(** From a bundle value in range to its weighted term. *)
Lemma subjective_term (v : pyval) (w t : spec_float) (c : Z) :
  score_in_range v = true -> py_mul_float v w = Ok t ->
  good64 w = true -> I64 w = c * G64 -> 0 <= c <= 18014398509481984 ->
  exists f,
    term_ok t /\ 0 <= I64 f <= 10 * one64 /\
    - (72057594037927936 * err64)
      <= 72057594037927936 * I64 t - c * I64 f
      <= 72057594037927936 * err64.
Proof.
  intros Hv Ht Hw Hc Hcb.
  destruct (score_in_range_to_float v Hv) as (f & Hf & Hvalid & Hr).
  unfold py_mul_float in Ht. rewrite Hf in Ht. cbn [bind] in Ht.
  apply Ok_inj in Ht. subst t. exists f.
  now apply weighted_term.
Qed.

(** The rounded weighted sum of six scores in range is in range. *)
Lemma final_score_in_range (impl : sum_impl) (p a : spec_float)
    (llm_scores : gmap string pyval) (t_inn t_app t_read t_exp : spec_float) :
  In p popularity_values -> In a influence_values ->
  (forall key, In key subjective_keys ->
     score_in_range (py_get llm_scores key (VFloat f5_0)) = true) ->
  py_mul_float (py_get llm_scores "technical_innovation" (VFloat f5_0)) f0_20
    = Ok t_inn ->
  py_mul_float (py_get llm_scores "application_value" (VFloat f5_0)) f0_10
    = Ok t_app ->
  py_mul_float (py_get llm_scores "readability" (VFloat f5_0)) f0_15
    = Ok t_read ->
  py_mul_float (py_get llm_scores "experimental_thoroughness" (VFloat f5_0))
    f0_15 = Ok t_exp ->
  in_range
    (F64.round_ndigits
       (py_sum impl [F64.mul p f0_25; t_inn; t_app; t_read; t_exp;
                     F64.mul a f0_15]) 2) = true.
Proof.
  intros Hp Ha Hsub H1 H2 H3 H4.
  pose proof one64_pos as Hone. pose proof err64_pos as He.
  pose proof err64_small as Hs.
  destruct weights_I64 as (W25 & W20 & W10 & W15).
  destruct weights_good as (G25 & G20 & G10 & G15).
  destruct (metadata_values_in_range p ltac:(apply in_or_app; auto))
    as [Hpv Hpr].
  destruct (metadata_values_in_range a ltac:(apply in_or_app; auto))
    as [Hav Har].
  destruct (weighted_term p f0_25 _ Hpv Hpr G25 W25 ltac:(lia))
    as (Tp & Bp & Ep).
  destruct (weighted_term a f0_15 _ Hav Har G15 W15 ltac:(lia))
    as (Ta & Ba & Ea).
  destruct (subjective_term _ _ _ _
              (Hsub "technical_innovation" ltac:(simpl; tauto)) H1 G20 W20
              ltac:(lia)) as (x1 & T1 & B1 & E1).
  destruct (subjective_term _ _ _ _
              (Hsub "application_value" ltac:(simpl; tauto)) H2 G10 W10
              ltac:(lia)) as (x2 & T2 & B2 & E2).
  destruct (subjective_term _ _ _ _
              (Hsub "readability" ltac:(simpl; tauto)) H3 G15 W15
              ltac:(lia)) as (x3 & T3 & B3 & E3).
  destruct (subjective_term _ _ _ _
              (Hsub "experimental_thoroughness" ltac:(simpl; tauto)) H4 G15 W15
              ltac:(lia)) as (x4 & T4 & B4 & E4).
  destruct (py_sum_spec impl
              [F64.mul p f0_25; t_inn; t_app; t_read; t_exp; F64.mul a f0_15])
    as [Hg Hsum].
  { repeat (apply Forall_cons_2; [assumption|]). apply Forall_nil_2. }
  { simpl. lia. }
  apply round_ndigits_in_range; [exact Hg|].
  cbn [sumI fold_right] in Hsum.
  lia.
Qed.

(** C1: whenever the four subjective values used for an item (the bundle
    value, or 5.0 for a missing key) lie in [0, 10] -- the two computed
    dimensions always do -- the final score returned by
    [calculate_comprehensive_score], the binary64 weighted sum rounded to two
    decimals without any clamp, lies in [0, 10], under either summation
    algorithm; all six individual scores lie in [0, 10]; and the scorer does
    return such a result on every item of the data model. *)
Theorem C1_final_score_in_range (impl : sum_impl)
    (item llm_scores : gmap string pyval) :
  (forall key, In key subjective_keys ->
     score_in_range (py_get llm_scores key (VFloat f5_0)) = true) ->
  (forall r, calculate_comprehensive_score impl item llm_scores = Ok r ->
     in_range (final_score r) = true /\
     forall key, In key (map fst weights) ->
       exists v, individual_scores r !! key = Some v /\
                 score_in_range v = true) /\
  (well_typed_item item = true ->
   exists r, calculate_comprehensive_score impl item llm_scores = Ok r).
Proof.
  intros Hsub. split.
  - intros r Hr.
    destruct (calculate_comprehensive_score_inv _ _ _ _ Hr)
      as (p & a & t1 & t2 & t3 & t4 & Hp & Ha & H1 & H2 & H3 & H4 & ->).
    pose proof (popularity_value_only _ _ Hp) as Hpin.
    pose proof (influence_value_only _ _ Ha) as Hain.
    split.
    + cbn [final_score result_of_terms].
      now apply (final_score_in_range impl p a llm_scores).
    + intros key Hin. cbn [individual_scores result_of_terms].
      simpl in Hin.
      destruct Hin as [<-|Hin].
      { rewrite scores_dict_popularity. eexists. split; [reflexivity|].
        destruct (metadata_values_in_range p ltac:(apply in_or_app; auto))
          as [Hv Hrg].
        cbn [score_in_range]. now rewrite Hv, Hrg. }
      destruct Hin as [<-|Hin];
        [rewrite scores_dict_subjective by (simpl; tauto); eexists;
         split; [reflexivity | apply Hsub; simpl; tauto]|].
      destruct Hin as [<-|Hin];
        [rewrite scores_dict_subjective by (simpl; tauto); eexists;
         split; [reflexivity | apply Hsub; simpl; tauto]|].
      destruct Hin as [<-|Hin];
        [rewrite scores_dict_subjective by (simpl; tauto); eexists;
         split; [reflexivity | apply Hsub; simpl; tauto]|].
      destruct Hin as [<-|Hin];
        [rewrite scores_dict_subjective by (simpl; tauto); eexists;
         split; [reflexivity | apply Hsub; simpl; tauto]|].
      destruct Hin as [<-|[]].
      rewrite scores_dict_author_influence. eexists. split; [reflexivity|].
      destruct (metadata_values_in_range a ltac:(apply in_or_app; auto))
        as [Hv Hrg].
      cbn [score_in_range]. now rewrite Hv, Hrg.
  - intros Hwt.
    assert (Hb : well_typed_bundle llm_scores = true).
    { unfold well_typed_bundle. apply forallb_forall. intros key Hin.
      specialize (Hsub key Hin). apply score_in_range_number in Hsub.
      unfold field_ok. unfold py_get in Hsub.
      destruct (llm_scores !! key); [exact Hsub|reflexivity]. }
    destruct (calculate_comprehensive_score_returns impl item llm_scores Hwt Hb)
      as (p & a & t1 & t2 & t3 & t4 & _ & _ & _ & _ & Hr).
    eauto.
Qed.

Lemma vscode_bundle_in_range :
  forall key, In key subjective_keys ->
    score_in_range (py_get vscode_bundle key (VFloat f5_0)) = true.
Proof.
  intros key Hin. simpl in Hin.
  repeat (destruct Hin as [<-|Hin]; [reflexivity|]). destruct Hin.
Defined.

Lemma C1_final_score_in_range_witness :
  exists r,
    calculate_comprehensive_score Compensated vscode_repo vscode_bundle = Ok r /\
    in_range (final_score r) = true.
Proof.
  destruct (C1_final_score_in_range Compensated vscode_repo vscode_bundle
              vscode_bundle_in_range) as [Hrange Hret].
  destruct (Hret eq_refl) as [r Hr].
  exists r. split; [exact Hr|]. exact (proj1 (Hrange r Hr)).
Defined.

(** * Further properties of the scorer *)

(** ** When the scorer returns *)

Lemma mk_float_not_nan prec emax sx M E :
  0 <= M -> mk_float prec emax sx M E <> S754_nan.
Proof.
  intros HM. destruct M as [|p|p]; cbn [mk_float]; try lia; try discriminate.
  destruct (E <=? emax - prec); discriminate.
Qed.

Lemma of_Z_not_nan (z : Z) : F64.of_Z z <> S754_nan.
Proof.
  unfold F64.of_Z. destruct z as [|m|m]; cbn [binary_normalize].
  - discriminate.
  - set (e1 := SpecFloat.fexp F64.prec F64.emax (Z.pos (digits2_pos m) + 0)).
    destruct (binary_round_spec F64.prec F64.emax prec64_pos emax64_gt
                false m 0 (Z.min 0 e1) ltac:(lia) ltac:(fold e1; lia))
      as (M & E & -> & HM & _).
    now apply mk_float_not_nan.
  - set (e1 := SpecFloat.fexp F64.prec F64.emax (Z.pos (digits2_pos m) + 0)).
    destruct (binary_round_spec F64.prec F64.emax prec64_pos emax64_gt
                true m 0 (Z.min 0 e1) ltac:(lia) ltac:(fold e1; lia))
      as (M & E & -> & HM & _).
    now apply mk_float_not_nan.
Qed.

Lemma py_to_float_returns_iff (v : pyval) :
  (exists f, py_to_float v = Ok f) <-> is_score_number v = true.
Proof.
  split; [|apply py_to_float_score_number].
  intros [f Hf]. destruct v as [|b|z|g| | |]; try discriminate; try reflexivity.
  cbn [py_to_float is_score_number] in *.
  pose proof (of_Z_not_nan z) as Hnan.
  destruct (F64.of_Z z); try discriminate; try reflexivity. congruence.
Qed.

Lemma py_mul_float_returns_iff (v : pyval) (w : spec_float) :
  (exists t, py_mul_float v w = Ok t) <-> is_score_number v = true.
Proof.
  rewrite <- py_to_float_returns_iff. unfold py_mul_float. split.
  - intros [t Ht]. destruct (py_to_float v) as [f|e]; [eauto|discriminate].
  - intros [f ->]. cbn [bind]. eauto.
Qed.

(** X1: the scorer returns a result exactly when both metadata sub-scorers
    return and each of the four subjective values (the bundle value, or 5.0
    for an absent key) is a float, a boolean or an integer that [float] can
    represent; in particular a key that is present with [None] or a string is
    not replaced by the default. *)
Theorem scorer_returns_iff (impl : sum_impl) (item llm_scores : gmap string pyval) :
  (exists r, calculate_comprehensive_score impl item llm_scores = Ok r) <->
  (exists p, _calculate_popularity_score item = Ok p) /\
  (exists a, _calculate_author_influence_score item = Ok a) /\
  (forall key, In key subjective_keys ->
     is_score_number (py_get llm_scores key (VFloat f5_0)) = true).
Proof.
  split.
  - intros [r Hr].
    destruct (calculate_comprehensive_score_inv _ _ _ _ Hr)
      as (p & a & t1 & t2 & t3 & t4 & Hp & Ha & H1 & H2 & H3 & H4 & _).
    split; [eauto|]. split; [eauto|].
    intros key Hin. simpl in Hin.
    destruct Hin as [<-|[<-|[<-|[<-|[]]]]];
      eapply py_mul_float_returns_iff; eauto.
  - intros ([p Hp] & [a Ha] & Hb).
    rewrite calculate_comprehensive_score_unfold, Hp, Ha. cbn [bind].
    destruct (proj2 (py_mul_float_returns_iff _ f0_20)
                (Hb "technical_innovation" ltac:(simpl; tauto))) as [t1 ->].
    destruct (proj2 (py_mul_float_returns_iff _ f0_10)
                (Hb "application_value" ltac:(simpl; tauto))) as [t2 ->].
    destruct (proj2 (py_mul_float_returns_iff _ f0_15)
                (Hb "readability" ltac:(simpl; tauto))) as [t3 ->].
    destruct (proj2 (py_mul_float_returns_iff _ f0_15)
                (Hb "experimental_thoroughness" ltac:(simpl; tauto))) as [t4 ->].
    cbn [bind]. eauto.
Qed.

(** X2: which exception the scorer raises.  The popularity sub-scorer runs
    first and its exception wins; then the author-influence sub-scorer; then
    the four subjective values are converted in the order of the weight
    table, and the first that cannot be converted decides. *)
Theorem scorer_raises_iff (impl : sum_impl) (item llm_scores : gmap string pyval)
    (e : pyexc) :
  calculate_comprehensive_score impl item llm_scores = Raise e <->
  _calculate_popularity_score item = Raise e \/
  (exists p, _calculate_popularity_score item = Ok p /\
             _calculate_author_influence_score item = Raise e) \/
  (exists p a, _calculate_popularity_score item = Ok p /\
               _calculate_author_influence_score item = Ok a /\
               first_conversion_error subjective_keys llm_scores = Some e).
Proof.
  rewrite calculate_comprehensive_score_unfold.
  unfold subjective_keys, first_conversion_error, py_mul_float.
  destruct (_calculate_popularity_score item) as [p|ep]; cbn [bind].
  - destruct (_calculate_author_influence_score item) as [a|ea]; cbn [bind].
    + destruct (py_to_float (py_get llm_scores "technical_innovation" _))
        as [x1|e1]; cbn [bind];
        [|split; [intros [= ->]; right; right; eauto
                 |intros [H|[(? & _ & H)|(? & ? & _ & _ & H)]]; congruence]].
      destruct (py_to_float (py_get llm_scores "application_value" _))
        as [x2|e2]; cbn [bind];
        [|split; [intros [= ->]; right; right; eauto
                 |intros [H|[(? & _ & H)|(? & ? & _ & _ & H)]]; congruence]].
      destruct (py_to_float (py_get llm_scores "readability" _))
        as [x3|e3]; cbn [bind];
        [|split; [intros [= ->]; right; right; eauto
                 |intros [H|[(? & _ & H)|(? & ? & _ & _ & H)]]; congruence]].
      destruct (py_to_float (py_get llm_scores "experimental_thoroughness" _))
        as [x4|e4]; cbn [bind];
        [|split; [intros [= ->]; right; right; eauto
                 |intros [H|[(? & _ & H)|(? & ? & _ & _ & H)]]; congruence]].
      split; [discriminate|].
      intros [H|[(? & _ & H)|(? & ? & _ & _ & H)]]; congruence.
    + split.
      * intros [= ->]. right. left. eauto.
      * intros [H|[(? & _ & H)|(? & ? & _ & H & _)]]; congruence.
  - split.
    + intros [= ->]. now left.
    + intros [H|[(? & H & _)|(? & ? & H & _)]]; congruence.
Qed.

(** ** The fields and keys the score depends on *)

Lemma py_get_agree (d d' : gmap string pyval) (key : string) (dflt : pyval) :
  d !! key = d' !! key -> py_get d key dflt = py_get d' key dflt.
Proof. unfold py_get. now intros ->. Qed.

Lemma py_eq_str_false (v : pyval) (s : string) :
  v <> VStr s -> py_eq_str v s = false.
Proof.
  intros H. destruct v; try reflexivity. simpl.
  destruct (String.eqb_spec s0 s); congruence.
Qed.

(** X3: only a few fields of an item are scored.  A repository is scored
    from its source, stars, url and description; a paper from its source,
    abstract, title, categories and authors; any other item from its source
    alone.  Items that agree on these fields get the same outcome, whatever
    their other fields hold. *)
Theorem scored_fields (impl : sum_impl) (item item' llm_scores : gmap string pyval) :
  (py_get item "source" (VStr "unknown") = VStr "github" ->
   agree_on ["source"; "stars"; "url"; "description"] item item' ->
   calculate_comprehensive_score impl item llm_scores
   = calculate_comprehensive_score impl item' llm_scores) /\
  (py_get item "source" (VStr "unknown") = VStr "arxiv" ->
   agree_on ["source"; "abstract"; "title"; "categories"; "authors"] item item' ->
   calculate_comprehensive_score impl item llm_scores
   = calculate_comprehensive_score impl item' llm_scores) /\
  (py_get item "source" (VStr "unknown") <> VStr "github" ->
   py_get item "source" (VStr "unknown") <> VStr "arxiv" ->
   agree_on ["source"] item item' ->
   calculate_comprehensive_score impl item llm_scores
   = calculate_comprehensive_score impl item' llm_scores).
Proof.
  split; [|split].
  - intros Hsrc H.
    pose proof (py_get_agree item item' "source" (VStr "unknown")
                  (H "source" ltac:(simpl; tauto))) as Hs.
    rewrite Hsrc in Hs.
    rewrite !calculate_comprehensive_score_unfold.
    unfold _calculate_popularity_score, _calculate_author_influence_score.
    rewrite <- Hs, Hsrc.
    change (py_eq_str (VStr "github") "github") with true.
    change (py_eq_str (VStr "github") "arxiv") with false. cbv iota.
    rewrite (py_get_agree item item' "stars" (VInt 0)
               (H "stars" ltac:(simpl; tauto))).
    rewrite (py_get_agree item item' "url" (VStr "")
               (H "url" ltac:(simpl; tauto))).
    rewrite (py_get_agree item item' "description" (VStr "")
               (H "description" ltac:(simpl; tauto))).
    reflexivity.
  - intros Hsrc H.
    pose proof (py_get_agree item item' "source" (VStr "unknown")
                  (H "source" ltac:(simpl; tauto))) as Hs.
    rewrite Hsrc in Hs.
    rewrite !calculate_comprehensive_score_unfold.
    unfold _calculate_popularity_score, _calculate_author_influence_score.
    rewrite <- Hs, Hsrc.
    change (py_eq_str (VStr "arxiv") "github") with false.
    change (py_eq_str (VStr "arxiv") "arxiv") with true. cbv iota.
    rewrite (py_get_agree item item' "abstract" (VStr "")
               (H "abstract" ltac:(simpl; tauto))).
    rewrite (py_get_agree item item' "title" (VStr "")
               (H "title" ltac:(simpl; tauto))).
    rewrite (py_get_agree item item' "categories" (VList [])
               (H "categories" ltac:(simpl; tauto))).
    rewrite (py_get_agree item item' "authors" (VList [])
               (H "authors" ltac:(simpl; tauto))).
    reflexivity.
  - intros Hg Ha H.
    pose proof (py_get_agree item item' "source" (VStr "unknown")
                  (H "source" ltac:(simpl; tauto))) as Hs.
    rewrite !calculate_comprehensive_score_unfold.
    unfold _calculate_popularity_score, _calculate_author_influence_score.
    rewrite <- Hs, !(py_eq_str_false _ _ Hg), !(py_eq_str_false _ _ Ha).
    reflexivity.
Qed.

Lemma scored_fields_witness :
  calculate_comprehensive_score LeftToRight vscode_repo vscode_bundle
  = calculate_comprehensive_score LeftToRight
      (<["forks" := VInt 30000]> (<["language" := VStr "TypeScript"]> vscode_repo))
      vscode_bundle.
Proof.
  apply (proj1 (scored_fields LeftToRight vscode_repo _ vscode_bundle)).
  - reflexivity.
  - intros key Hin. simpl in Hin.
    repeat (destruct Hin as [<-|Hin]; [reflexivity|]). destruct Hin.
Defined.

(** X4: only the four subjective keys of a bundle are read: bundles that
    agree on them give the same outcome, whatever else they hold. *)
Theorem scored_bundle_keys (impl : sum_impl)
    (item llm_scores llm_scores' : gmap string pyval) :
  agree_on subjective_keys llm_scores llm_scores' ->
  calculate_comprehensive_score impl item llm_scores
  = calculate_comprehensive_score impl item llm_scores'.
Proof.
  intros H. rewrite !calculate_comprehensive_score_unfold.
  unfold scores_dict.
  rewrite (py_get_agree llm_scores llm_scores' "technical_innovation" (VFloat f5_0)
             (H "technical_innovation" ltac:(simpl; tauto))).
  rewrite (py_get_agree llm_scores llm_scores' "application_value" (VFloat f5_0)
             (H "application_value" ltac:(simpl; tauto))).
  rewrite (py_get_agree llm_scores llm_scores' "readability" (VFloat f5_0)
             (H "readability" ltac:(simpl; tauto))).
  rewrite (py_get_agree llm_scores llm_scores' "experimental_thoroughness"
             (VFloat f5_0)
             (H "experimental_thoroughness" ltac:(simpl; tauto))).
  reflexivity.
Qed.

Lemma scored_bundle_keys_witness :
  calculate_comprehensive_score Compensated vscode_repo vscode_bundle
  = calculate_comprehensive_score Compensated vscode_repo
      (<["novelty" := VStr "high"]> vscode_bundle).
Proof.
  apply (scored_bundle_keys Compensated vscode_repo vscode_bundle).
  intros key Hin. simpl in Hin.
  repeat (destruct Hin as [<-|Hin]; [reflexivity|]). destruct Hin.
Defined.

(** ** Ranges of the scores *)

Lemma non_repository_popularity item p :
  py_get item "source" (VStr "unknown") <> VStr "github" ->
  _calculate_popularity_score item = Ok p -> In p [f5_0; f6_0; f7_0; f8_0].
Proof.
  intros Hg. unfold _calculate_popularity_score.
  rewrite (py_eq_str_false _ _ Hg).
  destruct (py_eq_str (py_get item "source" (VStr "unknown")) "arxiv").
  - destruct (py_lower (py_get item "abstract" _)) as [ab|]; [|discriminate].
    cbn [bind].
    destruct (py_lower (py_get item "title" _)) as [ti|]; [|discriminate].
    cbn [bind].
    destruct (py_iter _) as [cats|]; [|discriminate]. cbn [bind].
    destruct (py_any _ _) as [b|]; [|discriminate]. cbn [bind].
    rewrite conference_loop_any.
    destruct (any_fragment _ _), b; intros H; apply Ok_inj in H; subst;
      lazy; tauto.
  - intros H; apply Ok_inj in H; subst. simpl. tauto.
Qed.

(** X5: whenever the popularity sub-scorer returns, on any item at all, the
    value lies between 3.0 and 10.0; for an item that is not a repository it
    lies between 5.0 and 8.0, so the clamp [min(base_score, 10.0)] of the
    paper branch never changes the score. *)
Theorem popularity_range (item : gmap string pyval) (p : spec_float) :
  _calculate_popularity_score item = Ok p ->
  between f3_0 f10_0 p = true /\
  (py_get item "source" (VStr "unknown") <> VStr "github" ->
   between f5_0 f8_0 p = true /\ py_min p f10_0 = p).
Proof.
  intros Hp. split.
  - apply popularity_value_only in Hp. simpl in Hp.
    repeat (destruct Hp as [<-|Hp]; [reflexivity|]). destruct Hp.
  - intros Hg. pose proof (non_repository_popularity item p Hg Hp) as Hin.
    simpl in Hin.
    repeat (destruct Hin as [<-|Hin]; [split; reflexivity|]). destruct Hin.
Qed.

Lemma popularity_range_witness :
  between f3_0 f10_0 f6_0 = true.
Proof.
  exact (proj1 (popularity_range stanford_paper f6_0 eq_refl)).
Defined.

(** X6: whenever the author-influence sub-scorer returns, on any item at
    all, the value lies between 5.0 and 8.0, so the final clamp
    [min(score, 10.0)] never changes the score. *)
Theorem author_influence_range (item : gmap string pyval) (a : spec_float) :
  _calculate_author_influence_score item = Ok a ->
  between f5_0 f8_0 a = true /\ py_min a f10_0 = a.
Proof.
  intros Ha. apply influence_value_only in Ha. simpl in Ha.
  repeat (destruct Ha as [<-|Ha]; [split; reflexivity|]). destruct Ha.
Qed.

Lemma author_influence_range_witness :
  between f5_0 f8_0 f7_5 = true /\ py_min f7_5 f10_0 = f7_5.
Proof.
  exact (author_influence_range stanford_paper f7_5 eq_refl).
Defined.

Lemma fallback_range_checked : fallback_range_check = true.
Proof. vm_compute. reflexivity. Qed.

(** X7: a score computed from the fallback bundle of the summarizer lies
    between 4.5 and 6.7 whatever the item is, since only the popularity and
    the author influence vary. *)
Theorem fallback_score_range (impl : sum_impl) (item : gmap string pyval)
    (r : ScoreResult) :
  fallback_comprehensive_scores impl item = Ok r ->
  between f4_5 f6_7 (final_score r) = true.
Proof.
  unfold fallback_comprehensive_scores. intros Hr.
  destruct (calculate_comprehensive_score_inv _ _ _ _ Hr)
    as (p & a & t1 & t2 & t3 & t4 & Hp & Ha & H1 & H2 & H3 & H4 & ->).
  apply popularity_value_only in Hp. apply influence_value_only in Ha.
  apply Ok_inj in H1, H2, H3, H4. subst t1 t2 t3 t4.
  cbn [final_score result_of_terms].
  pose proof fallback_range_checked as Hc. unfold fallback_range_check in Hc.
  rewrite forallb_forall in Hc.
  specialize (Hc impl ltac:(destruct impl; simpl; tauto)).
  rewrite forallb_forall in Hc. specialize (Hc p Hp).
  rewrite forallb_forall in Hc. exact (Hc a Ha).
Qed.

Lemma fallback_score_range_witness :
  exists r, fallback_comprehensive_scores Compensated stanford_paper = Ok r /\
            between f4_5 f6_7 (final_score r) = true.
Proof.
  eexists. split.
  - vm_compute. reflexivity.
  - apply (fallback_score_range Compensated stanford_paper).
    vm_compute. reflexivity.
Defined.

(** ** Sharper bounds on the final score *)

Lemma div_half_even_between (n d klo khi : Z) :
  0 < d -> (2 * klo - 1) * d < 2 * n -> 2 * n < (2 * khi + 1) * d ->
  klo <= F64.div_half_even n d <= khi.
Proof.
  intros Hd Hlo Hhi. unfold F64.div_half_even.
  pose proof (Z.div_mod n d ltac:(lia)) as Hdm.
  pose proof (Z.mod_pos_bound n d Hd) as Hr.
  set (q := n / d) in *. set (r := n mod d) in *.
  assert (Hq1 : klo - 1 <= q) by nia.
  assert (Hq2 : q <= khi) by nia.
  destruct (Z.compare_spec (2 * r) d) as [E|E|E].
  - assert (klo <= q) by nia. destruct (Z.even q); [lia|]. nia.
  - assert (klo <= q) by nia. lia.
  - assert (q < khi) by nia. lia.
Qed.

Lemma ratio_range_checked (lo hi : spec_float) (first len : nat)
    (p : positive) :
  ratio_range_check lo hi first len = true ->
  (first <= Pos.to_nat p < first + len)%nat ->
  between lo hi (F64.of_ratio false p 100) = true.
Proof.
  intros Hc Hp. unfold ratio_range_check in Hc. rewrite forallb_forall in Hc.
  specialize (Hc (Pos.to_nat p)). rewrite Pos2Nat.id in Hc.
  apply Hc. apply in_seq. lia.
Qed.

(** A sum strictly between [klo - 1/2] and [khi + 1/2] hundredths rounds to
    the float nearest to some [k / 100] with [klo <= k <= khi]. *)
Lemma round_ndigits_between (s : spec_float) (klo khi : Z) :
  good64 s = true -> 0 < klo -> khi <= 1000 ->
  (2 * klo - 1) * one64 < 200 * I64 s ->
  200 * I64 s < (2 * khi + 1) * one64 ->
  exists k : positive,
    klo <= Z.pos k <= khi /\
    F64.round_ndigits s 2 = F64.of_ratio false k 100.
Proof.
  pose proof one64_pos as H1.
  intros Hg Hklo Hkhi Hlo Hhi.
  assert (Hlo0 : 0 <= (2 * klo - 1) * one64)
    by (apply Z.mul_nonneg_nonneg; lia).
  assert (Hhi0 : (2 * khi + 1) * one64 <= 2001 * one64)
    by (apply Z.mul_le_mono_nonneg_r; lia).
  destruct s as [sg|sg| |sg m e]; try discriminate Hg.
  - change (I64 (S754_zero sg)) with 0 in Hlo. lia.
  - destruct (good_finite_inv F64.prec F64.emax sg m e Hg) as (_ & Hemin & _).
    change (SpecFloat.emin F64.prec F64.emax) with (-1074) in Hemin.
    assert (Hbase : base F64.prec F64.emax = -2148) by reflexivity.
    unfold F64.round_ndigits.
    destruct (Z.leb_spec 0 e) as [Hpos|Hneg].
    + exfalso.
      pose proof (good_finite_ge_pow F64.prec F64.emax prec64_pos emax64_gt
                    sg m e Hg ltac:(change (SpecFloat.emin F64.prec F64.emax)
                                     with (-1074); lia)) as Hge.
      pose proof (pow2_le (F64.prec - 1 - base F64.prec F64.emax)
                    (F64.prec - 1 + e - base F64.prec F64.emax)
                    ltac:(rewrite Hbase; unfold F64.prec; lia)) as Hmono.
      rewrite pow_52_one64 in Hmono.
      unfold I64, ival in Hlo, Hhi. destruct sg; cbn [cond_Zopp] in Hlo, Hhi;
        lia.
    + change (10 ^ Z.of_nat 2) with 100.
      set (D := 2 ^ (- e)).
      set (Gs := 2 ^ (e - base F64.prec F64.emax)) in *.
      assert (HD : 0 < D) by (apply pow2_pos; lia).
      assert (HGs : 0 < Gs) by (apply pow2_pos; lia).
      assert (HDG : D * Gs = one64).
      { unfold D, Gs. rewrite <- Z.pow_add_r by lia.
        rewrite <- pow_one64. f_equal. lia. }
      assert (HI : I64 (S754_finite sg m e) = cond_Zopp sg (Z.pos m) * Gs)
        by reflexivity.
      rewrite HI in Hlo, Hhi.
      destruct sg; cbn [cond_Zopp] in Hlo, Hhi.
      * exfalso. assert (0 < Z.pos m * Gs) by (apply Z.mul_pos_pos; lia). lia.
      * assert (Hk : klo <= F64.div_half_even (Z.pos m * 100) D <= khi).
        { apply div_half_even_between; [exact HD| |].
          - apply (Z.mul_lt_mono_pos_r Gs); [exact HGs|].
            replace ((2 * klo - 1) * D * Gs) with ((2 * klo - 1) * one64)
              by (rewrite <- HDG; ring).
            lia.
          - apply (Z.mul_lt_mono_pos_r Gs); [exact HGs|].
            replace ((2 * khi + 1) * D * Gs) with ((2 * khi + 1) * one64)
              by (rewrite <- HDG; ring).
            lia. }
        destruct (F64.div_half_even (Z.pos m * 100) D) as [|k|k]; [lia| |lia].
        exists k. split; [exact Hk|reflexivity].
Qed.

Lemma popularity_values_I64 (p : spec_float) :
  In p popularity_values -> 3 * one64 <= I64 p <= 10 * one64.
Proof.
  pose proof one64_pos as H1. intros Hin. cbv [popularity_values] in Hin.
  simpl in Hin.
  repeat (destruct Hin as [<-|Hin];
          [match goal with
           | |- _ <= I64 ?f <= _ =>
               let k := eval vm_compute in (I64 f / one64) in
               assert (Hk : I64 f = k * one64) by (vm_compute; reflexivity);
               rewrite Hk; lia
           end|]).
  destruct Hin.
Qed.

Lemma influence_values_I64 (a : spec_float) :
  In a influence_values -> 5 * one64 <= I64 a <= 8 * one64.
Proof.
  pose proof one64_pos as H1. intros Hin. cbv [influence_values] in Hin.
  simpl in Hin.
  repeat (destruct Hin as [<-|Hin];
          [match goal with
           | |- _ <= I64 ?f <= _ =>
               let k := eval vm_compute in (2 * I64 f / one64) in
               assert (Hk : 2 * I64 f = k * one64) by (vm_compute; reflexivity);
               lia
           end|]).
  destruct Hin.
Qed.

Lemma final_range_checked : ratio_range_check f1_5 f9_7 150 821 = true.
Proof. vm_compute. reflexivity. Qed.

Lemma final_score_between (impl : sum_impl) (p a : spec_float)
    (llm_scores : gmap string pyval) (t_inn t_app t_read t_exp : spec_float) :
  In p popularity_values -> In a influence_values ->
  (forall key, In key subjective_keys ->
     score_in_range (py_get llm_scores key (VFloat f5_0)) = true) ->
  py_mul_float (py_get llm_scores "technical_innovation" (VFloat f5_0)) f0_20
    = Ok t_inn ->
  py_mul_float (py_get llm_scores "application_value" (VFloat f5_0)) f0_10
    = Ok t_app ->
  py_mul_float (py_get llm_scores "readability" (VFloat f5_0)) f0_15
    = Ok t_read ->
  py_mul_float (py_get llm_scores "experimental_thoroughness" (VFloat f5_0))
    f0_15 = Ok t_exp ->
  between f1_5 f9_7
    (F64.round_ndigits
       (py_sum impl [F64.mul p f0_25; t_inn; t_app; t_read; t_exp;
                     F64.mul a f0_15]) 2) = true.
Proof.
  intros Hp Ha Hsub H1 H2 H3 H4.
  pose proof one64_pos as Hone. pose proof err64_pos as He.
  pose proof err64_small as Hs.
  destruct weights_I64 as (W25 & W20 & W10 & W15).
  destruct weights_good as (G25 & G20 & G10 & G15).
  pose proof (popularity_values_I64 p Hp) as Ip.
  pose proof (influence_values_I64 a Ha) as Ia.
  destruct (metadata_values_in_range p ltac:(apply in_or_app; auto))
    as [Hpv Hpr].
  destruct (metadata_values_in_range a ltac:(apply in_or_app; auto))
    as [Hav Har].
  destruct (weighted_term p f0_25 _ Hpv Hpr G25 W25 ltac:(lia))
    as (Tp & Bp & Ep).
  destruct (weighted_term a f0_15 _ Hav Har G15 W15 ltac:(lia))
    as (Ta & Ba & Ea).
  destruct (subjective_term _ _ _ _
              (Hsub "technical_innovation" ltac:(simpl; tauto)) H1 G20 W20
              ltac:(lia)) as (x1 & T1 & B1 & E1).
  destruct (subjective_term _ _ _ _
              (Hsub "application_value" ltac:(simpl; tauto)) H2 G10 W10
              ltac:(lia)) as (x2 & T2 & B2 & E2).
  destruct (subjective_term _ _ _ _
              (Hsub "readability" ltac:(simpl; tauto)) H3 G15 W15
              ltac:(lia)) as (x3 & T3 & B3 & E3).
  destruct (subjective_term _ _ _ _
              (Hsub "experimental_thoroughness" ltac:(simpl; tauto)) H4 G15 W15
              ltac:(lia)) as (x4 & T4 & B4 & E4).
  destruct (py_sum_spec impl
              [F64.mul p f0_25; t_inn; t_app; t_read; t_exp; F64.mul a f0_15])
    as [Hg Hsum].
  { repeat (apply Forall_cons_2; [assumption|]). apply Forall_nil_2. }
  { simpl. lia. }
  cbn [sumI fold_right] in Hsum.
  destruct (round_ndigits_between _ 150 970 Hg ltac:(lia) ltac:(lia))
    as (k & Hk & ->).
  - unfold one64 in *. lia.
  - unfold one64 in *. lia.
  - apply (ratio_range_checked _ _ 150 821 k final_range_checked). lia.
Qed.

(** X8: with the four subjective values in [0, 10], the final score lies
    between 1.5 and 9.7: the two computed dimensions, which weigh 0.25 and
    0.15, never fall below 3.0 and 5.0 and the author influence never
    exceeds 8.0, so no item can score 0 or 10. *)
Theorem final_score_attainable_range (impl : sum_impl)
    (item llm_scores : gmap string pyval) (r : ScoreResult) :
  (forall key, In key subjective_keys ->
     score_in_range (py_get llm_scores key (VFloat f5_0)) = true) ->
  calculate_comprehensive_score impl item llm_scores = Ok r ->
  between f1_5 f9_7 (final_score r) = true.
Proof.
  intros Hsub Hr.
  destruct (calculate_comprehensive_score_inv _ _ _ _ Hr)
    as (p & a & t1 & t2 & t3 & t4 & Hp & Ha & H1 & H2 & H3 & H4 & ->).
  cbn [final_score result_of_terms].
  apply (final_score_between impl p a llm_scores);
    eauto using popularity_value_only, influence_value_only.
Qed.

Lemma final_score_attainable_range_witness :
  exists r,
    calculate_comprehensive_score Compensated vscode_repo vscode_bundle = Ok r /\
    between f1_5 f9_7 (final_score r) = true.
Proof.
  eexists. split.
  - vm_compute. reflexivity.
  - apply (final_score_attainable_range Compensated vscode_repo vscode_bundle).
    + exact vscode_bundle_in_range.
    + vm_compute. reflexivity.
Defined.

(** ** Strings *)

Lemma lower_char_idem (c : ascii) : lower_char (lower_char c) = lower_char c.
Proof. destruct c as [[] [] [] [] [] [] [] []]; reflexivity. Qed.

Lemma str_lower_idem (s : string) : str_lower (str_lower s) = str_lower s.
Proof.
  induction s as [|c s IH]; [reflexivity|].
  cbn [str_lower]. now rewrite lower_char_idem, IH.
Qed.

Lemma str_lower_app (s t : string) :
  str_lower (s ++ t) = str_lower s ++ str_lower t.
Proof.
  induction s as [|c s IH]; [reflexivity|].
  change (String c s ++ t) with (String c (s ++ t)).
  cbn [str_lower]. rewrite IH. reflexivity.
Qed.

Lemma str_app_assoc (a b c : string) : (a ++ b) ++ c = a ++ (b ++ c).
Proof.
  induction a as [|x a IH]; [reflexivity|].
  change ((String x a ++ b) ++ c) with (String x ((a ++ b) ++ c)).
  rewrite IH. reflexivity.
Qed.

Lemma prefix_nil (s : string) : String.prefix "" s = true.
Proof. destruct s; reflexivity. Qed.

Lemma prefix_cons (a b : ascii) (s t : string) :
  String.prefix (String a s) (String b t)
  = if ascii_dec a b then String.prefix s t else false.
Proof. reflexivity. Qed.

Lemma prefix_app_r (sub s t : string) :
  String.prefix sub s = true -> String.prefix sub (s ++ t) = true.
Proof.
  revert s. induction sub as [|a sub IH]; intros s; [intros; apply prefix_nil|].
  destruct s as [|b s]; [discriminate|].
  change (String b s ++ t) with (String b (s ++ t)). rewrite !prefix_cons.
  destruct (ascii_dec a b); [apply IH|discriminate].
Qed.

Lemma prefix_app_l (a b s : string) :
  String.prefix (a ++ b) s = true -> String.prefix a s = true.
Proof.
  revert s. induction a as [|c a IH]; intros s; [intros; apply prefix_nil|].
  change (String c a ++ b) with (String c (a ++ b)).
  destruct s as [|d s]; [discriminate|]. rewrite !prefix_cons.
  destruct (ascii_dec c d); [apply IH|discriminate].
Qed.

Lemma str_contains_unfold (sub s : string) :
  str_contains sub s =
  String.prefix sub s ||
  match s with
  | EmptyString => false
  | String _ s' => str_contains sub s'
  end.
Proof. destruct s; reflexivity. Qed.

(** A keyword found in a text is found in every extension of the text. *)
Lemma str_contains_app_r (sub s t : string) :
  str_contains sub s = true -> str_contains sub (s ++ t) = true.
Proof.
  induction s as [|c s IH].
  - rewrite str_contains_unfold, orb_false_r. intros H.
    destruct sub; [|discriminate]. destruct t; reflexivity.
  - rewrite str_contains_unfold. intros H.
    change (String c s ++ t) with (String c (s ++ t)).
    rewrite str_contains_unfold.
    apply orb_true_iff in H as [H|H]; apply orb_true_iff.
    + left. now apply (prefix_app_r sub (String c s) t).
    + right. now apply IH.
Qed.

(** A text that contains a phrase contains every beginning of the phrase. *)
Lemma str_contains_app_l (a b s : string) :
  str_contains (a ++ b) s = true -> str_contains a s = true.
Proof.
  induction s as [|c s IH].
  - rewrite (str_contains_unfold (a ++ b)), (str_contains_unfold a),
      !orb_false_r.
    apply prefix_app_l.
  - rewrite (str_contains_unfold (a ++ b) (String c s)),
      (str_contains_unfold a (String c s)).
    intros H. apply orb_true_iff in H as [H|H]; apply orb_true_iff.
    + left. now apply prefix_app_l with b.
    + right. now apply IH.
Qed.

(** ** The keyword fallbacks *)

Lemma keyword_text_lower (title description : string) :
  keyword_text (str_lower title) (str_lower description)
  = keyword_text title description.
Proof.
  unfold keyword_text. rewrite !str_lower_app, !str_lower_idem. reflexivity.
Qed.

Lemma keyword_text_app (title description more : string) :
  keyword_text title (description ++ more)
  = keyword_text title description ++ str_lower more.
Proof.
  unfold keyword_text. rewrite !str_lower_app.
  now rewrite !str_app_assoc.
Qed.















Lemma count_keywords_nonneg (keywords : list string) (text : string) :
  0 <= count_keywords keywords text.
Proof.
  induction keywords as [|k rest IH]; cbn [count_keywords]; [lia|].
  destruct (str_contains k text); lia.
Qed.

Lemma count_keywords_pos (keywords : list string) (text : string) :
  1 <= count_keywords keywords text <-> any_keyword keywords text = true.
Proof.
  unfold any_keyword.
  induction keywords as [|k rest IH]; cbn [count_keywords existsb].
  - split; [lia|discriminate].
  - pose proof (count_keywords_nonneg rest text).
    destruct (str_contains k text); cbn [orb]; [split; [reflexivity|lia]|].
    rewrite <- IH. lia.
Qed.

Lemma count_keywords_none (keywords : list string) (text : string) :
  any_keyword keywords text = false <-> count_keywords keywords text < 1.
Proof.
  pose proof (count_keywords_pos keywords text) as H.
  destruct (any_keyword keywords text); split; intros H';
    try reflexivity; try discriminate.
  - assert (1 <= count_keywords keywords text) by now apply H. lia.
  - destruct (Z.lt_ge_cases (count_keywords keywords text) 1) as [Hlt|Hge];
      [exact Hlt|].
    assert (Hle : 1 <= count_keywords keywords text) by lia.
    apply H in Hle. discriminate.
Qed.

Lemma count_keywords_mono (keywords : list string) (text more : string) :
  count_keywords keywords text <= count_keywords keywords (text ++ more).
Proof.
  induction keywords as [|k rest IH]; cbn [count_keywords]; [lia|].
  destruct (str_contains k text) eqn:E.
  - rewrite (str_contains_app_r _ _ more E). lia.
  - destruct (str_contains k (text ++ more)); lia.
Qed.

Lemma estimate_relevance_high (title description : string) :
  7 <= _estimate_relevance title description <->
  any_keyword high_relevance (keyword_text title description) = true.
Proof.
  rewrite <- count_keywords_pos. unfold _estimate_relevance.
  repeat match goal with
         | |- context [?a <=? ?b] => destruct (Z.leb_spec a b)
         end; lia.
Qed.

(** X11: the estimated relevance is an integer from 4 to 8; it is at least 7
    exactly when a high-relevance keyword occurs in the lower-cased text,
    and 4 exactly when neither a high nor a medium keyword occurs. *)
Theorem estimate_relevance_levels (title description : string) :
  let text := keyword_text title description in
  let r := _estimate_relevance title description in
  4 <= r <= 8 /\
  (7 <= r <-> any_keyword high_relevance text = true) /\
  (r = 4 <-> any_keyword high_relevance text = false /\
             any_keyword medium_relevance text = false).
Proof.
  intros text r. subst r.
  pose proof (count_keywords_pos high_relevance text) as Hh.
  pose proof (count_keywords_pos medium_relevance text) as Hm.
  fold text in Hh, Hm.
  pose proof (count_keywords_none high_relevance text) as Hh'.
  pose proof (count_keywords_none medium_relevance text) as Hm'.
  rewrite <- Hh, Hh', Hm'. unfold _estimate_relevance. fold text.
  repeat match goal with
         | |- context [?a <=? ?b] => destruct (Z.leb_spec a b)
         end; lia.
Qed.

(** X12: text added at the end of the description never lowers the
    estimated relevance. *)
Theorem estimate_relevance_monotone (title description more : string) :
  _estimate_relevance title description
  <= _estimate_relevance title (description ++ more).
Proof.
  unfold _estimate_relevance. rewrite keyword_text_app.
  pose proof (count_keywords_mono high_relevance
                (keyword_text title description) (str_lower more)).
  pose proof (count_keywords_mono medium_relevance
                (keyword_text title description) (str_lower more)).
  repeat match goal with
         | |- context [?a <=? ?b] => destruct (Z.leb_spec a b)
         end; lia.
Qed.

(** X13: both keyword fallbacks ignore the case of the letters A-Z in the
    title and in the description. *)
Theorem keyword_fallbacks_ignore_case (title description : string) :
  _classify_by_keywords (str_lower title) (str_lower description)
    = _classify_by_keywords title description /\
  _estimate_relevance (str_lower title) (str_lower description)
    = _estimate_relevance title description.
Proof.
  unfold _classify_by_keywords, _estimate_relevance.
  rewrite keyword_text_lower. split; reflexivity.
Qed.

(** X14: the medium keyword [programming language] never decides the score:
    a text that contains it contains the high keyword [programming], so its
    relevance is at least 7. *)
Theorem programming_language_is_shadowed (title description : string) :
  str_contains "programming language" (keyword_text title description) = true ->
  7 <= _estimate_relevance title description.
Proof.
  intros H. apply estimate_relevance_high.
  unfold any_keyword, high_relevance. cbn [existsb].
  change "programming language" with ("programming" ++ " language") in H.
  apply str_contains_app_l in H. rewrite H.
  now rewrite !orb_true_r.
Qed.

Lemma programming_language_is_shadowed_witness :
  7 <= _estimate_relevance "A new programming language" "for proofs".
Proof.
  apply programming_language_is_shadowed. vm_compute. reflexivity.
Defined.

(** ** Cleaning the reply of the language model *)

Lemma str_app_nil_l (s : string) : "" ++ s = s.
Proof. reflexivity. Qed.

Lemma str_length_app (a b : string) :
  String.length (a ++ b) = (String.length a + String.length b)%nat.
Proof.
  induction a as [|x a IH]; [reflexivity|].
  change (String x a ++ b) with (String x (a ++ b)).
  cbn [String.length]. now rewrite IH.
Qed.

Lemma str_drop_app (x s : string) : str_drop (String.length x) (x ++ s) = s.
Proof.
  induction x as [|c x IH]; [destruct s; reflexivity|].
  change (String c x ++ s) with (String c (x ++ s)). exact IH.
Qed.

Lemma str_take_app (x s : string) : str_take (String.length x) (x ++ s) = x.
Proof.
  induction x as [|c x IH]; [destruct s; reflexivity|].
  change (String c x ++ s) with (String c (x ++ s)).
  cbn [String.length str_take]. now rewrite IH.
Qed.

Lemma str_find_cons (c d : ascii) (s : string) :
  str_find c (String d s) =
  if Ascii.eqb d c then 0
  else if str_find c s =? -1 then -1 else str_find c s + 1.
Proof. reflexivity. Qed.

Lemma str_rfind_cons (c d : ascii) (s : string) :
  str_rfind c (String d s) =
  if str_rfind c s =? -1 then (if Ascii.eqb d c then 0 else -1)
  else str_rfind c s + 1.
Proof. reflexivity. Qed.

Lemma str_find_range (c : ascii) (s : string) :
  str_find c s = -1 \/ 0 <= str_find c s < Z.of_nat (String.length s).
Proof.
  induction s as [|d s IH]; [now left|].
  rewrite str_find_cons. cbn [String.length].
  destruct (Ascii.eqb d c); [right; lia|].
  destruct (Z.eqb_spec (str_find c s) (-1)); [now left|right; lia].
Qed.

Lemma str_rfind_range (c : ascii) (s : string) :
  str_rfind c s = -1 \/ 0 <= str_rfind c s < Z.of_nat (String.length s).
Proof.
  induction s as [|d s IH]; [now left|].
  rewrite str_rfind_cons. cbn [String.length].
  destruct (Z.eqb_spec (str_rfind c s) (-1)).
  - destruct (Ascii.eqb d c); [right; lia|now left].
  - right. lia.
Qed.

Lemma str_find_none_cons (c d : ascii) (s : string) :
  str_find c (String d s) = -1 <-> d <> c /\ str_find c s = -1.
Proof.
  rewrite str_find_cons. pose proof (str_find_range c s).
  destruct (Ascii.eqb_spec d c); [split; [lia|tauto]|].
  destruct (Z.eqb_spec (str_find c s) (-1)); split; try tauto; lia.
Qed.

Lemma str_rfind_none_cons (c d : ascii) (s : string) :
  str_rfind c (String d s) = -1 <-> d <> c /\ str_rfind c s = -1.
Proof.
  rewrite str_rfind_cons. pose proof (str_rfind_range c s).
  destruct (Z.eqb_spec (str_rfind c s) (-1)).
  - destruct (Ascii.eqb_spec d c); split; try tauto; lia.
  - split; [lia|tauto].
Qed.

(** The first occurrence of a character. *)
Lemma str_find_app (c : ascii) (x rest : string) :
  str_find c x = -1 ->
  str_find c (x ++ String c rest) = Z.of_nat (String.length x).
Proof.
  induction x as [|d x IH].
  - intros _. rewrite str_app_nil_l, str_find_cons.
    now rewrite Ascii.eqb_refl.
  - intros H. apply str_find_none_cons in H as [Hd Hx].
    change (String d x ++ String c rest) with (String d (x ++ String c rest)).
    rewrite str_find_cons, (IH Hx).
    destruct (Ascii.eqb_spec d c); [contradiction|].
    cbn [String.length].
    destruct (Z.eqb_spec (Z.of_nat (String.length x)) (-1)); lia.
Qed.

(** The last occurrence of a character. *)
Lemma str_rfind_app (c : ascii) (x post : string) :
  str_rfind c post = -1 ->
  str_rfind c (x ++ String c post) = Z.of_nat (String.length x).
Proof.
  intros Hp. induction x as [|d x IH].
  - rewrite str_app_nil_l, str_rfind_cons, Hp.
    now rewrite Ascii.eqb_refl.
  - change (String d x ++ String c post) with (String d (x ++ String c post)).
    rewrite str_rfind_cons, IH. cbn [String.length].
    destruct (Z.eqb_spec (Z.of_nat (String.length x)) (-1)); lia.
Qed.

Lemma str_find_split (c : ascii) (s : string) :
  str_find c s <> -1 ->
  exists u v, s = u ++ String c v /\ str_find c u = -1.
Proof.
  induction s as [|d s IH]; [intros H; now contradiction H|].
  rewrite str_find_cons. destruct (Ascii.eqb_spec d c) as [->|Hd].
  - intros _. exists "", s. split; reflexivity.
  - destruct (Z.eqb_spec (str_find c s) (-1)) as [|Hs]; [intros H; lia|].
    intros _. destruct (IH Hs) as (u & v & -> & Hu).
    exists (String d u), v. split; [reflexivity|].
    apply str_find_none_cons. auto.
Qed.

Lemma str_rfind_split (c : ascii) (s : string) :
  str_rfind c s <> -1 ->
  exists x y, s = x ++ String c y /\ str_rfind c y = -1.
Proof.
  induction s as [|d s IH]; [intros H; now contradiction H|].
  rewrite str_rfind_cons.
  destruct (Z.eqb_spec (str_rfind c s) (-1)) as [Hs|Hs].
  - destruct (Ascii.eqb_spec d c) as [->|Hd]; [|intros H; lia].
    intros _. exists "", s. split; [reflexivity|exact Hs].
  - intros _. destruct (IH Hs) as (x & y & -> & Hy).
    exists (String d x), y. split; [reflexivity|exact Hy].
Qed.

Lemma str_find_app_le (c : ascii) (a rest : string) :
  0 <= str_find c (a ++ String c rest) <= Z.of_nat (String.length a).
Proof.
  induction a as [|d a IH].
  - rewrite str_app_nil_l, str_find_cons, Ascii.eqb_refl.
    cbn [String.length]. lia.
  - change (String d a ++ String c rest) with (String d (a ++ String c rest)).
    rewrite str_find_cons. cbn [String.length].
    destruct (Ascii.eqb d c); [lia|].
    destruct (Z.eqb_spec (str_find c (a ++ String c rest)) (-1)); lia.
Qed.

Lemma str_rfind_app_ge (c : ascii) (x y : string) :
  Z.of_nat (String.length x) <= str_rfind c (x ++ String c y).
Proof.
  induction x as [|d x IH].
  - rewrite str_app_nil_l, str_rfind_cons. cbn [String.length].
    pose proof (str_rfind_range c y). rewrite Ascii.eqb_refl.
    destruct (Z.eqb_spec (str_rfind c y) (-1)); lia.
  - change (String d x ++ String c y) with (String d (x ++ String c y)).
    rewrite str_rfind_cons. cbn [String.length].
    destruct (Z.eqb_spec (str_rfind c (x ++ String c y)) (-1)); lia.
Qed.

(** Two decompositions of one string. *)
Lemma str_app_split (u v x y : string) (c d : ascii) :
  u ++ String c v = x ++ String d y ->
  (String.length u < String.length x)%nat ->
  exists mid, x = u ++ String c mid /\ v = mid ++ String d y.
Proof.
  revert x. induction u as [|a u IH]; intros x Heq Hlen.
  - destruct x as [|b x]; [cbn in Hlen; lia|].
    rewrite str_app_nil_l in Heq.
    change (String b x ++ String d y) with (String b (x ++ String d y)) in Heq.
    injection Heq as -> ->. exists x. split; reflexivity.
  - destruct x as [|b x]; [cbn in Hlen; lia|].
    change (String a u ++ String c v) with (String a (u ++ String c v)) in Heq.
    change (String b x ++ String d y) with (String b (x ++ String d y)) in Heq.
    injection Heq as -> Heq. cbn [String.length] in Hlen.
    destruct (IH x Heq ltac:(lia)) as (mid & -> & ->).
    exists mid. split; reflexivity.
Qed.

(** The slice [content[start:end]] taken by [_clean_json_response]. *)
Lemma brace_slice (pre body post : string) :
  str_find "{" pre = -1 -> str_rfind "}" post = -1 ->
  let content := pre ++ String "{" (body ++ String "}" post) in
  let start := str_find "{" content in
  let end_ := str_rfind "}" content + 1 in
  (if negb (start =? -1) && (start <? end_)
   then str_take (Z.to_nat (end_ - start)) (str_drop (Z.to_nat start) content)
   else content) = String "{" (body ++ "}").
Proof.
  intros Hpre Hpost content start end_.
  assert (Hs : start = Z.of_nat (String.length pre)).
  { unfold start, content. now apply str_find_app. }
  assert (He : end_ = Z.of_nat (String.length pre)
                      + Z.of_nat (String.length body) + 2).
  { unfold end_, content.
    replace (pre ++ String "{" (body ++ String "}" post))
      with ((pre ++ String "{" body) ++ String "}" post).
    - rewrite (str_rfind_app _ _ _ Hpost), str_length_app.
      cbn [String.length]. lia.
    - rewrite str_app_assoc. reflexivity. }
  rewrite Hs, He.
  destruct (Z.eqb_spec (Z.of_nat (String.length pre)) (-1)); [lia|].
  destruct (Z.ltb_spec (Z.of_nat (String.length pre))
              (Z.of_nat (String.length pre) + Z.of_nat (String.length body) + 2));
    [|lia].
  cbn [negb andb]. rewrite Nat2Z.id. unfold content. rewrite str_drop_app.
  replace (Z.to_nat (Z.of_nat (String.length pre)
                     + Z.of_nat (String.length body) + 2
                     - Z.of_nat (String.length pre)))
    with (String.length (String "{" (body ++ "}"))).
  - change (String "{" (body ++ String "}" post))
      with (String "{" body ++ String "}" post).
    replace (String "{" body ++ String "}" post)
      with (String "{" (body ++ "}") ++ post).
    + apply str_take_app.
    + change (String "{" (body ++ "}")) with (String "{" body ++ "}").
      rewrite str_app_assoc. reflexivity.
  - cbn [String.length]. rewrite str_length_app. cbn [String.length]. lia.
Qed.

Lemma prefix_contains (sub s : string) :
  String.prefix sub s = true -> str_contains sub s = true.
Proof. intros H. rewrite str_contains_unfold, H. reflexivity. Qed.

Lemma str_contains_tail (sub : string) (c : ascii) (s : string) :
  str_contains sub (String c s) = false ->
  String.prefix sub (String c s) = false /\ str_contains sub s = false.
Proof.
  rewrite str_contains_unfold. intros H. now apply orb_false_iff in H.
Qed.

Lemma json_fence_starts_with_fence (s : string) :
  String.prefix json_fence s = true -> String.prefix fence s = true.
Proof. apply (prefix_app_l fence "json"). Qed.

(** Without a fence the first substitution changes nothing. *)
Lemma sub_json_fence_no_fence (fuel : nat) (s : string) :
  str_contains fence s = false -> sub_json_fence fuel s = s.
Proof.
  revert s. induction fuel as [|fuel IH]; intros s Hs; [reflexivity|].
  cbn [sub_json_fence].
  destruct (String.prefix json_fence s) eqn:Hp.
  - apply json_fence_starts_with_fence, prefix_contains in Hp. congruence.
  - destruct s as [|c s]; [reflexivity|].
    apply str_contains_tail in Hs as [_ Hs]. now rewrite IH.
Qed.

(** Without a fence the second substitution changes nothing. *)
Lemma sub_closing_fence_no_fence (s : string) :
  str_contains fence s = false -> sub_closing_fence s = s.
Proof.
  induction s as [|c s IH]; [reflexivity|]. intros Hs.
  apply str_contains_tail in Hs as [Hp Hs].
  cbn [sub_closing_fence]. rewrite Hp. cbn [andb]. now rewrite IH.
Qed.

(** A fence that begins inside [x] and is followed by a character other
    than a backtick lies inside [x]. *)
Lemma prefix_fence_inside (x : string) (c : ascii) (rest : string) :
  c <> "`"%char ->
  String.prefix fence (x ++ String c rest) = true ->
  String.prefix fence x = true.
Proof.
  intros Hc. unfold fence.
  destruct x as [|c1 [|c2 [|c3 x]]];
    repeat (rewrite ?str_app_nil_l;
            try match goal with
              | |- context [String ?a ?s ++ ?t] =>
                  change (String a s ++ t) with (String a (s ++ t))
              end);
    rewrite ?prefix_cons;
    repeat match goal with
      | |- context [ascii_dec ?a ?b] => destruct (ascii_dec a b); subst
      end; try discriminate; try congruence; intros _; apply prefix_nil.
Qed.

Lemma sub_json_fence_skip (fuel : nat) (x : string) (c : ascii)
    (rest : string) :
  str_contains fence x = false -> c <> "`"%char ->
  sub_json_fence fuel (x ++ String c rest)
  = x ++ sub_json_fence (fuel - String.length x) (String c rest).
Proof.
  intros Hx Hc. revert fuel. induction x as [|d x IH]; intros fuel.
  - rewrite !str_app_nil_l. cbn [String.length]. now rewrite Nat.sub_0_r.
  - destruct fuel as [|fuel]; [reflexivity|].
    change (String d x ++ String c rest) with (String d (x ++ String c rest)).
    cbn [sub_json_fence String.length Nat.sub].
    destruct (String.prefix json_fence (String d (x ++ String c rest)))
      eqn:Hp.
    + apply json_fence_starts_with_fence in Hp.
      apply (prefix_fence_inside (String d x) c rest Hc), prefix_contains
        in Hp. congruence.
    + apply str_contains_tail in Hx as [_ Hx]. rewrite (IH Hx). reflexivity.
Qed.

Lemma sub_closing_fence_skip (x : string) (c : ascii) (rest : string) :
  str_contains fence x = false -> c <> "`"%char ->
  sub_closing_fence (x ++ String c rest)
  = x ++ sub_closing_fence (String c rest).
Proof.
  intros Hx Hc. induction x as [|d x IH]; [reflexivity|].
  change (String d x ++ String c rest) with (String d (x ++ String c rest)).
  cbn [sub_closing_fence].
  destruct (String.prefix fence (String d (x ++ String c rest))) eqn:Hp.
  - apply (prefix_fence_inside (String d x) c rest Hc), prefix_contains in Hp.
    congruence.
  - cbn [andb]. apply str_contains_tail in Hx as [_ Hx]. rewrite (IH Hx).
    reflexivity.
Qed.

Lemma str_find_no_fence (x : string) :
  str_find "`" x = -1 -> str_contains fence x = false.
Proof.
  induction x as [|d x IH]; [reflexivity|].
  intros H. apply str_find_none_cons in H as [Hd Hx].
  rewrite str_contains_unfold, (IH Hx), orb_false_r.
  unfold fence. rewrite prefix_cons.
  destruct (ascii_dec "`" d); [congruence|reflexivity].
Qed.

(** Neither substitution brings in a character that was not there. *)
Lemma str_rfind_str_drop (c : ascii) (n : nat) (s : string) :
  str_rfind c s = -1 -> str_rfind c (str_drop n s) = -1.
Proof.
  revert s. induction n as [|n IH]; intros s H; [destruct s; exact H|].
  destruct s as [|d s]; [exact H|].
  apply str_rfind_none_cons in H as [_ H]. cbn [str_drop]. auto.
Qed.

Lemma str_rfind_skip_spaces (c : ascii) (s : string) :
  str_rfind c s = -1 -> str_rfind c (skip_spaces s) = -1.
Proof.
  induction s as [|d s IH]; [auto|]. intros H. cbn [skip_spaces].
  destruct (is_space d); [|exact H].
  apply str_rfind_none_cons in H as [_ H]. auto.
Qed.

Lemma str_rfind_sub_json_fence (c : ascii) (fuel : nat) (s : string) :
  str_rfind c s = -1 -> str_rfind c (sub_json_fence fuel s) = -1.
Proof.
  revert s. induction fuel as [|fuel IH]; intros s H; [exact H|].
  cbn [sub_json_fence]. destruct (String.prefix json_fence s).
  - apply IH. now apply str_rfind_skip_spaces, str_rfind_str_drop.
  - destruct s as [|d s]; [reflexivity|].
    apply str_rfind_none_cons in H as [Hd H].
    apply str_rfind_none_cons. auto.
Qed.

Lemma str_rfind_sub_closing_fence (c : ascii) (s : string) :
  str_rfind c s = -1 -> str_rfind c (sub_closing_fence s) = -1.
Proof.
  induction s as [|d s IH]; [auto|]. intros H. cbn [sub_closing_fence].
  destruct (String.prefix fence (String d s) && all_spaces (str_drop 3 (String d s)));
    [reflexivity|].
  apply str_rfind_none_cons in H as [Hd H]. apply str_rfind_none_cons. auto.
Qed.

Lemma skip_spaces_app (ws : string) (c : ascii) (rest : string) :
  all_spaces ws = true -> is_space c = false ->
  skip_spaces (ws ++ String c rest) = String c rest.
Proof.
  intros Hws Hc. induction ws as [|d ws IH].
  - rewrite str_app_nil_l. cbn [skip_spaces]. now rewrite Hc.
  - cbn [all_spaces] in Hws. apply andb_true_iff in Hws as [Hd Hws].
    change (String d ws ++ String c rest) with (String d (ws ++ String c rest)).
    cbn [skip_spaces]. rewrite Hd. auto.
Qed.

Lemma str_drop_length (n : nat) (s : string) :
  (String.length (str_drop n s) <= String.length s)%nat.
Proof.
  revert s. induction n as [|n IH]; intros [|c s]; cbn [str_drop String.length];
    try lia.
  specialize (IH s). lia.
Qed.

Lemma skip_spaces_length (s : string) :
  (String.length (skip_spaces s) <= String.length s)%nat.
Proof.
  induction s as [|c s IH]; cbn [skip_spaces]; [lia|].
  destruct (is_space c); cbn [String.length] in *; lia.
Qed.

(** The substitution consumes a character at each step: any fuel that
    covers the length of the string gives the same result, so the fuel given
    by [_clean_json_response] never runs out. *)
Lemma sub_json_fence_fuel (fuel fuel' : nat) (s : string) :
  (String.length s <= fuel)%nat -> (String.length s <= fuel')%nat ->
  sub_json_fence fuel s = sub_json_fence fuel' s.
Proof.
  revert fuel' s. induction fuel as [|fuel IH]; intros fuel' s H H'.
  - destruct s as [|c s]; [|cbn [String.length] in H; lia].
    destruct fuel'; reflexivity.
  - destruct fuel' as [|fuel'].
    + destruct s as [|c s]; [reflexivity|cbn [String.length] in H'; lia].
    + cbn [sub_json_fence]. destruct (String.prefix json_fence s) eqn:Hp.
      * destruct s as [|c s]; [discriminate Hp|].
        cbn [String.length] in H, H'.
        pose proof (skip_spaces_length (str_drop 7 (String c s))) as H1.
        pose proof (str_drop_length 6 s) as H2.
        change (str_drop 7 (String c s)) with (str_drop 6 s) in *.
        apply IH; lia.
      * destruct s as [|c s]; [reflexivity|].
        cbn [String.length] in H, H'. f_equal. apply IH; lia.
Qed.

Lemma clean_json_response_unfold (content c1 c2 : string) :
  sub_json_fence (String.length content) content = c1 ->
  sub_closing_fence c1 = c2 ->
  _clean_json_response content =
  if negb (str_find "{" c2 =? -1) && (str_find "{" c2 <? str_rfind "}" c2 + 1)
  then str_take (Z.to_nat (str_rfind "}" c2 + 1 - str_find "{" c2))
         (str_drop (Z.to_nat (str_find "{" c2)) c2)
  else c2.
Proof. intros <- <-. reflexivity. Qed.

(** X15: the cleaned reply either starts with an opening brace and ends with
    a closing brace, or contains no opening brace that is followed, anywhere
    later, by a closing one. *)
Theorem clean_json_response_shape (content : string) :
  (exists mid, _clean_json_response content = String "{" (mid ++ "}")) \/
  (forall a b c,
     _clean_json_response content <> a ++ String "{" (b ++ String "}" c)).
Proof.
  rewrite (clean_json_response_unfold content _ _ eq_refl eq_refl).
  set (c2 := sub_closing_fence _).
  destruct (Z.eqb_spec (str_find "{" c2) (-1)) as [Hs|Hs]; cbn [negb andb].
  - right. intros a b c Heq.
    pose proof (str_find_app_le "{" a (b ++ String "}" c)) as Hle.
    rewrite <- Heq in Hle. lia.
  - destruct (Z.ltb_spec (str_find "{" c2) (str_rfind "}" c2 + 1)) as [Hlt|Hge].
    + left.
      destruct (str_find_split "{" c2 Hs) as (u & v & Hc2 & Hu).
      assert (Hr : str_rfind "}" c2 <> -1).
      { pose proof (str_find_range "{" c2). lia. }
      destruct (str_rfind_split "}" c2 Hr) as (x & y & Hc2' & Hy).
      assert (Hstart : str_find "{" c2 = Z.of_nat (String.length u)).
      { rewrite Hc2. now apply str_find_app. }
      assert (Hend : str_rfind "}" c2 = Z.of_nat (String.length x)).
      { rewrite Hc2'. now apply str_rfind_app. }
      assert (Hne : String.length u <> String.length x).
      { intros Hlen. rewrite Hc2 in Hc2'. clear - Hc2' Hlen.
        revert x Hc2' Hlen. induction u as [|a u IH]; intros [|b x] Heq Hlen;
          try discriminate Hlen.
        - rewrite !str_app_nil_l in Heq. discriminate.
        - change (String a u ++ String "{" v)
            with (String a (u ++ String "{" v)) in Heq.
          change (String b x ++ String "}" y)
            with (String b (x ++ String "}" y)) in Heq.
          injection Heq as _ Heq. cbn [String.length] in Hlen.
          apply (IH x Heq). lia. }
      destruct (str_app_split u v x y "{" "}") as (mid & Hx & Hv).
      { now rewrite <- Hc2. }
      { lia. }
      exists mid. subst v.
      pose proof (brace_slice u mid y Hu Hy) as Hslice. cbv zeta in Hslice.
      rewrite <- Hc2 in Hslice.
      destruct (Z.eqb_spec (str_find "{" c2) (-1)); [contradiction|].
      destruct (Z.ltb_spec (str_find "{" c2) (str_rfind "}" c2 + 1)); [|lia].
      exact Hslice.
    + right. intros a b c Heq.
      pose proof (str_find_app_le "{" a (b ++ String "}" c)) as Hle.
      pose proof (str_rfind_app_ge "}" (a ++ String "{" b) c) as Hge'.
      rewrite str_app_assoc in Hge'.
      change (String "{" b ++ String "}" c)
        with (String "{" (b ++ String "}" c)) in Hge'.
      rewrite <- Heq in Hle, Hge'.
      rewrite str_length_app in Hge'. cbn [String.length] in Hge'. lia.
Qed.

(** X16: a reply without any code fence that consists of a brace-delimited
    object, with text free of opening braces before it and text free of
    closing braces after it, is cleaned to exactly that object; a bare
    object is returned unchanged. *)
Theorem clean_json_response_plain (pre body post : string) :
  let content := pre ++ String "{" (body ++ String "}" post) in
  str_contains fence content = false ->
  str_find "{" pre = -1 -> str_rfind "}" post = -1 ->
  _clean_json_response content = String "{" (body ++ "}").
Proof.
  intros content Hf Hpre Hpost.
  rewrite (clean_json_response_unfold content content content).
  - exact (brace_slice pre body post Hpre Hpost).
  - now apply sub_json_fence_no_fence.
  - now apply sub_closing_fence_no_fence.
Qed.

Lemma clean_json_response_plain_witness :
  _clean_json_response "Here it is: {'a': {'b': 1}} (done)"
  = "{'a': {'b': 1}}".
Proof.
  apply (clean_json_response_plain "Here it is: " "'a': {'b': 1}" " (done)");
    reflexivity.
Defined.

Lemma prefix_app_self (a b : string) : String.prefix a (a ++ b) = true.
Proof.
  induction a as [|c a IH]; [apply prefix_nil|].
  change (String c a ++ b) with (String c (a ++ b)). rewrite prefix_cons.
  destruct (ascii_dec c c); [exact IH|congruence].
Qed.

Lemma prefix_fence_cons (c : ascii) (s : string) :
  c <> "`"%char -> String.prefix fence (String c s) = false.
Proof.
  intros Hc. unfold fence. rewrite prefix_cons.
  destruct (ascii_dec "`" c); [congruence|reflexivity].
Qed.

Lemma prefix_json_fence_cons (c : ascii) (s : string) :
  c <> "`"%char -> String.prefix json_fence (String c s) = false.
Proof.
  intros Hc. unfold json_fence. rewrite prefix_cons.
  destruct (ascii_dec "`" c); [congruence|reflexivity].
Qed.

(** Text without a backtick is copied by both substitutions. *)
Lemma sub_json_fence_skip_plain (fuel : nat) (x rest : string) :
  str_find "`" x = -1 ->
  sub_json_fence fuel (x ++ rest)
  = x ++ sub_json_fence (fuel - String.length x) rest.
Proof.
  intros Hx. revert fuel. induction x as [|d x IH]; intros fuel.
  - rewrite !str_app_nil_l. cbn [String.length]. now rewrite Nat.sub_0_r.
  - destruct fuel as [|fuel]; [reflexivity|].
    apply str_find_none_cons in Hx as [Hd Hx].
    change (String d x ++ rest) with (String d (x ++ rest)).
    cbn [sub_json_fence String.length Nat.sub].
    rewrite (prefix_json_fence_cons d _ Hd), (IH Hx). reflexivity.
Qed.

Lemma sub_closing_fence_skip_plain (x rest : string) :
  str_find "`" x = -1 ->
  sub_closing_fence (x ++ rest) = x ++ sub_closing_fence rest.
Proof.
  intros Hx. induction x as [|d x IH]; [reflexivity|].
  apply str_find_none_cons in Hx as [Hd Hx].
  change (String d x ++ rest) with (String d (x ++ rest)).
  cbn [sub_closing_fence].
  rewrite (prefix_fence_cons d _ Hd), (IH Hx). reflexivity.
Qed.

Lemma sub_json_fence_cons (fuel : nat) (c : ascii) (post : string) :
  c <> "`"%char ->
  exists post',
    sub_json_fence fuel (String c post) = String c post' /\
    forall d, str_rfind d post = -1 -> str_rfind d post' = -1.
Proof.
  intros Hc. destruct fuel as [|fuel].
  - exists post. split; [reflexivity|auto].
  - exists (sub_json_fence fuel post). cbn [sub_json_fence].
    rewrite (prefix_json_fence_cons c _ Hc). split; [reflexivity|].
    intros d. apply str_rfind_sub_json_fence.
Qed.

(** X17: a reply that holds a brace-delimited object in a [json] code fence
    is cleaned to exactly that object, provided the text before the fence
    has neither a backtick nor an opening brace, the object has no fence
    inside, and the text after the object, which may hold the closing fence,
    has no closing brace. *)
Theorem clean_json_response_fenced (pre ws body post : string) :
  let content :=
    pre ++ json_fence ++ ws ++ String "{" (body ++ String "}" post) in
  str_find "`" pre = -1 -> str_find "{" pre = -1 ->
  all_spaces ws = true ->
  str_contains fence body = false ->
  str_rfind "}" post = -1 ->
  _clean_json_response content = String "{" (body ++ "}").
Proof.
  intros content Htick Hbrace Hws Hbody Hpost.
  assert (Hobj : str_contains fence (String "{" body) = false).
  { rewrite str_contains_unfold, Hbody. reflexivity. }
  assert (Hlen : exists k, (String.length content - String.length pre = S k)%nat).
  { exists (String.length content - String.length pre - 1)%nat.
    unfold content. rewrite !str_length_app. cbn [String.length json_fence].
    lia. }
  destruct Hlen as [k Hk].
  destruct (sub_json_fence_cons (k - String.length (String "{" body)) "}" post)
    as (post1 & Hsub1 & Hkeep); [discriminate|].
  pose proof (Hkeep _ Hpost) as Hpost1.
  set (post2 := sub_closing_fence post1).
  assert (Hpost2 : str_rfind "}" post2 = -1)
    by now apply str_rfind_sub_closing_fence.
  rewrite (clean_json_response_unfold content
             (pre ++ String "{" (body ++ String "}" post1))
             (pre ++ String "{" (body ++ String "}" post2))).
  - exact (brace_slice pre body post2 Hbrace Hpost2).
  - unfold content at 2.
    rewrite (sub_json_fence_skip_plain _ pre _ Htick), Hk.
    cbn [sub_json_fence]. rewrite prefix_app_self.
    change 7%nat with (String.length json_fence). rewrite str_drop_app.
    rewrite skip_spaces_app by (exact Hws || reflexivity).
    change (String "{" (body ++ String "}" post))
      with (String "{" body ++ String "}" post).
    rewrite (sub_json_fence_skip _ _ _ _ Hobj) by discriminate.
    rewrite Hsub1. reflexivity.
  - rewrite (sub_closing_fence_skip_plain pre _ Htick).
    change (String "{" (body ++ String "}" post1))
      with (String "{" body ++ String "}" post1).
    rewrite (sub_closing_fence_skip _ _ _ Hobj) by discriminate.
    cbn [sub_closing_fence]. rewrite prefix_fence_cons by discriminate.
    reflexivity.
Qed.

Lemma clean_json_response_fenced_witness :
  _clean_json_response
    "Sure: ```json
{'a': 1}
```
Bye"
  = "{'a': 1}".
Proof.
  apply (clean_json_response_fenced "Sure: " "
" "'a': 1" "
```
Bye"); reflexivity.
Defined.

(** ** The fallback score and the version of Python *)

Lemma spec_float_beq_eq (x y : spec_float) :
  spec_float_beq x y = true -> x = y.
Proof.
  destruct x as [s|s| |s m e], y as [s'|s'| |s' m' e']; try discriminate;
    cbn [spec_float_beq].
  - intros H. apply Bool.eqb_prop in H. now subst.
  - intros H. apply Bool.eqb_prop in H. now subst.
  - reflexivity.
  - rewrite !andb_true_iff. intros [[Hs Hm] He].
    apply Bool.eqb_prop in Hs. apply Pos.eqb_eq in Hm. apply Z.eqb_eq in He.
    now subst.
Qed.

Lemma fallback_agree_checked : fallback_agree_check = true.
Proof. vm_compute. reflexivity. Qed.

(** X18: the scores computed for the fallback bundle do not depend on the
    summation algorithm of [sum], plain left-to-right addition or the
    compensated summation of newer interpreters: every item gets the same
    result, or raises the same exception, under both. *)
Theorem fallback_scores_same_for_both_sums (item : gmap string pyval) :
  fallback_comprehensive_scores LeftToRight item
  = fallback_comprehensive_scores Compensated item.
Proof.
  unfold fallback_comprehensive_scores.
  rewrite !calculate_comprehensive_score_unfold.
  destruct (_calculate_popularity_score item) as [p|e] eqn:Hp; [|reflexivity].
  destruct (_calculate_author_influence_score item) as [a|e] eqn:Ha;
    [|reflexivity].
  apply popularity_value_only in Hp. apply influence_value_only in Ha.
  change (py_mul_float (py_get fallback_scoring "technical_innovation"
                          (VFloat f5_0)) f0_20) with (Ok (F64.mul f5_0 f0_20)).
  change (py_mul_float (py_get fallback_scoring "application_value"
                          (VFloat f5_0)) f0_10) with (Ok (F64.mul f5_0 f0_10)).
  change (py_mul_float (py_get fallback_scoring "readability"
                          (VFloat f5_0)) f0_15) with (Ok (F64.mul f5_0 f0_15)).
  change (py_mul_float (py_get fallback_scoring "experimental_thoroughness"
                          (VFloat f5_0)) f0_15) with (Ok (F64.mul f5_0 f0_15)).
  cbn [bind]. unfold result_of_terms. f_equal. f_equal.
  pose proof fallback_agree_checked as Hc. unfold fallback_agree_check in Hc.
  rewrite forallb_forall in Hc. specialize (Hc p Hp).
  rewrite forallb_forall in Hc. specialize (Hc a Ha).
  exact (spec_float_beq_eq _ _ Hc).
Qed.

(** ** Author influence and the list of authors *)

Lemma str_app_nil_r (s : string) : s ++ "" = s.
Proof.
  induction s as [|c s IH]; [reflexivity|].
  change (String c s ++ "") with (String c (s ++ "")). now rewrite IH.
Qed.

Lemma str_join_app (sep : string) (l more : list string) :
  l <> [] -> exists t, str_join sep (l ++ more)%list = str_join sep l ++ t.
Proof.
  induction l as [|p l IH]; [congruence|]. intros _.
  destruct l as [|q l].
  - destruct more as [|q more].
    + exists "". now rewrite str_app_nil_r.
    + exists (sep ++ str_join sep (q :: more)). reflexivity.
  - destruct (IH ltac:(discriminate)) as [t Ht].
    exists t.
    change (str_join sep ((p :: q :: l) ++ more)%list)
      with (p ++ sep ++ str_join sep ((q :: l) ++ more)%list).
    rewrite Ht.
    change (str_join sep (p :: q :: l)) with (p ++ sep ++ str_join sep (q :: l)).
    now rewrite !str_app_assoc.
Qed.

Lemma any_fragment_app_r (fragments : list string) (text more : string) :
  any_fragment fragments [text] = true ->
  any_fragment fragments [text ++ more] = true.
Proof.
  unfold any_fragment. rewrite !existsb_exists.
  intros (frag & Hin & H). exists frag. split; [exact Hin|].
  cbn [existsb] in *. rewrite orb_false_r in *.
  now apply str_contains_app_r.
Qed.

Lemma py_join_names (sep : string) (l : list string) :
  py_join sep (VList (map VStr l)) = Ok (str_join sep l).
Proof.
  unfold py_join. cbn [py_iter bind]. rewrite all_strs_map. reflexivity.
Qed.

Lemma py_len_names (l : list string) :
  py_len (VList (map VStr l)) = Ok (Z.of_nat (length l)).
Proof. cbn [py_len]. now rewrite length_map. Qed.

(** The author influence of a paper whose authors are the names [authors]. *)
Lemma paper_influence_of_names (item : gmap string pyval)
    (authors : list string) :
  py_get item "source" (VStr "unknown") = VStr "arxiv" ->
  _calculate_author_influence_score (with_authors authors item) =
  Ok (py_min
        (let score :=
           if any_fragment influential_orgs [str_lower (str_join " " authors)]
           then F64.add f5_0 (F64.of_Z 2) else f5_0 in
         if 5 <=? Z.of_nat (length authors) then F64.add score (F64.of_Z 1)
         else if 3 <=? Z.of_nat (length authors) then F64.add score f0_5
         else score)
        f10_0).
Proof.
  intros Hsrc. unfold _calculate_author_influence_score, with_authors.
  rewrite py_get_insert_ne by discriminate. rewrite Hsrc.
  change (py_eq_str (VStr "arxiv") "arxiv") with true. cbv iota.
  rewrite py_get_insert_eq.
  rewrite py_join_names, py_len_names.
  destruct authors as [|s l]; cbn [map py_truthy bind];
    rewrite org_loop_text_any; reflexivity.
Qed.

(** X19: further names added to the author list of a paper never lower its
    author influence. *)
Theorem more_authors_never_lower_influence (item : gmap string pyval)
    (authors more : list string) :
  py_get item "source" (VStr "unknown") = VStr "arxiv" ->
  exists a b,
    _calculate_author_influence_score (with_authors authors item) = Ok a /\
    _calculate_author_influence_score
      (with_authors (authors ++ more) item) = Ok b /\
    F64.leb a b = true.
Proof.
  intros Hsrc. rewrite !(paper_influence_of_names _ _ Hsrc).
  eexists. eexists. split; [reflexivity|]. split; [reflexivity|].
  rewrite length_app, Nat2Z.inj_add.
  set (n := Z.of_nat (length authors)). set (k := Z.of_nat (length more)).
  assert (Hk : 0 <= k) by (unfold k; lia).
  assert (Horg :
    any_fragment influential_orgs [str_lower (str_join " " authors)] = true ->
    any_fragment influential_orgs
      [str_lower (str_join " " (authors ++ more)%list)] = true).
  { destruct authors as [|s l]; [intros H; vm_compute in H; discriminate|].
    destruct (str_join_app " " (s :: l) more ltac:(discriminate)) as [t ->].
    rewrite str_lower_app. apply any_fragment_app_r. }
  destruct (any_fragment influential_orgs [str_lower (str_join " " authors)]);
    [rewrite (Horg eq_refl)
    |destruct (any_fragment influential_orgs
                 [str_lower (str_join " " (authors ++ more)%list)])];
    cbv zeta;
    destruct (Z.leb_spec 5 n), (Z.leb_spec 3 n), (Z.leb_spec 5 (n + k)),
      (Z.leb_spec 3 (n + k)); try lia; vm_compute; reflexivity.
Qed.

Lemma more_authors_never_lower_influence_witness :
  exists a b,
    _calculate_author_influence_score
      (with_authors ["Ann Lee"; "Bo Chen"] stanford_paper) = Ok a /\
    _calculate_author_influence_score
      (with_authors (["Ann Lee"; "Bo Chen"] ++ ["Cy Diaz (MIT)"])
         stanford_paper) = Ok b /\
    F64.leb a b = true.
Proof.
  apply (more_authors_never_lower_influence stanford_paper).
  reflexivity.
Defined.
